(** * blog2post: the conversion pipeline, embedded in Rocq

    The development follows the TypeScript sources:
    - [src/lib/utm.ts]               the link tracker ([buildTrackedUrl]);
    - [src/lib/prompts.ts]           the prompt builder ([buildPrompt]);
    - [src/lib/extract.ts]           canonical URL resolution ([getCanonical]);
    - [src/lib/supabase.ts]          the optional store client;
    - [src/app/api/convert/route.ts] request validation, sanitisation of the
                                     model output, persistence and [POST].
    - [src/components/home/home-page.tsx] the checks of the form and the
                                     body it posts.

    Part I holds the model, Part II the properties. *)

From Stdlib Require Import String Ascii List NArith Bool Arith Lia.
From Stdlib Require Import DecimalString.
Import ListNotations.

Set Implicit Arguments.
Set Warnings "-register-all".

(* ===================================================================== *)
(** * Part I: the model                                                   *)
(* ===================================================================== *)

(** ** JavaScript strings

    A JavaScript string is a sequence of UTF-16 code units.  The sources only
    contain ASCII literals and the escape for U+200B; [js] turns an ASCII
    literal into its code units. *)

Module JsString.

Definition code_unit := N.
Definition jsstring := list code_unit.

Definition js (s : string) : jsstring :=
  map N_of_ascii (list_ascii_of_string s).

Definition eqb (a b : jsstring) : bool :=
  if list_eq_dec N.eq_dec a b then true else false.

(** [!s] on a string: only the empty string is falsy. *)
Definition truthy (s : jsstring) : bool :=
  match s with [] => false | _ :: _ => true end.

(** [match_prefix eqc pat s]: when [pat] matches at the start of [s]
    (code units compared with [eqc]), the rest of [s] after the match. *)
Fixpoint match_prefix (eqc : code_unit -> code_unit -> bool)
  (pat s : jsstring) : option jsstring :=
  match pat with
  | [] => Some s
  | p :: pat' =>
      match s with
      | [] => None
      | c :: s' => if eqc p c then match_prefix eqc pat' s' else None
      end
  end.

Definition startsWith (s pat : jsstring) : bool :=
  match match_prefix N.eqb pat s with Some _ => true | None => false end.

(** [String.prototype.includes]. *)
Fixpoint includes (s pat : jsstring) : bool :=
  startsWith s pat
  || match s with [] => false | _ :: s' => includes s' pat end.

(** [s.replace(/pat/g, "")] for a literal, non-empty pattern: matches are
    found left to right and do not overlap; the scan resumes after each
    match.  The recursion is on a fuel that [remove_all] sets to the length
    of the subject, which is enough. *)
Fixpoint remove_all_fuel (fuel : nat) (eqc : code_unit -> code_unit -> bool)
  (pat s : jsstring) : jsstring :=
  match fuel with
  | O => s
  | S fuel' =>
      match s with
      | [] => []
      | c :: s' =>
          match match_prefix eqc pat s with
          | Some rest => remove_all_fuel fuel' eqc pat rest
          | None => c :: remove_all_fuel fuel' eqc pat s'
          end
      end
  end.

Definition remove_all (eqc : code_unit -> code_unit -> bool)
  (pat s : jsstring) : jsstring :=
  remove_all_fuel (length s) eqc pat s.

(** Canonicalisation of the [i] flag (without [u]) restricted to what an
    ASCII pattern can match: a code unit above 127 never canonicalises to an
    ASCII one, so only the ASCII letters fold. *)
Definition asciiUpper (c : code_unit) : code_unit :=
  if ((97 <=? c) && (c <=? 122))%N then (c - 32)%N else c.

Definition eq_ignore_case (p c : code_unit) : bool :=
  (asciiUpper p =? asciiUpper c)%N.

(** White space and line terminators, as [String.prototype.trim] strips
    them.  U+200B is not among them. *)
Definition isWhiteSpace (c : code_unit) : bool :=
  existsb (N.eqb c)
    [9; 10; 11; 12; 13; 32; 160; 5760;
     8192; 8193; 8194; 8195; 8196; 8197; 8198; 8199; 8200; 8201; 8202;
     8232; 8233; 8239; 8287; 12288; 65279]%N.

Fixpoint trimStart (s : jsstring) : jsstring :=
  match s with
  | [] => []
  | c :: s' => if isWhiteSpace c then trimStart s' else s
  end.

Definition trimEnd (s : jsstring) : jsstring := rev (trimStart (rev s)).

Definition trim (s : jsstring) : jsstring := trimEnd (trimStart s).

(** [s.replace(pat, rep)] with a string pattern: only the first occurrence
    is replaced ([rep] holds no [$] pattern in the sources). *)
Fixpoint replace_first (pat rep s : jsstring) : jsstring :=
  match match_prefix N.eqb pat s with
  | Some rest => rep ++ rest
  | None =>
      match s with
      | [] => []
      | c :: s' => c :: replace_first pat rep s'
      end
  end.

(** [s.replace(/\s+/g, " ")]: every maximal run of white space becomes one
    space. *)
Fixpoint collapse_spaces (s : jsstring) : jsstring :=
  match s with
  | [] => []
  | c :: s' =>
      if isWhiteSpace c then
        match s' with
        | c' :: _ =>
            if isWhiteSpace c' then collapse_spaces s'
            else 32%N :: collapse_spaces s'
        | [] => [32%N]
        end
      else c :: collapse_spaces s'
  end.

(** The double quote and the line feed, which the literals of the sources
    hold. *)
Definition dq : jsstring := [34%N].
Definition nl : jsstring := [10%N].

(** [Array.prototype.join]. *)
Fixpoint join (sep : jsstring) (l : list jsstring) : jsstring :=
  match l with
  | [] => []
  | [x] => x
  | x :: l' => x ++ sep ++ join sep l'
  end.

(** A template literal that spans several lines. *)
Definition lines (l : list jsstring) : jsstring := join nl l.

(** ASCII [toUpperCase] and [toLowerCase] (the sources apply them to ASCII
    identifiers only). *)
Definition toUpperCase (s : jsstring) : jsstring := map asciiUpper s.

Definition asciiLower (c : code_unit) : code_unit :=
  if ((65 <=? c) && (c <=? 90))%N then (c + 32)%N else c.

Definition toLowerCase (s : jsstring) : jsstring := map asciiLower s.

(** Decimal rendering of a non-negative integer, as a template literal
    renders it.  The rendering is that of the platform for the integers
    below 10^21, among which are all word counts that the extractor
    computes (the platform writes larger numbers with an exponent). *)
Definition of_N (n : N) : jsstring :=
  match n with
  | N0 => js "0"
  | _ => js (NilEmpty.string_of_uint (N.to_uint n))
  end.

End JsString.

Import JsString.

(** ** Exceptions

    A [throw] either carries an [Error] object, of which the handler of
    [POST] reads the message, or some other value. *)

Inductive exn : Type :=
| ErrorObject (message : jsstring)
| NonError.

Inductive result (A : Type) : Type :=
| Ok (a : A)
| Throw (e : exn).

Arguments Ok {A} a.
Arguments Throw {A} e.

(** ** The URL interface of the platform

    [new URL(href)], [new URL(href, base)], [url.searchParams] and
    [url.toString()] belong to the platform.  A URL object is kept as its
    components; the query is kept as the list of name-value pairs that
    [url.searchParams] exposes, which is what the sources read and write.
    The parser and the serialiser are the operations of the class [UrlApi];
    a failed parse is the [TypeError] of the constructor. *)

Module Url.

Record URL : Type := mkURL {
  scheme : jsstring;
  username : jsstring;
  password : jsstring;
  host : jsstring;
  port : option jsstring;
  path : jsstring;
  searchParams : list (jsstring * jsstring);
  fragment : option jsstring
}.

Class UrlApi : Type := {
  URL_parse : jsstring -> option jsstring -> option URL;
  URL_toString : URL -> jsstring
}.

Definition has_name (name : jsstring) (kv : jsstring * jsstring) : bool :=
  JsString.eqb (fst kv) name.

(** [URLSearchParams.prototype.getAll]. *)
Definition getAll (name : jsstring) (l : list (jsstring * jsstring))
  : list jsstring :=
  map snd (filter (has_name name) l).

Definition remove_name (name : jsstring) (l : list (jsstring * jsstring))
  : list (jsstring * jsstring) :=
  filter (fun kv => negb (has_name name kv)) l.

(** [URLSearchParams.prototype.set]: the first pair named [name] takes the
    new value and the other pairs of that name are removed; when there is
    none, the pair is appended. *)
Fixpoint params_set (name value : jsstring) (l : list (jsstring * jsstring))
  : list (jsstring * jsstring) :=
  match l with
  | [] => [(name, value)]
  | kv :: l' =>
      if has_name name kv
      then (name, value) :: remove_name name l'
      else kv :: params_set name value l'
  end.

(** [url.searchParams.set(name, value)]: the list changes and the URL's
    query with it; no other component does. *)
Definition searchParams_set (url : URL) (name value : jsstring) : URL :=
  mkURL (scheme url) (username url) (password url) (host url) (port url)
        (path url) (params_set name value (searchParams url)) (fragment url).

Definition InvalidURL : exn := ErrorObject (js "Invalid URL").

(** [new URL(href)] and [new URL(href, base)]. *)
Definition new_URL `{UrlApi} (href : jsstring) (base : option jsstring)
  : result URL :=
  match URL_parse href base with
  | Some u => Ok u
  | None => Throw InvalidURL
  end.

End Url.

Import Url.

(** ** A reference implementation of the URL interface

    The theorems of Part II hold for every implementation of [UrlApi].  To
    run the model on concrete requests, [ReferenceUrl] implements the
    interface on a part of the URLs that the platform accepts, and refuses
    everything else.  It accepts [http] and [https] URLs
    [scheme://host[:port][/path][?query][#fragment]] in ASCII, without
    credentials, whose host is a domain of letters, digits, hyphens and dots
    with no empty label, no [xn--] label and no numeric last label, whose
    port has at most five digits, whose path, query and fragment hold only
    code units that the platform keeps as they are, and whose query, when
    there is one, is not empty and is written the way the serialiser of
    [URLSearchParams] writes its pairs.  Scheme and host are put in lower
    case, the default port is dropped, dot segments of the path are
    resolved.  With a base, a reference that has no scheme is resolved
    against it: an empty reference, a fragment, a query, an absolute or a
    relative path, or a reference that starts with the authority.  The
    query is read and written as [application/x-www-form-urlencoded]. *)

Module ReferenceUrl.

(** [break p s]: the code units before the first one satisfying [p], and
    those after it when there is one. *)
Fixpoint break (p : code_unit -> bool) (s : jsstring)
  : jsstring * option jsstring :=
  match s with
  | [] => ([], None)
  | c :: s' =>
      if p c then ([], Some s')
      else let (a, b) := break p s' in (c :: a, b)
  end.

(** [split p s]: the pieces of [s] between the code units satisfying
    [p]. *)
Fixpoint split (p : code_unit -> bool) (s : jsstring) : list jsstring :=
  match s with
  | [] => [[]]
  | c :: s' =>
      if p c then [] :: split p s'
      else
        match split p s' with
        | piece :: rest => (c :: piece) :: rest
        | [] => [[c]]
        end
  end.

Definition is_char (c : ascii) (x : code_unit) : bool := (x =? N_of_ascii c)%N.

Definition isDigit (c : code_unit) : bool := ((48 <=? c) && (c <=? 57))%N.

Definition isAlpha (c : code_unit) : bool :=
  (((65 <=? c) && (c <=? 90)) || ((97 <=? c) && (c <=? 122)))%N.

Definition isAlnum (c : code_unit) : bool := isAlpha c || isDigit c.

Definition isSchemeChar (c : code_unit) : bool :=
  isAlnum c || is_char "+" c || is_char "-" c || is_char "." c.

Definition isHostChar (c : code_unit) : bool :=
  isAlnum c || is_char "-" c || is_char "." c.

Definition isPathChar (c : code_unit) : bool :=
  isAlnum c
  || existsb (N.eqb c) (js "-._~!$&'()*+,;=:@/%").

Definition isFragmentChar (c : code_unit) : bool :=
  isPathChar c || is_char "?" c.

Definition isQueryChar (c : code_unit) : bool :=
  isPathChar c || is_char "?" c.

Definition hexValue (c : code_unit) : option N :=
  if isDigit c then Some (c - 48)%N
  else if ((65 <=? c) && (c <=? 70))%N then Some (c - 55)%N
  else if ((97 <=? c) && (c <=? 102))%N then Some (c - 87)%N
  else None.

Definition hexDigit (n : N) : code_unit :=
  if (n <? 10)%N then (48 + n)%N else (55 + n)%N.

(** Percent-decoding of bytes, with [+] read as a space.  A percent sign
    that two hexadecimal digits do not follow stands for itself, and the
    scan goes on right after it. *)
Fixpoint urldecode (s : jsstring) : jsstring :=
  match s with
  | [] => []
  | c :: s' =>
      if is_char "+" c then 32%N :: urldecode s'
      else if is_char "%" c then
        match s' with
        | h :: l :: s'' =>
            match hexValue h, hexValue l with
            | Some a, Some b => (16 * a + b)%N :: urldecode s''
            | _, _ => c :: urldecode s'
            end
        | _ => c :: urldecode s'
        end
      else c :: urldecode s'
  end.

Definition percent (b : N) : jsstring :=
  [N_of_ascii "%"; hexDigit (b / 16); hexDigit (b mod 16)].

(** The UTF-8 bytes of a code point. *)
Definition utf8 (c : N) : list N :=
  if (c <? 128)%N then [c]
  else if (c <? 2048)%N then [192 + c / 64; 128 + c mod 64]%N
  else if (c <? 65536)%N then
    [224 + c / 4096; 128 + (c / 64) mod 64; 128 + c mod 64]%N
  else [240 + c / 262144; 128 + (c / 4096) mod 64; 128 + (c / 64) mod 64;
        128 + c mod 64]%N.

Definition isHighSurrogate (c : code_unit) : bool :=
  ((55296 <=? c) && (c <=? 56319))%N.

Definition isLowSurrogate (c : code_unit) : bool :=
  ((56320 <=? c) && (c <=? 57343))%N.

(** The code points of a string of code units: a surrogate pair is one
    code point, a surrogate without its partner is read as U+FFFD. *)
Fixpoint code_points (s : jsstring) : list N :=
  match s with
  | [] => []
  | c :: s' =>
      if isHighSurrogate c then
        match s' with
        | d :: s'' =>
            if isLowSurrogate d
            then (65536 + (c - 55296) * 1024 + (d - 56320))%N :: code_points s''
            else 65533%N :: code_points s'
        | [] => [65533%N]
        end
      else if isLowSurrogate c then 65533%N :: code_points s'
      else c :: code_points s'
  end.

Definition urlencode_unit (c : N) : jsstring :=
  if isAlnum c || is_char "*" c || is_char "-" c || is_char "." c || is_char "_" c then [c]
  else if (c =? 32)%N then [N_of_ascii "+"]
  else flat_map percent (utf8 c).

Definition urlencode (s : jsstring) : jsstring :=
  flat_map urlencode_unit (code_points s).

Definition parse_pair (piece : jsstring) : jsstring * jsstring :=
  match break (is_char "=") piece with
  | (name, Some value) => (urldecode name, urldecode value)
  | (name, None) => (urldecode name, [])
  end.

Definition parse_query (q : jsstring) : list (jsstring * jsstring) :=
  map parse_pair (filter truthy (split (is_char "&") q)).

Definition serialize_query (l : list (jsstring * jsstring)) : jsstring :=
  join (js "&")
    (map (fun kv => urlencode (fst kv) ++ js "=" ++ urlencode (snd kv)) l).

(** The schemes that are accepted, and their default ports. *)
Definition valid_scheme (s : jsstring) : bool :=
  JsString.eqb s (js "http") || JsString.eqb s (js "https").

Definition default_port (scheme : jsstring) : option jsstring :=
  if JsString.eqb scheme (js "http") then Some (js "80")
  else if JsString.eqb scheme (js "https") then Some (js "443")
  else None.

(** What a reference starts with when it has a scheme of its own. *)
Definition has_scheme (s : jsstring) : bool :=
  match break (is_char ":") s with
  | (c :: sch, Some _) => isAlpha c && forallb isSchemeChar sch
  | _ => false
  end.

Definition port_value (p : jsstring) : N :=
  fold_left (fun acc c => (10 * acc + (c - 48))%N) p 0%N.

Definition valid_port (p : jsstring) : bool :=
  match p with
  | [] => false
  | c :: rest =>
      forallb isDigit p
      && (negb (is_char "0" c) || match rest with [] => true | _ => false end)
      && (length p <=? 5)%nat
      && (port_value p <=? 65535)%N
  end.

(** A label that the platform would read as a number. *)
Definition numeric_label (l : jsstring) : bool :=
  (truthy l && forallb isDigit l)
  || match l with
     | (48 :: x :: rest)%N =>
         ((x =? 120) || (x =? 88))%N
         && forallb (fun c => match hexValue c with Some _ => true | None => false end)
                    rest
     | _ => false
     end.

Definition valid_host (h : jsstring) : bool :=
  let labels := split (is_char ".") h in
  forallb isHostChar h
  && forallb truthy labels
  && forallb (fun l => negb (startsWith l (js "xn--"))) labels
  && negb (numeric_label (last labels [])).

(** A path segment with each [%2e], in either case, read as a dot. *)
Fixpoint undot (seg : jsstring) : jsstring :=
  match seg with
  | [] => []
  | c :: rest =>
      match rest with
      | d :: x :: rest' =>
          if ((c =? 37) && (d =? 50) && ((x =? 101) || (x =? 69)))%N
          then 46%N :: undot rest'
          else c :: undot rest
      | _ => c :: undot rest
      end
  end.

Definition single_dot (seg : jsstring) : bool :=
  JsString.eqb (undot seg) (js ".").

Definition double_dot (seg : jsstring) : bool :=
  JsString.eqb (undot seg) (js "..").

(** The segments that follow the path [stack] (its last segment first),
    with the dot segments resolved. *)
Fixpoint normalize (segs stack : list jsstring) : list jsstring :=
  match segs with
  | [] => rev stack
  | seg :: rest =>
      let is_last := match rest with [] => true | _ => false end in
      if double_dot seg then
        normalize rest (if is_last then [] :: tl stack else tl stack)
      else if single_dot seg then
        normalize rest (if is_last then [] :: stack else stack)
      else normalize rest (seg :: stack)
  end.

(** The segments of a path that is empty or starts with a slash. *)
Definition segments (p : jsstring) : list jsstring :=
  match p with
  | (47 :: rest)%N => split (is_char "/") rest
  | _ => []
  end.

Definition path_from (stack : list jsstring) (segs : list jsstring)
  : jsstring :=
  js "/" ++ join (js "/") (normalize segs stack).

Definition option_default (A : Type) (d : A) (o : option A) : A :=
  match o with Some a => a | None => d end.

(** The part of a URL from the path on, [path?query#fragment]: the path as
    it is written, the pairs of the query when there is one, the
    fragment. *)
Definition parse_tail (s : jsstring)
  : option (jsstring * option (list (jsstring * jsstring)) * option jsstring) :=
  let (s1, frag) := break (is_char "#") s in
  let (p, q) := break (is_char "?") s1 in
  let q_ok :=
    match q with
    | None => true
    | Some q' =>
        truthy q' && forallb isQueryChar q'
        && JsString.eqb (serialize_query (parse_query q')) q'
    end in
  if forallb isPathChar p && q_ok
     && forallb isFragmentChar (option_default [] frag)
  then Some (p, option_map parse_query q, frag)
  else None.

Definition parse_absolute (s : jsstring) : option URL :=
  match break (is_char ":") s with
  | (sch, Some (47 :: 47 :: rest))%N =>
      let authority :=
        fst (break (fun c => is_char "/" c || is_char "?" c || is_char "#" c)
                   rest) in
      let tail := skipn (length authority) rest in
      let (h, prt) := break (is_char ":") authority in
      let sch := toLowerCase sch in
      let h := toLowerCase h in
      let prt_ok := match prt with Some p => valid_port p | None => true end in
      if valid_scheme sch && truthy h && valid_host h && prt_ok then
        match parse_tail tail with
        | Some (p, q, frag) =>
            let prt :=
              match prt, default_port sch with
              | Some a, Some b => if JsString.eqb a b then None else prt
              | _, _ => prt
              end in
            Some (mkURL sch [] [] h prt (path_from [] (segments p))
                        (option_default [] q) frag)
        | None => None
        end
      else None
  | _ => None
  end.

(** A reference without a scheme, resolved against the base [ub]. *)
Definition parse_relative (href : jsstring) (ub : URL) : option URL :=
  match href with
  | (47 :: 47 :: _)%N => parse_absolute (scheme ub ++ js ":" ++ href)
  | _ =>
      match parse_tail href with
      | None => None
      | Some (p, q, frag) =>
          let here p' q' :=
            Some (mkURL (scheme ub) (username ub) (password ub) (host ub)
                        (port ub) p' q' frag) in
          match p, q with
          | [], None =>
              here (path ub) (searchParams ub)
          | [], Some pairs => here (path ub) pairs
          | (47 :: _)%N, _ =>
              here (path_from [] (segments p)) (option_default [] q)
          | _, _ =>
              here (path_from (rev (removelast (segments (path ub))))
                              (split (is_char "/") p))
                   (option_default [] q)
          end
      end
  end.

Definition parse (href : jsstring) (base : option jsstring) : option URL :=
  if has_scheme href then parse_absolute href
  else
    match base with
    | None => None
    | Some b =>
        match parse_absolute b with
        | Some ub => parse_relative href ub
        | None => None
        end
    end.

Definition toString (u : URL) : jsstring :=
  scheme u ++ js "://"
  ++ (if truthy (username u) || truthy (password u)
      then username u
           ++ (if truthy (password u) then js ":" ++ password u else [])
           ++ js "@"
      else [])
  ++ host u
  ++ match port u with Some p => js ":" ++ p | None => [] end
  ++ path u
  ++ match searchParams u with
     | [] => []
     | l => js "?" ++ serialize_query l
     end
  ++ match fragment u with Some f => js "#" ++ f | None => [] end.

Definition api : UrlApi := {| URL_parse := parse; URL_toString := toString |}.

End ReferenceUrl.

(** ** src/types/conversion.ts *)

Inductive OutputType : Type := newsletter | social | email.

Inductive SourceType : Type := source_url | source_text.

Inductive SocialPlatform : Type := twitter | linkedin | instagram.

Inductive Tone : Type := conversational | professional | playful.

Record BlogMetadata : Type := mkBlogMetadata {
  title : option jsstring;
  author : option jsstring;
  canonicalUrl : jsstring;
  wordCount : option N;
  excerpt : option jsstring
}.

(** The string each member of the union types is at run time. *)
Definition OutputType_str (t : OutputType) : jsstring :=
  match t with
  | newsletter => js "newsletter"
  | social => js "social"
  | email => js "email"
  end.

Definition SocialPlatform_str (p : SocialPlatform) : jsstring :=
  match p with
  | twitter => js "twitter"
  | linkedin => js "linkedin"
  | instagram => js "instagram"
  end.

Definition Tone_str (t : Tone) : jsstring :=
  match t with
  | conversational => js "conversational"
  | professional => js "professional"
  | playful => js "playful"
  end.

Definition OutputType_eqb (a b : OutputType) : bool :=
  match a, b with
  | newsletter, newsletter | social, social | email, email => true
  | _, _ => false
  end.

Definition SocialPlatform_eqb (a b : SocialPlatform) : bool :=
  match a, b with
  | twitter, twitter | linkedin, linkedin | instagram, instagram => true
  | _, _ => false
  end.

(** ** src/lib/utm.ts *)

Module Utm.

Definition UTM_SOURCE : jsstring := js "blog2buzz".
Definition UTM_CAMPAIGN : jsstring := js "content-repurpose".

(** [overrideParams.forEach(([key, value]) => url.searchParams.set(key, value))]
    over the entries of the object, in the order of [Object.entries]. *)
Definition apply_overrides (url : URL) (entries : list (jsstring * jsstring))
  : URL :=
  fold_left (fun u kv => searchParams_set u (fst kv) (snd kv)) entries url.

(** The URL object of [buildTrackedUrl] just before [url.toString()]. *)
Definition tracked (url : URL) (medium : OutputType)
  (overrideParams : option (list (jsstring * jsstring))) : URL :=
  let url := searchParams_set url (js "utm_source") UTM_SOURCE in
  let url := searchParams_set url (js "utm_medium") (OutputType_str medium) in
  let url := searchParams_set url (js "utm_campaign") UTM_CAMPAIGN in
  match overrideParams with
  | Some entries => apply_overrides url entries
  | None => url
  end.

(** [overrideParams] is the list of entries of the object, or [None] when
    the argument is left out. *)
Definition buildTrackedUrl `{UrlApi} (href : jsstring) (medium : OutputType)
  (overrideParams : option (list (jsstring * jsstring))) : result jsstring :=
  match new_URL href None with
  | Throw e => Throw e
  | Ok url => Ok (URL_toString (tracked url medium overrideParams))
  end.

End Utm.

Import Utm.

(** ** src/lib/prompts.ts *)

Module Prompts.

Record PromptBuilderOptions : Type := mkOptions {
  outputType : OutputType;
  blogText : jsstring;
  metadata : BlogMetadata;
  platforms : option (list SocialPlatform);
  tone : option Tone
}.

Definition toneGuidance (t : Tone) : jsstring :=
  match t with
  | conversational =>
      js "Adopt a warm, conversational tone with clear transitions and short paragraphs."
  | professional =>
      js "Use a confident, professional voice with crisp sentences and thoughtful structure."
  | playful =>
      js "Lean into an upbeat, playful tone that still communicates the core ideas clearly."
  end.

Definition outputToneFallback : jsstring :=
  js "Default to a friendly, confident tone that is easy to skim.".

Definition SOCIAL_PLATFORM_DESCRIPTIONS (p : SocialPlatform) : jsstring :=
  match p with
  | twitter =>
      js "Create a concise thread style update using plain language, emojis, and up to two relevant hashtags. Keep each Tweet under 250 characters."
  | linkedin =>
      js "Write a short LinkedIn caption that highlights the key takeaway and invites discussion. Use 2-3 professional yet friendly sentences and add one relevant hashtag."
  | instagram =>
      js "Draft an Instagram caption with an engaging hook, a short summary in 2-3 sentences, and a strong call-to-action emoji. Include 2-3 short hashtags."
  end.

Definition buildBacklinkInstruction (metadata : BlogMetadata) : jsstring :=
  let anchor :=
    js "<a href=" ++ dq ++ canonicalUrl metadata ++ dq
    ++ js " rel=" ++ dq ++ js "noopener noreferrer" ++ dq
    ++ js ">Read the full article</a>" in
  replace_first (dq ++ js ">")
                (dq ++ js " data-utm=" ++ dq ++ js "true" ++ dq ++ js ">")
                anchor.

(** [tone ? toneGuidance[tone] : outputToneFallback], on the parameter
    after its default has been applied. *)
Definition toneLine (tone : Tone) : jsstring :=
  if truthy (Tone_str tone) then toneGuidance tone else outputToneFallback.

(** The array that [buildPrompt] filters and joins into [sharedContext]. *)
Definition sharedContextLines (metadata : BlogMetadata) (tone : Tone)
  (backlinkAnchor : jsstring) : list jsstring :=
  [ js "You are Blog2Buzz, an AI writing assistant that repurposes blog posts into channel-ready formats.";
    js "The generated content must stand alone, read naturally, and entice readers to click back to the source article.";
    js "Original article title: "
      ++ match title metadata with Some t => t | None => js "Untitled" end
      ++ js ".";
    match author metadata with
    | Some a => if truthy a then js "Primary author: " ++ a ++ js "." else []
    | None => []
    end;
    match excerpt metadata with
    | Some e =>
        if truthy e then js "Key excerpt from the article: " ++ e else []
    | None => []
    end;
    js "Total word count (approximate): "
      ++ match wordCount metadata with
         | Some n => of_N n
         | None => js "unknown"
         end
      ++ js ".";
    toneLine tone;
    js "Always embed this backlink exactly once in the most natural spot: "
      ++ backlinkAnchor ++ js ".";
    js "Do not invent facts. If a detail is missing in the source text, skip it." ].

Definition sharedContextOf (metadata : BlogMetadata) (tone : Tone)
  (backlinkAnchor : jsstring) : jsstring :=
  join nl (filter truthy (sharedContextLines metadata tone backlinkAnchor)).

Definition default_platforms : list SocialPlatform :=
  [twitter; linkedin; instagram].

Definition default_tone : Tone := conversational.

Definition buildPrompt (options : PromptBuilderOptions) : jsstring :=
  let platforms :=
    match platforms options with Some l => l | None => default_platforms end in
  let tone :=
    match tone options with Some t => t | None => default_tone end in
  let blogText := blogText options in
  let backlinkAnchor := buildBacklinkInstruction (metadata options) in
  let sharedContext :=
    sharedContextOf (metadata options) tone backlinkAnchor in
  match outputType options with
  | newsletter =>
  lines
    [sharedContext;
     [];
     js "Generate HTML for a newsletter update that includes:";
     js "- A warm intro framing why this article matters.";
     js "- 2-3 short paragraphs that summarize the key insights without repeating the entire article.";
     js "- A bulleted list of 3 sharp takeaways or action items.";
     js "- A closing sentence that nudges readers to explore more, followed immediately by the backlink anchor.";
     [];
     js "Formatting rules:";
     js "- Use semantic HTML (<article>, <h2>, <p>, <ul>, <li>, <strong>).";
     js "- Keep paragraphs under 60 words.";
     js "- Never include placeholder text.";
     [];
     js "Backlink anchor to insert: " ++ backlinkAnchor;
     [];
     js "Source article content:";
     blogText]
  | email =>
  lines
    [sharedContext;
     [];
     js "Generate HTML for a marketing email snippet ready to drop into a campaign tool. Requirements:";
     js "- Subject line suggestion in a <p data-role=" ++ dq ++ js "subject" ++ dq ++ js "> element (max 55 characters).";
     js "- Preheader suggestion in a <p data-role=" ++ dq ++ js "preheader" ++ dq ++ js "> element (max 90 characters).";
     js "- Body content inside a <section data-role=" ++ dq ++ js "body" ++ dq ++ js "> wrapping:";
     js "  - A friendly greeting.";
     js "  - 2 concise paragraphs covering the core narrative.";
     js "  - A short bulleted or numbered list of the main highlights.";
     js "  - A single call-to-action button (<a> styled inline) that uses the backlink anchor.";
     js "- An optional postscript (<p data-role=" ++ dq ++ js "ps" ++ dq ++ js ">) if there's a timely hook.";
     [];
     js "Favor approachable, professional language that still feels personal.";
     [];
     js "Backlink anchor to insert inside the CTA button: " ++ backlinkAnchor;
     [];
     js "Source article content:";
     blogText]
  | social =>
  let platformGuidance :=
    join (nl ++ nl)
      (map (fun platform =>
              js "For " ++ toUpperCase (SocialPlatform_str platform)
              ++ js ":" ++ nl ++ SOCIAL_PLATFORM_DESCRIPTIONS platform)
           platforms) in
  lines
    [sharedContext;
     [];
     js "Generate HTML that contains a <section> element for each requested platform. Each section must have:";
     js "- data-platform attribute set to the platform name (twitter, linkedin, instagram).";
     js "- A <h3> heading naming the platform.";
     js "- A <p> with the suggested copy.";
     js "- The backlink anchor appended at the end of the copy, using natural connective text (e.g., " ++ dq ++ js "Read more" ++ dq ++ js ").";
     [];
     js "Platform-specific rules:";
     platformGuidance;
     [];
     js "Always keep emoji use relevant and tasteful.";
     js "Never repeat the exact same wording across platforms.";
     [];
     js "Backlink anchor to include in each section: " ++ backlinkAnchor;
     [];
     js "Source article content:";
     blogText]
  end.

End Prompts.

(** ** src/lib/extract.ts

    The document is what jsdom hands to the code: [querySelector] by
    selector text, the [href] property of an element and [getAttribute].
    The fetch, the HTML parser and the readability parser are operations of
    the platform, gathered in [Web]. *)

Module Extract.

Record Element : Type := mkElement {
  href : jsstring;
  getAttribute : jsstring -> option jsstring
}.

Record Document : Type := mkDocument {
  querySelector : jsstring -> option Element;
  doc_title : jsstring;
  body_textContent : option jsstring
}.

Record Article : Type := mkArticle {
  art_title : option jsstring;
  byline : option jsstring;
  art_length : N;
  art_excerpt : option jsstring;
  textContent : option jsstring
}.

Record ExtractedArticle : Type := mkExtracted {
  content : jsstring;
  ext_metadata : BlogMetadata;
  html : jsstring
}.

Inductive CanonicalSource : Type :=
| from_link | from_og | from_twitter | from_input.

Record CanonicalResult : Type := mkCanonical {
  c_href : jsstring;
  c_source : CanonicalSource
}.

Definition resolveCanonical `{UrlApi} (url : jsstring)
  (href : option jsstring) : jsstring :=
  match href with
  | None => url
  | Some h =>
      if negb (truthy h) then url
      else
        match new_URL h (Some url) with
        | Ok u => URL_toString u
        | Throw _ => url
        end
  end.

Definition sel_link : jsstring := js "link[rel='canonical']".
Definition sel_og : jsstring := js "meta[property='og:url']".
Definition sel_twitter : jsstring := js "meta[name='twitter:url']".

(** [el?.getAttribute("content")]. *)
Definition content_of (el : option Element) : option jsstring :=
  match el with
  | Some e => getAttribute e (js "content")
  | None => None
  end.

Definition truthy_opt (o : option jsstring) : bool :=
  match o with Some s => truthy s | None => false end.

Definition getCanonical `{UrlApi} (doc : Document) (url : jsstring)
  : CanonicalResult :=
  let linkEl := querySelector doc sel_link in
  if truthy_opt (option_map href linkEl) then
    mkCanonical (resolveCanonical url (option_map href linkEl)) from_link
  else
    let ogUrl := content_of (querySelector doc sel_og) in
    if truthy_opt ogUrl then
      mkCanonical (resolveCanonical url ogUrl) from_og
    else
      let twitterUrl := content_of (querySelector doc sel_twitter) in
      if truthy_opt twitterUrl then
        mkCanonical (resolveCanonical url twitterUrl) from_twitter
      else mkCanonical url from_input.

Record FetchResponse : Type := mkFetchResponse {
  ok : bool;
  status : N;
  statusText : jsstring;
  text : result jsstring
}.

Record Web : Type := mkWeb {
  fetch : jsstring -> result FetchResponse;
  JSDOM : jsstring -> jsstring -> result Document;
  Readability_parse : Document -> result (option Article)
}.

(** [Math.round(n / 5)] on a non-negative integer. *)
Definition round_div5 (n : N) : N := ((2 * n + 5) / 10)%N.

Definition bind_result (A B : Type) (r : result A) (k : A -> result B)
  : result B :=
  match r with
  | Ok a => k a
  | Throw e => Throw e
  end.

Definition extractArticleFromUrl `{UrlApi} (web : Web) (url : jsstring)
  : result ExtractedArticle :=
  bind_result (fetch web url) (fun response =>
  if negb (ok response) then
    Throw (ErrorObject
             (js "Unable to fetch content. Received status "
              ++ of_N (status response) ++ js " ("
              ++ statusText response ++ js ")."))
  else
  bind_result (text response) (fun html =>
  bind_result (JSDOM web html url) (fun doc =>
  bind_result (Readability_parse web doc) (fun article =>
  let textContent :=
    match option_map trim
            (match article with Some a => textContent a | None => None end)
    with
    | Some t => t
    | None =>
        match option_map (fun t => trim (collapse_spaces t))
                (body_textContent doc) with
        | Some t => t
        | None => []
        end
    end in
  if negb (truthy textContent) then
    Throw (ErrorObject
             (js "We couldn't extract readable content from this URL."))
  else
    let canonical := getCanonical doc url in
    let metadata :=
      mkBlogMetadata
        (match match article with Some a => art_title a | None => None end
         with
         | Some t => Some t
         | None => Some (doc_title doc)
         end)
        (match article with Some a => byline a | None => None end)
        (c_href canonical)
        (match article with
         | Some a =>
             if (art_length a =? 0)%N then None
             else Some (round_div5 (art_length a))
         | None => None
         end)
        (match article with Some a => art_excerpt a | None => None end) in
    Ok (mkExtracted textContent metadata html))))).

End Extract.

(** ** src/lib/supabase.ts and the effects of the route

    The handler logs to the console, keeps the store client in a module
    variable and calls the language model once per output type.  A
    computation takes the state and returns a value or a thrown exception
    together with the new state. *)

Module Effects.

(** One row of the table [conversions], as [persistConversion] writes it. *)
Record ConversionRow : Type := mkRow {
  source_type : SourceType;
  row_tone : Tone;
  output_types : list OutputType;
  social_platforms : list SocialPlatform;
  canonical_url : jsstring;
  article_title : option jsstring;
  article_author : option jsstring;
  row_outputs : list (OutputType * jsstring);
  raw_content : jsstring;
  row_metadata : BlogMetadata
}.

(** The store client: [from(table).insert(row)] resolves with an optional
    [error], or rejects. *)
Record SupabaseClient : Type := mkClient {
  insert : jsstring -> ConversionRow -> result (option jsstring)
}.

Inductive LogPayload : Type :=
| Thrown (e : exn)
| StoreError (error : jsstring).

(** An entry of [console.error]. *)
Record LogEntry : Type := mkLog {
  label : jsstring;
  payload : LogPayload
}.

Record State : Type := mkState {
  console : list LogEntry;
  supabaseAdminClient : option SupabaseClient;
  generateCalls : nat
}.

Definition M (A : Type) : Type := State -> result A * State.

Definition ret (A : Type) (a : A) : M A := fun st => (Ok a, st).

Definition throw (A : Type) (e : exn) : M A := fun st => (Throw e, st).

Definition bind (A B : Type) (m : M A) (k : A -> M B) : M B :=
  fun st =>
    match m st with
    | (Ok a, st') => k a st'
    | (Throw e, st') => (Throw e, st')
    end.

Definition lift (A : Type) (r : result A) : M A := fun st => (r, st).

(** [try { m } catch (error) { handler(error) }]. *)
Definition try_catch (A : Type) (m : M A) (handler : exn -> M A) : M A :=
  fun st =>
    match m st with
    | (Ok a, st') => (Ok a, st')
    | (Throw e, st') => handler e st'
    end.

Definition console_error (label : jsstring) (payload : LogPayload) : M unit :=
  fun st =>
    (Ok tt,
     mkState (console st ++ [mkLog label payload])
             (supabaseAdminClient st) (generateCalls st)).

Definition get_client : M (option SupabaseClient) :=
  fun st => (Ok (supabaseAdminClient st), st).

Definition set_client (c : SupabaseClient) : M unit :=
  fun st => (Ok tt, mkState (console st) (Some c) (generateCalls st)).

(** The number of calls to the model made so far; taking it counts one
    more. *)
Definition next_call : M nat :=
  fun st =>
    (Ok (generateCalls st),
     mkState (console st) (supabaseAdminClient st) (S (generateCalls st))).

Record Env : Type := mkEnv {
  GEMINI_API_KEY : option jsstring;
  GEMINI_MODEL : option jsstring;
  SUPABASE_URL : option jsstring;
  SUPABASE_SERVICE_ROLE_KEY : option jsstring
}.

(** What the handler reaches outside itself: the environment, the web, the
    language model ([generateContent n model prompt] is the text of the
    [n]-th call, or the exception it raises) and the constructor of the
    store client. *)
Record World : Type := mkWorld {
  env : Env;
  web : Extract.Web;
  generateContent : nat -> jsstring -> jsstring -> result jsstring;
  createClient : jsstring -> jsstring -> result SupabaseClient
}.

End Effects.

Import Effects.

Declare Scope js_scope.
Delimit Scope js_scope with jsm.
Notation "x <- c ;; k" := (bind c (fun x => k))
  (at level 61, c at next level, right associativity) : js_scope.
Notation "c ;;; k" := (bind c (fun _ => k))
  (at level 61, right associativity) : js_scope.

Module Supabase.

Definition createSupabaseAdminClient (w : World)
  : M (option SupabaseClient) :=
  (let url := SUPABASE_URL (env w) in
   let serviceRoleKey := SUPABASE_SERVICE_ROLE_KEY (env w) in
   match url, serviceRoleKey with
   | Some url, Some serviceRoleKey =>
       if negb (truthy url) || negb (truthy serviceRoleKey) then ret None
       else
         cached <- get_client ;;
         match cached with
         | Some c => ret (Some c)
         | None =>
             c <- lift (createClient w url serviceRoleKey) ;;
             set_client c ;;;
             ret (Some c)
         end
   | _, _ => ret None
   end)%jsm.

Definition getSupabaseAdminClient (w : World) : M (option SupabaseClient) :=
  createSupabaseAdminClient w.

End Supabase.

(** ** src/app/api/convert/route.ts *)

Module Route.

Import Prompts Extract Supabase.

(** *** The request body and its schema

    [request.json()] yields a JSON value.  An object is the list of its
    members, each name once. *)

Inductive json : Type :=
| JNull
| JBool (b : bool)
| JNumber (lexeme : jsstring)
| JString (s : jsstring)
| JArray (items : list json)
| JObject (members : list (jsstring * json)).

(** [data[key]], [None] being [undefined]. *)
Fixpoint member (key : jsstring) (members : list (jsstring * json))
  : option json :=
  match members with
  | [] => None
  | (k, v) :: rest => if JsString.eqb k key then Some v else member key rest
  end.

Inductive issue_code : Type :=
| invalid_type | invalid_enum_value | too_small | invalid_string.

(** The message of an issue: the text given in the schema, or the text the
    validation library supplies for the code, which is kept symbolic. *)
Inductive message : Type :=
| Text (s : jsstring)
| BuiltIn (code : issue_code).

(** A schema turns a value, or [undefined], into the parsed value or into
    the messages of its issues, in the order the library raises them. *)
Definition schema (A : Type) : Type := option json -> list message + A.

Definition z_enum (A : Type) (values : list (jsstring * A)) : schema A :=
  fun v =>
    match v with
    | Some (JString s) =>
        match find (fun kv => JsString.eqb (fst kv) s) values with
        | Some kv => inr (snd kv)
        | None => inl [BuiltIn invalid_enum_value]
        end
    | _ => inl [BuiltIn invalid_type]
    end.

Definition z_string : schema jsstring :=
  fun v =>
    match v with
    | Some (JString s) => inr s
    | _ => inl [BuiltIn invalid_type]
    end.

(** [z.string().min(1, msg)]. *)
Definition z_string_min1 (msg : jsstring) : schema jsstring :=
  fun v =>
    match z_string v with
    | inr s => if (length s <? 1)%nat then inl [Text msg] else inr s
    | inl issues => inl issues
    end.

(** [z.string().url()]: the check constructs a [URL]. *)
Definition z_string_url `{UrlApi} : schema jsstring :=
  fun v =>
    match z_string v with
    | inr s =>
        match new_URL s None with
        | Ok _ => inr s
        | Throw _ => inl [BuiltIn invalid_string]
        end
    | inl issues => inl issues
    end.

(** The items of an array, each against the schema of the elements. *)
Fixpoint z_items (A : Type) (item : schema A) (l : list json)
  : list message * list A :=
  match l with
  | [] => ([], [])
  | x :: l' =>
      let (issues, values) := z_items item l' in
      match item (Some x) with
      | inl i => (i ++ issues, values)
      | inr a => (issues, a :: values)
      end
  end.

(** [z.array(item)], with [.min(1, msg)] when [min1] holds a message: the
    length is checked first, then the items. *)
Definition z_array (A : Type) (item : schema A) (min1 : option jsstring)
  : schema (list A) :=
  fun v =>
    match v with
    | Some (JArray l) =>
        let short :=
          match min1 with
          | Some msg => if (length l <? 1)%nat then [Text msg] else []
          | None => []
          end in
        let (issues, values) := z_items item l in
        match short ++ issues with
        | [] => inr values
        | all => inl all
        end
    | _ => inl [BuiltIn invalid_type]
    end.

Definition z_optional (A : Type) (inner : schema A) : schema (option A) :=
  fun v =>
    match v with
    | None => inr None
    | Some _ =>
        match inner v with
        | inr a => inr (Some a)
        | inl issues => inl issues
        end
    end.

Record ConvertRequestPayload : Type := mkPayload {
  sourceType : SourceType;
  source : jsstring;
  outputTypes : list OutputType;
  socialPlatforms : option (list SocialPlatform);
  tone : option Tone;
  req_canonicalUrl : option jsstring;
  articleTitle : option jsstring;
  articleAuthor : option jsstring
}.

Definition issues_of (A : Type) (r : list message + A) : list message :=
  match r with inl issues => issues | inr _ => [] end.

(** [REQUEST_SCHEMA.safeParse(body)]: the fields are parsed in the order of
    the schema and their issues gathered; keys outside the schema are
    dropped. *)
Definition REQUEST_SCHEMA `{UrlApi} (body : json)
  : list message + ConvertRequestPayload :=
  match body with
  | JObject members =>
      let f_sourceType :=
        z_enum [(js "url", source_url); (js "text", source_text)]
               (member (js "sourceType") members) in
      let f_source :=
        z_string_min1 (js "Provide a blog URL or the article text.")
                      (member (js "source") members) in
      let f_outputTypes :=
        z_array
          (z_enum [(js "newsletter", newsletter); (js "social", social);
                   (js "email", email)])
          (Some (js "Select at least one output format."))
          (member (js "outputTypes") members) in
      let f_socialPlatforms :=
        z_optional
          (z_array
             (z_enum [(js "twitter", twitter); (js "linkedin", linkedin);
                      (js "instagram", instagram)])
             None)
          (member (js "socialPlatforms") members) in
      let f_tone :=
        z_optional
          (z_enum [(js "conversational", conversational);
                   (js "professional", professional);
                   (js "playful", playful)])
          (member (js "tone") members) in
      let f_canonicalUrl :=
        z_optional z_string_url (member (js "canonicalUrl") members) in
      let f_articleTitle :=
        z_optional z_string (member (js "articleTitle") members) in
      let f_articleAuthor :=
        z_optional z_string (member (js "articleAuthor") members) in
      match f_sourceType, f_source, f_outputTypes, f_socialPlatforms,
            f_tone, f_canonicalUrl, f_articleTitle, f_articleAuthor with
      | inr a, inr b, inr c, inr d, inr e, inr f, inr g, inr h =>
          inr (mkPayload a b c d e f g h)
      | _, _, _, _, _, _, _, _ =>
          inl (issues_of f_sourceType ++ issues_of f_source
               ++ issues_of f_outputTypes ++ issues_of f_socialPlatforms
               ++ issues_of f_tone ++ issues_of f_canonicalUrl
               ++ issues_of f_articleTitle ++ issues_of f_articleAuthor)
      end
  | _ => inl [BuiltIn invalid_type]
  end.

Definition DEFAULT_PLATFORMS : list SocialPlatform :=
  [twitter; linkedin; instagram].

Definition DEFAULT_TONE : Tone := conversational.

(** *** The response *)

Record ConvertResponsePayload : Type := mkResponsePayload {
  outputs : list (OutputType * jsstring);
  metadata : BlogMetadata;
  rawContent : jsstring
}.

Inductive ResponseBody : Type :=
| ErrorBody (error : jsstring) (details : option (list message))
| PayloadBody (payload : ConvertResponsePayload).

Record Response : Type := mkResponse {
  status : N;
  body : ResponseBody
}.

(** [NextResponse.json(body)] and [NextResponse.json(body, { status })]. *)
Definition NextResponse_json (body : ResponseBody) (status : option N)
  : Response :=
  mkResponse (match status with Some n => n | None => 200%N end) body.

Record Request : Type := mkRequest {
  request_json : result json
}.

(** [outputs[outputType] = html]: a key already there keeps its place and
    takes the new value. *)
Fixpoint outputs_set (outputs : list (OutputType * jsstring))
  (key : OutputType) (value : jsstring) : list (OutputType * jsstring) :=
  match outputs with
  | [] => [(key, value)]
  | (k, v) :: rest =>
      if OutputType_eqb k key then (k, value) :: rest
      else (k, v) :: outputs_set rest key value
  end.


(** [Array.from(new Set(l))]: the first occurrence of each element, in
    order. *)
Fixpoint dedupe (seen l : list SocialPlatform) : list SocialPlatform :=
  match l with
  | [] => []
  | x :: l' =>
      if existsb (SocialPlatform_eqb x) seen then dedupe seen l'
      else x :: dedupe (x :: seen) l'
  end.

(** *** The functions of the route *)

Record PersistConversionArgs : Type := mkPersistArgs {
  p_sourceType : SourceType;
  p_tone : Tone;
  p_outputTypes : list OutputType;
  p_platforms : list SocialPlatform;
  p_metadata : BlogMetadata;
  p_outputs : list (OutputType * jsstring);
  p_content : jsstring
}.

Definition persistConversion (w : World) (args : PersistConversionArgs)
  : M unit :=
  (supabase <- getSupabaseAdminClient w ;;
   match supabase with
   | None => ret tt
   | Some supabase =>
       response <-
         lift (insert supabase (js "conversions")
                 (mkRow (p_sourceType args) (p_tone args)
                        (p_outputTypes args) (p_platforms args)
                        (canonicalUrl (p_metadata args))
                        (title (p_metadata args))
                        (author (p_metadata args))
                        (p_outputs args) (p_content args)
                        (p_metadata args))) ;;
       match response with
       | Some error =>
           console_error (js "[convert] Failed to persist conversion")
                         (StoreError error)
       | None => ret tt
       end
   end)%jsm.

Definition ZERO_WIDTH_SPACE : jsstring := [8203%N].

Definition FENCE : jsstring := js "```".

Definition FENCE_HTML : jsstring := js "```html".

(** The chain of [replace] and [trim] at the head of [sanitizeModelHtml]. *)
Definition cleaned_of (output : jsstring) : jsstring :=
  trim
    (remove_all N.eqb ZERO_WIDTH_SPACE
       (remove_all N.eqb FENCE
          (remove_all eq_ignore_case FENCE_HTML output))).

Definition PLACEHOLDER : jsstring :=
  js "<p>We weren't able to generate this output. Please try again.</p>".

(** The paragraph that the second branch of [sanitizeModelHtml] appends,
    line feed included. *)
Definition backlink_paragraph (canonicalUrl : jsstring) : jsstring :=
  nl ++ js "<p><a href=" ++ dq ++ canonicalUrl ++ dq
  ++ js ">Read the full article</a></p>".

Definition sanitizeModelHtml (output canonicalUrl : jsstring) : jsstring :=
  let cleaned := cleaned_of output in
  if negb (truthy cleaned) then PLACEHOLDER
  else if negb (includes cleaned canonicalUrl)
       then cleaned ++ backlink_paragraph canonicalUrl
       else cleaned.

Definition ensureApiKey (w : World) : result jsstring :=
  match GEMINI_API_KEY (env w) with
  | Some apiKey =>
      if truthy apiKey then Ok apiKey
      else Throw (ErrorObject
                    (js "Gemini API key is missing. Add GEMINI_API_KEY to your environment."))
  | None =>
      Throw (ErrorObject
               (js "Gemini API key is missing. Add GEMINI_API_KEY to your environment."))
  end.

(** [model] is the identifier given to [getGenerativeModel]. *)
Definition generateOutput (w : World) (model : jsstring)
  (outputType : OutputType) (prompt canonical : jsstring) : M jsstring :=
  (n <- next_call ;;
   text <- lift (generateContent w n model prompt) ;;
   ret (sanitizeModelHtml text canonical))%jsm.

(** The body of the [for] loop of [POST], and the loop. *)
Definition generate_one `{UrlApi} (w : World) (model : jsstring)
  (content : jsstring) (metadata : BlogMetadata)
  (platforms : list SocialPlatform) (tone : option Tone)
  (outputs : list (OutputType * jsstring)) (outputType : OutputType)
  : M (list (OutputType * jsstring)) :=
  (trackedCanonical <-
     lift (buildTrackedUrl (canonicalUrl metadata) outputType None) ;;
   let prompt :=
     buildPrompt
       (mkOptions outputType content
          (mkBlogMetadata (title metadata) (author metadata)
             trackedCanonical (wordCount metadata) (excerpt metadata))
          (Some platforms)
          (Some (match tone with Some t => t | None => DEFAULT_TONE end))) in
   html <- generateOutput w model outputType prompt trackedCanonical ;;
   ret (outputs_set outputs outputType html))%jsm.

Fixpoint generate_all `{UrlApi} (w : World) (model : jsstring)
  (content : jsstring) (metadata : BlogMetadata)
  (platforms : list SocialPlatform) (tone : option Tone)
  (outputTypes : list OutputType) (outputs : list (OutputType * jsstring))
  : M (list (OutputType * jsstring)) :=
  match outputTypes with
  | [] => ret outputs
  | outputType :: rest =>
      (outputs' <-
         generate_one w model content metadata platforms tone outputs
                      outputType ;;
       generate_all w model content metadata platforms tone rest outputs')%jsm
  end.

Definition first_some (A : Type) (a b : option A) : option A :=
  match a with Some _ => a | None => b end.

(** [POST] from the point where content and metadata are known. *)
Definition convert `{UrlApi} (w : World) (data : ConvertRequestPayload)
  (content : jsstring) (metadata0 : BlogMetadata) : M Response :=
  (let metadata :=
     mkBlogMetadata
       (first_some (articleTitle data) (title metadata0))
       (first_some (articleAuthor data) (author metadata0))
       (canonicalUrl metadata0) (wordCount metadata0) (excerpt metadata0) in
   apiKey <- lift (ensureApiKey w) ;;
   let model :=
     match GEMINI_MODEL (env w) with
     | Some m => m
     | None => js "gemini-2.0-flash"
     end in
   let platforms :=
     match socialPlatforms data with
     | Some (p :: l) => dedupe [] (p :: l)
     | _ => DEFAULT_PLATFORMS
     end in
   outputs <-
     generate_all w model content metadata platforms (tone data)
                  (outputTypes data) [] ;;
   let responsePayload := mkResponsePayload outputs metadata content in
   persistConversion w
     (mkPersistArgs (sourceType data)
        (match tone data with Some t => t | None => DEFAULT_TONE end)
        (outputTypes data) platforms metadata outputs content) ;;;
   ret (NextResponse_json (PayloadBody responsePayload) None))%jsm.

Definition POST `{UrlApi} (w : World) (request : Request) : M Response :=
  try_catch
    (body <- lift (request_json request) ;;
     match REQUEST_SCHEMA body with
     | inl issues =>
         ret (NextResponse_json
                (ErrorBody (js "Invalid input.") (Some issues))
                (Some 400%N))
     | inr data =>
         match sourceType data with
         | source_url =>
             article <- lift (extractArticleFromUrl (web w) (source data)) ;;
             convert w data (content article) (ext_metadata article)
         | source_text =>
             match req_canonicalUrl data with
             | Some resolvedCanonical =>
                 if negb (truthy resolvedCanonical) then
                   ret (NextResponse_json
                          (ErrorBody
                             (js "Provide the original blog URL so we can add a backlink when pasting raw text.")
                             None)
                          (Some 400%N))
                 else
                   convert w data (source data)
                     (mkBlogMetadata (articleTitle data) (articleAuthor data)
                        resolvedCanonical None None)
             | None =>
                 ret (NextResponse_json
                        (ErrorBody
                           (js "Provide the original blog URL so we can add a backlink when pasting raw text.")
                           None)
                        (Some 400%N))
             end
         end
     end)%jsm
    (fun error =>
       (console_error (js "[convert] Error") (Thrown error) ;;;
        let message :=
          match error with
          | ErrorObject m => m
          | NonError => js "Unexpected error occurred."
          end in
        ret (NextResponse_json (ErrorBody message None) (Some 500%N)))%jsm).

End Route.

(** ** src/components/home/home-page.tsx

    The form of the page keeps its fields in state variables.  The
    selections are objects with one boolean for each output type, or
    platform, whose keys stay in the order of the initial object (the
    toggles rebuild them with a spread).  [handleSubmit] checks the form and
    then posts the payload as JSON; the part embedded here ends with the
    body that is posted. *)

Module HomePage.

Import Route.

Record FormState : Type := mkForm {
  f_sourceType : SourceType;
  blogUrl : jsstring;
  blogText : jsstring;
  manualCanonical : jsstring;
  f_articleTitle : jsstring;
  f_articleAuthor : jsstring;
  f_tone : Tone;
  outputSelection : OutputType -> bool;
  platformSelection : SocialPlatform -> bool
}.

(** [collectSelected(selection)]: the keys of the object whose value is
    true, [keys] being [Object.keys(selection)]. *)
Definition collectSelected (T : Type) (keys : list T) (selection : T -> bool)
  : list T :=
  filter selection keys.

Definition OUTPUT_KEYS : list OutputType := [newsletter; social; email].

Definition PLATFORM_KEYS : list SocialPlatform :=
  [twitter; linkedin; instagram].

(** The object that [handleSubmit] posts. *)
Record Payload : Type := mkClientPayload {
  c_sourceType : SourceType;
  c_source : jsstring;
  c_outputTypes : list OutputType;
  c_socialPlatforms : list SocialPlatform;
  c_tone : Tone;
  c_canonicalUrl : option jsstring;
  c_articleTitle : option jsstring;
  c_articleAuthor : option jsstring
}.

(** [s.trim() || undefined]. *)
Definition trimmed_or_undefined (s : jsstring) : option jsstring :=
  if truthy (trim s) then Some (trim s) else None.

(** [handleSubmit] up to the request: the message given to [setError], or
    the payload. *)
Definition handleSubmit_payload `{UrlApi} (form : FormState)
  : jsstring + Payload :=
  let selectedOutputTypes :=
    collectSelected OUTPUT_KEYS (outputSelection form) in
  let selectedPlatforms :=
    collectSelected PLATFORM_KEYS (platformSelection form) in
  if (length selectedOutputTypes =? 0)%nat then
    inl (js "Select at least one output format to generate.")
  else
    let trimmedUrl := trim (blogUrl form) in
    let trimmedText := trim (blogText form) in
    let payload :=
      mkClientPayload (f_sourceType form)
        (match f_sourceType form with
         | source_url => trimmedUrl
         | source_text => trimmedText
         end)
        selectedOutputTypes selectedPlatforms (f_tone form)
        (match f_sourceType form with
         | source_text => Some (trim (manualCanonical form))
         | source_url => None
         end)
        (trimmed_or_undefined (f_articleTitle form))
        (trimmed_or_undefined (f_articleAuthor form)) in
    match f_sourceType form with
    | source_url =>
        if negb (truthy trimmedUrl) then inl (js "Paste a blog URL first.")
        else
          match new_URL trimmedUrl None with
          | Throw _ => inl (js "Enter a valid blog URL (including https://).")
          | Ok _ => inr payload
          end
    | source_text =>
        if negb (truthy trimmedText) then
          inl (js "Paste the blog text you'd like to repurpose.")
        else if negb (truthy (trim (manualCanonical form))) then
          inl (js "Provide the original blog URL so we can add backlinks.")
        else inr payload
    end.

Definition SourceType_str (t : SourceType) : jsstring :=
  match t with
  | source_url => js "url"
  | source_text => js "text"
  end.

(** A member of the object when the value is defined. *)
Definition optional_member (key : jsstring) (value : option jsstring)
  : list (jsstring * json) :=
  match value with
  | Some v => [(key, JString v)]
  | None => []
  end.

(** [JSON.stringify(payload)] as the server reads it back: the members in
    the order of the object literal, those that are [undefined] left
    out. *)
Definition payload_json (payload : Payload) : json :=
  JObject
    ([ (js "sourceType", JString (SourceType_str (c_sourceType payload)));
       (js "source", JString (c_source payload));
       (js "outputTypes",
        JArray (map (fun t => JString (OutputType_str t))
                    (c_outputTypes payload)));
       (js "socialPlatforms",
        JArray (map (fun p => JString (SocialPlatform_str p))
                    (c_socialPlatforms payload)));
       (js "tone", JString (Tone_str (c_tone payload))) ]
     ++ optional_member (js "canonicalUrl") (c_canonicalUrl payload)
     ++ optional_member (js "articleTitle") (c_articleTitle payload)
     ++ optional_member (js "articleAuthor") (c_articleAuthor payload)).

End HomePage.

(** ** The vocabulary of the properties

    The notions in which Part II states the properties, and the concrete
    requests, documents and worlds on which the model is run there. *)

Section Vocabulary.

Import Prompts Extract Route.

Context {api : UrlApi}.

(** [pat] occurs in [s]. *)
Definition Substring (pat s : jsstring) : Prop :=
  exists pre post, s = pre ++ pat ++ post.

(** The backtick, of which the fence markers are made, and the colon,
    which follows the scheme of every absolute URL. *)
Definition BACKTICK : code_unit := 96%N.
Definition COLON : code_unit := 58%N.

(** Model output wrapped in code-fence markers. *)
Definition fenced (inner : jsstring) : jsstring :=
  FENCE_HTML ++ nl ++ inner ++ nl ++ FENCE.

(** The tracked canonical URL of the newsletter for
    [https://example.com/post]. *)
Definition example_tracked : jsstring :=
  js "https://example.com/post?utm_source=blog2buzz&utm_medium=newsletter&utm_campaign=content-repurpose".

(** The names of the three tracking parameters. *)
Definition utm_source : jsstring := js "utm_source".
Definition utm_medium : jsstring := js "utm_medium".
Definition utm_campaign : jsstring := js "utm_campaign".

(** The names that [buildTrackedUrl] sets. *)
Definition touched_keys (overrideParams : option (list (jsstring * jsstring)))
  : list jsstring :=
  [utm_source; utm_medium; utm_campaign]
  ++ match overrideParams with Some entries => map fst entries | None => [] end.

(** A pair whose name is none of [keys]. *)
Definition untouched (keys : list jsstring) (kv : jsstring * jsstring) : bool :=
  negb (existsb (JsString.eqb (fst kv)) keys).

(** A URL with a port, a fragment and a repeated tracking parameter, and
    the URL object it parses to. *)
Definition example_href : jsstring :=
  js "https://example.com:8080/a/b?x=1&utm_source=old&y=2&utm_source=older#frag".

Definition example_url : URL :=
  mkURL (js "https") [] [] (js "example.com") (Some (js "8080")) (js "/a/b")
        [(js "x", js "1"); (js "utm_source", js "old"); (js "y", js "2");
         (js "utm_source", js "older")]
        (Some (js "frag")).

(** What a document offers as its canonical URL, read through the DOM
    interface alone: the [href] of the element that a selector finds, and
    the [content] attribute of the element that a selector finds. *)
Definition link_candidate (doc : Document) (selector : jsstring)
  : option jsstring :=
  match querySelector doc selector with
  | Some el => Some (href el)
  | None => None
  end.

Definition meta_candidate (doc : Document) (selector : jsstring)
  : option jsstring :=
  match querySelector doc selector with
  | Some el => getAttribute el (js "content")
  | None => None
  end.

(** A candidate is present when it is there and is not the empty string. *)
Definition present (candidate : option jsstring) : bool :=
  match candidate with
  | Some (_ :: _) => true
  | _ => false
  end.

(** The candidates of the resolver in the order of their priority, each
    with the source it stands for: the [href] of the canonical link, the
    content of the [og:url] tag, the content of the [twitter:url] tag. *)
Definition candidates (doc : Document)
  : list (CanonicalSource * option jsstring) :=
  [ (from_link, link_candidate doc (js "link[rel='canonical']"));
    (from_og, meta_candidate doc (js "meta[property='og:url']"));
    (from_twitter, meta_candidate doc (js "meta[name='twitter:url']")) ].

(** A candidate resolved against the fetch URL as its base, the fetch URL
    standing in when the resolution fails. *)
Definition resolve_or_fallback (url candidate : jsstring) : jsstring :=
  match URL_parse candidate (Some url) with
  | Some u => URL_toString u
  | None => url
  end.

(** The resolver in the words of the specification: the first candidate
    that is present, resolved; the fetch URL when there is none. *)
Definition canonical_by_priority (doc : Document) (url : jsstring)
  : CanonicalResult :=
  match find (fun c => present (snd c)) (candidates doc) with
  | Some (source, Some candidate) =>
      mkCanonical (resolve_or_fallback url candidate) source
  | _ => mkCanonical url from_input
  end.

(** An element that carries the attribute [name] with the value [value]
    and no other attribute. *)
Definition element_with (hrefValue name value : jsstring) : Element :=
  mkElement hrefValue
    (fun asked => if JsString.eqb asked name then Some value else None).

(** A document in which each of the listed selectors finds its element and
    every other selector finds nothing. *)
Definition document_of (elements : list (jsstring * Element)) : Document :=
  mkDocument
    (fun selector =>
       option_map snd
         (find (fun entry => JsString.eqb selector (fst entry)) elements))
    (js "A page") None.

(** A document with a canonical link whose [href] is empty, an [og:url] tag
    and a [twitter:url] tag. *)
Definition og_document : Document :=
  document_of
    [ (js "link[rel='canonical']", mkElement [] (fun _ => None));
      (js "meta[property='og:url']",
       element_with [] (js "content") (js "/from-og"));
      (js "meta[name='twitter:url']",
       element_with [] (js "content") (js "https://example.com/from-twitter")) ].

(** A document with no canonical link, an [og:url] tag that has no
    [content] attribute and a [twitter:url] tag. *)
Definition twitter_document : Document :=
  document_of
    [ (js "meta[property='og:url']",
       element_with [] (js "property") (js "og:url"));
      (js "meta[name='twitter:url']",
       element_with [] (js "content") (js "https://example.com/from-twitter")) ].

(** A document whose [twitter:url] tag holds what is not a URL, and a
    document that offers nothing. *)
Definition unresolvable_document : Document :=
  document_of
    [ (js "meta[name='twitter:url']",
       element_with [] (js "content") (js "http://exa mple.com/")) ].

Definition bare_document : Document := document_of [].

(** A document with a canonical link and an [og:url] tag. *)
Definition example_document : Document :=
  mkDocument
    (fun selector =>
       if JsString.eqb selector sel_link then
         Some (mkElement (js "https://example.com/canonical")
                         (fun _ => None))
       else if JsString.eqb selector sel_og then
         Some (mkElement []
                 (fun name =>
                    if JsString.eqb name (js "content")
                    then Some (js "https://example.com/og") else None))
       else None)
    (js "A page") None.

(** The request of scenario A as options of the prompt builder, the tone
    left out. *)
Definition example_options : PromptBuilderOptions :=
  mkOptions newsletter (js "Some article body.")
    (mkBlogMetadata None None example_tracked None None)
    None None.

(** A web that is never reached when the request carries its text. *)
Definition offline_web : Web :=
  mkWeb (fun _ => Throw (ErrorObject (js "fetch failed")))
        (fun _ _ => Throw NonError)
        (fun _ => Ok None).

(** A world with the API key set, a model that answers [text] to every
    call, and the store as [store_url], [store_key] and [client] give it. *)
Definition world_with (text : jsstring) (store_url store_key : option jsstring)
  (client : result SupabaseClient) : World :=
  mkWorld (mkEnv (Some (js "secret")) None store_url store_key)
          offline_web
          (fun _ _ _ => Ok text)
          (fun _ _ => client).

(** The world with no store configured. *)
Definition plain_world (text : jsstring) : World :=
  world_with text None None (Throw NonError).

(** Nothing logged, no store client kept, no call to the model made. *)
Definition initial_state : State := mkState [] None 0.

(** The request of scenario A. *)
Definition scenario_A : Request :=
  mkRequest
    (Ok (JObject
           [ (js "sourceType", JString (js "text"));
             (js "source", JString (js "Some article body."));
             (js "outputTypes", JArray [JString (js "newsletter")]);
             (js "canonicalUrl", JString (js "https://example.com/post")) ])).

(** The request of scenario C. *)
Definition scenario_C : Request :=
  mkRequest
    (Ok (JObject
           [ (js "sourceType", JString (js "text"));
             (js "source", JString (js "Some article body."));
             (js "outputTypes", JArray []);
             (js "canonicalUrl", JString (js "https://example.com/post")) ])).

(** A store client whose insert resolves with an error, and one whose
    insert rejects. *)
Definition reporting_client : SupabaseClient :=
  mkClient (fun _ _ => Ok (Some (js "permission denied for table conversions"))).

Definition rejecting_client : SupabaseClient :=
  mkClient (fun _ _ => Throw (ErrorObject (js "fetch failed"))).


(** The greater-than sign, which closes a tag. *)
Definition GT : code_unit := 62%N.

(** The anchor that the prompt asks the model to embed, written out. *)
Definition marked_anchor (url : jsstring) : jsstring :=
  js "<a href=" ++ dq ++ url ++ dq ++ js " rel=" ++ dq
  ++ js "noopener noreferrer" ++ dq ++ js " data-utm=" ++ dq ++ js "true"
  ++ dq ++ js ">Read the full article</a>".

(** The guidance block of one platform in the prompt for social posts. *)
Definition platform_block (platform : SocialPlatform) : jsstring :=
  js "For " ++ toUpperCase (SocialPlatform_str platform) ++ js ":" ++ nl
  ++ SOCIAL_PLATFORM_DESCRIPTIONS platform.

(** One when the optional text is there and not empty, else zero. *)
Definition present_count (o : option jsstring) : nat :=
  if truthy_opt o then 1 else 0.

(** The value of the last entry named [name], when there is one. *)
Fixpoint last_value (name : jsstring) (entries : list (jsstring * jsstring))
  : option jsstring :=
  match entries with
  | [] => None
  | e :: rest =>
      match last_value name rest with
      | Some v => Some v
      | None => if JsString.eqb (fst e) name then Some (snd e) else None
      end
  end.

(** A URL whose query already holds tracking parameters, twice each. *)
Definition example_url_tagged : URL :=
  mkURL (js "https") [] [] (js "example.com") None (js "/post")
        [(js "utm_medium", js "rss"); (js "utm_source", js "feed");
         (js "utm_medium", js "web"); (js "utm_source", js "old")]
        None.

(** The number of backticks at the head of a string. *)
Fixpoint ticks (s : jsstring) : nat :=
  match s with
  | [] => 0
  | c :: s' => if (c =? BACKTICK)%N then S (ticks s') else 0
  end.

(** The text that [extractArticleFromUrl] takes as content: the text of the
    article, trimmed, when the readability parser gives one; else the text
    of the body with its white space collapsed, trimmed; else nothing. *)
Definition readable_text (article : option Article) (doc : Document)
  : jsstring :=
  match article with
  | Some (mkArticle _ _ _ _ (Some t)) => trim t
  | _ =>
      match body_textContent doc with
      | Some b => trim (collapse_spaces b)
      | None => []
      end
  end.

(** A page whose article text is white space while its body has text. *)
Definition blank_article_web : Web :=
  mkWeb (fun _ => Ok (mkFetchResponse true 200 (js "OK") (Ok (js "<html>"))))
        (fun _ _ => Ok (mkDocument (fun _ => None) (js "A page")
                          (Some (js "Menu Home About"))))
        (fun _ => Ok (Some (mkArticle (Some (js "A page")) None 3 None
                              (Some (js "   "))))).

(** A page with an article of 1204 characters and a canonical link. *)
Definition article_web : Web :=
  mkWeb (fun _ => Ok (mkFetchResponse true 200 (js "OK") (Ok (js "<html>"))))
        (fun _ _ => Ok example_document)
        (fun _ => Ok (Some (mkArticle (Some (js "A post")) (Some (js "Ann"))
                              1204 None (Some (js " Body of the post. "))))).

(** A store client whose insert succeeds. *)
Definition quiet_client : SupabaseClient :=
  mkClient (fun _ _ => Ok None).

(** Arguments of [persistConversion] for scenario A. *)
Definition example_persist_args : PersistConversionArgs :=
  mkPersistArgs source_text conversational [newsletter]
    [twitter; linkedin; instagram]
    (mkBlogMetadata None None (js "https://example.com/post") None None)
    [(newsletter, js "<p>ok</p>")] (js "Some article body.").

(** The body of scenario A and what the schema makes of it. *)
Definition scenario_A_body : json :=
  JObject
    [ (js "sourceType", JString (js "text"));
      (js "source", JString (js "Some article body."));
      (js "outputTypes", JArray [JString (js "newsletter")]);
      (js "canonicalUrl", JString (js "https://example.com/post")) ].

Definition scenario_A_data : ConvertRequestPayload :=
  mkPayload source_text (js "Some article body.") [newsletter] None None
            (Some (js "https://example.com/post")) None None.

(** The bodies of [NextResponse.json] sort with the statuses: a payload
    goes with 200, an error with details with 400, a bare error with 400
    or 500. *)
Definition well_formed_response (r : Response) : Prop :=
  match body r with
  | PayloadBody _ => status r = 200%N
  | ErrorBody _ (Some _) => status r = 400%N
  | ErrorBody _ None => status r = 400%N \/ status r = 500%N
  end.

(** The state after [n] more calls to the model. *)
Definition after_calls (n : nat) (st : State) : State :=
  mkState (console st) (supabaseAdminClient st) (generateCalls st + n).

(** The state after the handler has logged the exception [e]. *)
Definition after_error (e : exn) (st : State) : State :=
  mkState (console st ++ [mkLog (js "[convert] Error") (Thrown e)])
          (supabaseAdminClient st) (generateCalls st).

(** The message that the handler sends for an exception. *)
Definition message_of (e : exn) : jsstring :=
  match e with
  | ErrorObject m => m
  | NonError => js "Unexpected error occurred."
  end.

(** A model that answers the first call and fails at the second. *)
Definition failing_second_world : World :=
  mkWorld (mkEnv (Some (js "secret")) None None None)
          offline_web
          (fun n _ _ =>
             match n with
             | 0 => Ok (js "<p>ok</p>")
             | _ => Throw (ErrorObject (js "quota exceeded"))
             end)
          (fun _ _ => Throw NonError).

(** Scenario A with the newsletter and the email asked for. *)
Definition two_outputs_body : json :=
  JObject
    [ (js "sourceType", JString (js "text"));
      (js "source", JString (js "Some article body."));
      (js "outputTypes",
       JArray [JString (js "newsletter"); JString (js "email")]);
      (js "canonicalUrl", JString (js "https://example.com/post"));
      (js "articleTitle", JString (js "A post")) ].

Definition two_outputs_data : ConvertRequestPayload :=
  mkPayload source_text (js "Some article body.") [newsletter; email] None
            None (Some (js "https://example.com/post")) (Some (js "A post"))
            None.

(** The metadata that [POST] builds for a request that carries its text. *)
Definition text_metadata (data : ConvertRequestPayload) (c : jsstring)
  : BlogMetadata :=
  mkBlogMetadata (articleTitle data) (articleAuthor data) c None None.

(** What [POST] makes of the outcome of the conversion: the response as it
    is, or the exception logged and turned into status 500. *)
Definition answer_of (outcome : result Response * State)
  : result Response * State :=
  match outcome with
  | (Ok r, st) => (Ok r, st)
  | (Throw e, st) =>
      (Ok (mkResponse 500%N (ErrorBody (message_of e) None)),
       after_error e st)
  end.

(** The body of scenario B: text without a canonical URL. *)
Definition scenario_B_body : json :=
  JObject
    [ (js "sourceType", JString (js "text"));
      (js "source", JString (js "Some article body."));
      (js "outputTypes", JArray [JString (js "newsletter")]) ].

Definition scenario_B_data : ConvertRequestPayload :=
  mkPayload source_text (js "Some article body.") [newsletter] None None
            None None None.

(** The body of scenario D, and a world in which the page is not found. *)
Definition scenario_D_body : json :=
  JObject
    [ (js "sourceType", JString (js "url"));
      (js "source", JString (js "https://example.com/missing"));
      (js "outputTypes", JArray [JString (js "newsletter")]) ].

Definition scenario_D_data : ConvertRequestPayload :=
  mkPayload source_url (js "https://example.com/missing") [newsletter] None
            None None None None.

Definition not_found_response : FetchResponse :=
  mkFetchResponse false 404 (js "Not Found") (Ok []).

Definition not_found_world : World :=
  mkWorld (mkEnv None None None None)
          (mkWeb (fun _ => Ok not_found_response)
                 (fun _ _ => Throw NonError)
                 (fun _ => Ok None))
          (fun _ _ _ => Ok (js "<p>ok</p>"))
          (fun _ _ => Throw NonError).

(** A world without the API key. *)
Definition keyless_world : World :=
  mkWorld (mkEnv (Some []) None None None) offline_web
          (fun _ _ _ => Ok (js "<p>ok</p>"))
          (fun _ _ => Throw NonError).

(** What the server is to make of a payload of the form. *)
Definition data_of (payload : HomePage.Payload) : ConvertRequestPayload :=
  mkPayload (HomePage.c_sourceType payload) (HomePage.c_source payload)
            (HomePage.c_outputTypes payload)
            (Some (HomePage.c_socialPlatforms payload))
            (Some (HomePage.c_tone payload))
            (HomePage.c_canonicalUrl payload)
            (HomePage.c_articleTitle payload)
            (HomePage.c_articleAuthor payload).

(** A form filled for a URL, and one filled for pasted text whose
    canonical URL is not a URL. *)
Definition url_form : HomePage.FormState :=
  HomePage.mkForm source_url (js " https://example.com/post ") [] []
    (js "A post ") [] professional
    (fun t => match t with email => false | _ => true end)
    (fun _ => true).

Definition text_form : HomePage.FormState :=
  HomePage.mkForm source_text [] (js "Some article body.")
    (js "example.com/post") [] [] conversational
    (fun t => match t with newsletter => true | _ => false end)
    (fun _ => false).






(** The two lines with which the shared context ends, each after a line
    feed: the backlink instruction and the instruction not to invent. *)
Definition shared_context_tail (anchor : jsstring) : jsstring :=
  nl ++ js "Always embed this backlink exactly once in the most natural spot: "
     ++ anchor ++ js "."
  ++ nl ++ js "Do not invent facts. If a detail is missing in the source text, skip it.".

(** Model output wrapped in code-fence markers: an opening line, the text,
    and the closing line of three backticks. *)
Definition wrapped (opening inner : jsstring) : jsstring :=
  opening ++ nl ++ inner ++ nl ++ js "```".

(** The opening lines that the sanitiser knows: three backticks alone, or
    three backticks and [html] in any letter case. *)
Definition is_opening (opening : jsstring) : bool :=
  JsString.eqb opening (js "```")
  || JsString.eqb (toLowerCase opening) (js "```html").





End Vocabulary.

(* ===================================================================== *)
(** * Part II: properties                                                 *)
(* ===================================================================== *)

Unset Implicit Arguments.

(** ** Strings *)

Section StringFacts.

Lemma eqb_eq (a b : jsstring) : JsString.eqb a b = true <-> a = b.
Proof.
  unfold JsString.eqb. destruct (list_eq_dec N.eq_dec a b); split;
    intros; congruence.
Qed.

Lemma eqb_refl (a : jsstring) : JsString.eqb a a = true.
Proof. apply eqb_eq. reflexivity. Qed.

Lemma eqb_neq (a b : jsstring) : JsString.eqb a b = false <-> a <> b.
Proof.
  unfold JsString.eqb. destruct (list_eq_dec N.eq_dec a b); split;
    intros; congruence.
Qed.

Lemma truthy_false (s : jsstring) : truthy s = false <-> s = [].
Proof. destruct s; simpl; split; intros; congruence. Qed.

Lemma truthy_true (s : jsstring) : truthy s = true <-> s <> [].
Proof. destruct s; simpl; split; intros; congruence. Qed.

(** A match with [N.eqb] at the head of [s] is a prefix of [s]. *)
Lemma match_prefix_eq (pat s rest : jsstring) :
  match_prefix N.eqb pat s = Some rest <-> s = pat ++ rest.
Proof.
  revert s. induction pat as [|p pat IH]; intros s; simpl.
  - split; intros H; congruence.
  - destruct s as [|c s]; [split; discriminate|].
    destruct (N.eqb_spec p c) as [->|Hne].
    + rewrite IH. split; intros H; congruence.
    + split; [discriminate | intros H; congruence].
Qed.

Lemma startsWith_app (pat rest : jsstring) : startsWith (pat ++ rest) pat = true.
Proof.
  unfold startsWith.
  destruct (match_prefix N.eqb pat (pat ++ rest)) eqn:E; [reflexivity|].
  assert (H : match_prefix N.eqb pat (pat ++ rest) = Some rest)
    by (apply match_prefix_eq; reflexivity).
  congruence.
Qed.

Lemma includes_spec (s pat : jsstring) :
  includes s pat = true <-> Substring pat s.
Proof.
  unfold Substring. induction s as [|c s IH].
  - simpl. rewrite orb_false_r. unfold startsWith.
    destruct (match_prefix N.eqb pat []) as [rest|] eqn:E.
    + apply match_prefix_eq in E. split; [|reflexivity].
      intros _. exists [], rest. exact E.
    + split; [discriminate|]. intros (pre & post & H).
      destruct pre; [|discriminate]. simpl in H.
      assert (E' : match_prefix N.eqb pat [] = Some post)
        by (apply match_prefix_eq; exact H).
      congruence.
  - cbn [includes]. rewrite orb_true_iff, IH. unfold startsWith. split.
    + intros [H | (pre & post & H)].
      * destruct (match_prefix N.eqb pat (c :: s)) as [rest|] eqn:E;
          [|discriminate].
        apply match_prefix_eq in E. exists [], rest. exact E.
      * exists (c :: pre), post. simpl. congruence.
    + intros (pre & post & H). destruct pre as [|c' pre].
      * left. simpl in H. rewrite H.
        fold (startsWith (pat ++ post) pat). apply startsWith_app.
      * right. simpl in H. injection H as _ H. exists pre, post. exact H.
Qed.

Lemma includes_false (s pat : jsstring) :
  includes s pat = false <-> ~ Substring pat s.
Proof.
  rewrite <- includes_spec. destruct (includes s pat); split;
    intros; congruence.
Qed.

Lemma includes_app_r (a pat b : jsstring) :
  includes (a ++ pat ++ b) pat = true.
Proof. apply includes_spec. exists a, b. reflexivity. Qed.

(** Trimming *)

Lemma trimStart_all (s : jsstring) :
  trimStart s = [] <-> forallb isWhiteSpace s = true.
Proof.
  induction s as [|c s IH]; simpl; [tauto|].
  destruct (isWhiteSpace c); simpl; [exact IH|].
  split; discriminate.
Qed.

Lemma trimStart_app_space (s : jsstring) (c : code_unit) :
  isWhiteSpace c = true ->
  trimStart (s ++ [c]) =
  if forallb isWhiteSpace s then [] else trimStart s ++ [c].
Proof.
  intros Hc. induction s as [|d s IH]; simpl.
  - rewrite Hc. reflexivity.
  - destruct (isWhiteSpace d); simpl; [exact IH | reflexivity].
Qed.

Lemma trimEnd_app_space (s : jsstring) (c : code_unit) :
  isWhiteSpace c = true -> trimEnd (s ++ [c]) = trimEnd s.
Proof.
  intros Hc. unfold trimEnd. rewrite rev_app_distr. simpl.
  rewrite Hc. reflexivity.
Qed.

Lemma trimEnd_nil : trimEnd [] = [].
Proof. reflexivity. Qed.

Lemma trim_all (s : jsstring) :
  trim s = [] <-> forallb isWhiteSpace s = true.
Proof.
  unfold trim, trimEnd. split.
  - intros H. apply trimStart_all.
    assert (H1 : trimStart (rev (trimStart s)) = [])
      by (apply (f_equal (@rev N)) in H; rewrite rev_involutive in H;
          exact H).
    apply trimStart_all in H1. rewrite forallb_forall in H1.
    destruct (trimStart s) as [|c t] eqn:E; [reflexivity|].
    exfalso.
    assert (Hc : isWhiteSpace c = true)
      by (apply H1, in_rev; rewrite rev_involutive; left; reflexivity).
    clear H H1. induction s as [|d s IH]; simpl in E; [discriminate|].
    destruct (isWhiteSpace d) eqn:Ed; [exact (IH E)|].
    congruence.
  - intros H. apply trimStart_all in H. rewrite H. reflexivity.
Qed.

(** Surrounding white space does not change the result of [trim]. *)
Lemma trim_wrapped (a b : code_unit) (s : jsstring) :
  isWhiteSpace a = true -> isWhiteSpace b = true ->
  trim ((a :: s) ++ [b]) = trim s.
Proof.
  intros Ha Hb. unfold trim. simpl. rewrite Ha.
  rewrite (trimStart_app_space s b Hb).
  destruct (forallb isWhiteSpace s) eqn:E.
  - apply trimStart_all in E. rewrite E. reflexivity.
  - apply trimEnd_app_space. exact Hb.
Qed.

End StringFacts.

(** ** Global replacement *)

Section RemoveAll.

Variable eqc : code_unit -> code_unit -> bool.

Lemma match_prefix_shorter (pat s rest : jsstring) :
  pat <> [] -> match_prefix eqc pat s = Some rest -> length rest < length s.
Proof.
  intros Hpat. destruct pat as [|p pat]; [congruence|]. clear Hpat.
  revert p s. induction pat as [|q pat IH]; intros p s H; simpl in H.
  - destruct s as [|c s]; [discriminate|].
    destruct (eqc p c); [|discriminate]. injection H as <-. simpl. lia.
  - destruct s as [|c s]; [discriminate|].
    destruct (eqc p c); [|discriminate].
    apply IH in H. simpl. lia.
Qed.

(** The fuel that [remove_all] gives is enough: more changes nothing. *)
Lemma remove_all_fuel_enough (pat : jsstring) (n : nat) :
  pat <> [] ->
  forall s, length s <= n ->
  remove_all_fuel n eqc pat s = remove_all eqc pat s.
Proof.
  intros Hpat. unfold remove_all.
  induction n as [n IH] using lt_wf_ind. intros s Hs.
  destruct s as [|c s]; [destruct n; reflexivity|].
  destruct n as [|n]; [simpl in Hs; lia|].
  cbn [remove_all_fuel length].
  destruct (match_prefix eqc pat (c :: s)) as [rest|] eqn:E.
  - pose proof (match_prefix_shorter _ _ _ Hpat E) as Hlt. simpl in Hlt.
    simpl in Hs. unfold jsstring, code_unit in *.
    rewrite (IH n) by lia.
    rewrite (IH (length s)) by lia. reflexivity.
  - f_equal. simpl in Hs. apply IH; lia.
Qed.

Lemma remove_all_nil (pat : jsstring) : remove_all eqc pat [] = [].
Proof. reflexivity. Qed.

Lemma remove_all_match (pat s rest : jsstring) :
  pat <> [] -> match_prefix eqc pat s = Some rest ->
  remove_all eqc pat s = remove_all eqc pat rest.
Proof.
  intros Hpat E. pose proof (match_prefix_shorter _ _ _ Hpat E) as Hlt.
  destruct s as [|c s]; [simpl in Hlt; lia|].
  unfold remove_all at 1. cbn [length remove_all_fuel]. rewrite E.
  apply remove_all_fuel_enough; [exact Hpat | simpl in Hlt; lia].
Qed.

Lemma remove_all_skip (pat s : jsstring) (c : code_unit) :
  match_prefix eqc pat (c :: s) = None ->
  remove_all eqc pat (c :: s) = c :: remove_all eqc pat s.
Proof.
  intros E. unfold remove_all. cbn [length remove_all_fuel]. rewrite E.
  reflexivity.
Qed.

(** A stretch in which the first code unit of the pattern does not occur
    is copied. *)
Lemma remove_all_copy (p : code_unit) (pat a b : jsstring) :
  forallb (fun c => negb (eqc p c)) a = true ->
  remove_all eqc (p :: pat) (a ++ b) = a ++ remove_all eqc (p :: pat) b.
Proof.
  induction a as [|c a IH]; intros H; [reflexivity|].
  simpl in H. apply andb_true_iff in H as [Hc Ha].
  simpl. rewrite remove_all_skip.
  - f_equal. apply IH. exact Ha.
  - simpl. apply negb_true_iff in Hc. rewrite Hc. reflexivity.
Qed.

End RemoveAll.

(** Removing a pattern of one code unit filters it out. *)
Lemma remove_all_single (z : code_unit) (s : jsstring) :
  remove_all N.eqb [z] s = filter (fun c => negb (z =? c)%N) s.
Proof.
  induction s as [|c s IH]; [reflexivity|].
  simpl. destruct (N.eqb z c) eqn:E; simpl.
  - rewrite (remove_all_match N.eqb [z] (c :: s) s); [exact IH | discriminate |].
    simpl. rewrite E. reflexivity.
  - rewrite remove_all_skip; [f_equal; exact IH|].
    simpl. rewrite E. reflexivity.
Qed.

Lemma In_trimStart (c : code_unit) (s : jsstring) :
  In c (trimStart s) -> In c s.
Proof.
  induction s as [|d s IH]; simpl; [tauto|].
  destruct (isWhiteSpace d); simpl; tauto.
Qed.

Lemma In_trim (c : code_unit) (s : jsstring) : In c (trim s) -> In c s.
Proof.
  unfold trim, trimEnd. intros H.
  apply In_trimStart. apply in_rev. apply In_trimStart. apply in_rev.
  exact H.
Qed.

Lemma Substring_In (c : code_unit) (pat s : jsstring) :
  In c pat -> Substring pat s -> In c s.
Proof.
  intros Hc (pre & post & ->). apply in_or_app. right.
  apply in_or_app. left. exact Hc.
Qed.

(** ** Sanitisation of the model output *)

Section Sanitize.

Import Route.

Lemma sanitize_contains_url (output canonicalUrl : jsstring) :
  cleaned_of output <> [] ->
  Substring canonicalUrl (sanitizeModelHtml output canonicalUrl).
Proof.
  intros Hne. unfold sanitizeModelHtml.
  apply truthy_true in Hne. rewrite Hne. simpl.
  destruct (includes (cleaned_of output) canonicalUrl) eqn:E; simpl.
  - apply includes_spec. exact E.
  - unfold backlink_paragraph.
    exists (cleaned_of output ++ nl ++ js "<p><a href=" ++ dq),
           (dq ++ js ">Read the full article</a></p>").
    repeat rewrite <- app_assoc. reflexivity.
Qed.

(** C4.  For every model output and tracked canonical URL, when the cleaned
    output is not empty: if it does not contain the URL, the result is the
    cleaned output followed by a line feed and the paragraph
    [<p><a href="URL">Read the full article</a></p>] holding exactly that
    URL; if it contains the URL already, the result is the cleaned output
    and nothing is appended. *)
Theorem sanitizeModelHtml_backlink_guarantee (output canonicalUrl : jsstring) :
  cleaned_of output <> [] ->
  (~ Substring canonicalUrl (cleaned_of output) ->
   sanitizeModelHtml output canonicalUrl =
   cleaned_of output ++ nl ++ js "<p><a href=" ++ dq ++ canonicalUrl ++ dq
   ++ js ">Read the full article</a></p>")
  /\ (Substring canonicalUrl (cleaned_of output) ->
      sanitizeModelHtml output canonicalUrl = cleaned_of output)
  /\ Substring canonicalUrl (sanitizeModelHtml output canonicalUrl).
Proof.
  intros Hne. split; [|split].
  - intros Hno. apply includes_false in Hno.
    unfold sanitizeModelHtml. apply truthy_true in Hne.
    rewrite Hne, Hno. reflexivity.
  - intros Hyes. apply includes_spec in Hyes.
    unfold sanitizeModelHtml. apply truthy_true in Hne.
    rewrite Hne, Hyes. reflexivity.
  - apply sanitize_contains_url. exact Hne.
Qed.

Lemma sanitizeModelHtml_backlink_guarantee_witness :
  cleaned_of (js "<p>hi</p>") <> []
  /\ sanitizeModelHtml (js "<p>hi</p>") example_tracked =
     js "<p>hi</p>" ++ nl ++ js "<p><a href=" ++ dq ++ example_tracked ++ dq
     ++ js ">Read the full article</a></p>".
Proof.
  assert (Hne : cleaned_of (js "<p>hi</p>") <> [])
    by (vm_compute; discriminate).
  split; [exact Hne|].
  destruct (sanitizeModelHtml_backlink_guarantee
              (js "<p>hi</p>") example_tracked Hne) as [Happend _].
  rewrite Happend.
  - vm_compute. reflexivity.
  - apply includes_false. vm_compute. reflexivity.
Defined.

(** Ignoring case, a backtick is still matched by a backtick only. *)
Lemma eq_ignore_case_backtick (c : code_unit) :
  eq_ignore_case BACKTICK c = N.eqb BACKTICK c.
Proof.
  unfold eq_ignore_case. change (asciiUpper BACKTICK) with BACKTICK.
  unfold asciiUpper, BACKTICK.
  destruct ((97 <=? c) && (c <=? 122))%N eqn:E; [|reflexivity].
  apply andb_true_iff in E as [E1 E2].
  apply N.leb_le in E1. apply N.leb_le in E2.
  destruct (N.eqb_spec 96 (c - 32)), (N.eqb_spec 96 c); try reflexivity; lia.
Qed.

Lemma closed_In_false (c : code_unit) (s : jsstring) :
  forallb (fun d => negb (N.eqb c d)) s = true -> ~ In c s.
Proof.
  intros H Hin. rewrite forallb_forall in H. specialize (H c Hin).
  rewrite N.eqb_refl in H. discriminate H.
Qed.

(** Without a backtick in the cleaned text and in the URL there is none in
    the result. *)
Lemma sanitizeModelHtml_no_backtick (output canonicalUrl : jsstring) :
  ~ In BACKTICK (cleaned_of output) -> ~ In BACKTICK canonicalUrl ->
  ~ In BACKTICK (sanitizeModelHtml output canonicalUrl).
Proof.
  intros Hc Hu. unfold sanitizeModelHtml.
  destruct (truthy (cleaned_of output)); cbn [negb].
  - destruct (includes (cleaned_of output) canonicalUrl); cbn [negb];
      [exact Hc|].
    unfold backlink_paragraph. intros Hin.
    repeat (apply in_app_or in Hin as [Hin | Hin]); try tauto;
      revert Hin; apply closed_In_false; reflexivity.
  - apply closed_In_false. reflexivity.
Qed.

(** C7, as stated, fails: on the fenced example and the tracked URL of the
    newsletter the result is not [<p>hi</p>]; and a zero-width space
    between backticks of the wrapped text leaves a fence marker in the
    result. *)
Lemma sanitizeModelHtml_fenced_example_counterexample :
  fenced (js "<p>hi</p>")
  = js "```html" ++ nl ++ js "<p>hi</p>" ++ nl ++ js "```"
  /\ sanitizeModelHtml (fenced (js "<p>hi</p>")) example_tracked
     <> js "<p>hi</p>"
  /\ includes
       (sanitizeModelHtml (fenced (js "``" ++ [8203%N] ++ js "`<p>hi</p>"))
          example_tracked)
       (js "```") = true.
Proof.
  split; [reflexivity|]. split; [vm_compute; discriminate|].
  vm_compute. reflexivity.
Qed.

End Sanitize.

Section SanitizeEmpty.

Import Route.

Lemma placeholder_has_no_colon : ~ In COLON PLACEHOLDER.
Proof.
  intros H. vm_compute in H.
  repeat destruct H as [H|H]; try discriminate H. exact H.
Qed.

(** C9.  The cleaned output is empty exactly when the model output, with
    its fence markers and zero-width spaces removed, is white space only.
    Then [sanitizeModelHtml] returns the fixed placeholder sentence; the
    placeholder does not contain the tracked canonical URL (an absolute URL
    holds a colon, the placeholder none), and this is the one case in which
    the result carries no backlink. *)
Theorem sanitizeModelHtml_empty_output (output canonicalUrl : jsstring) :
  In COLON canonicalUrl ->
  (cleaned_of output = [] <->
   forallb isWhiteSpace
     (remove_all N.eqb ZERO_WIDTH_SPACE
        (remove_all N.eqb FENCE
           (remove_all eq_ignore_case FENCE_HTML output))) = true)
  /\ (cleaned_of output = [] ->
      sanitizeModelHtml output canonicalUrl =
      js "<p>We weren't able to generate this output. Please try again.</p>")
  /\ ~ Substring canonicalUrl
         (js "<p>We weren't able to generate this output. Please try again.</p>")
  /\ (~ Substring canonicalUrl (sanitizeModelHtml output canonicalUrl)
      <-> cleaned_of output = []).
Proof.
  intros Hcolon.
  assert (Hplace : ~ Substring canonicalUrl PLACEHOLDER).
  { intros Hsub. apply placeholder_has_no_colon.
    exact (Substring_In COLON canonicalUrl PLACEHOLDER Hcolon Hsub). }
  assert (Hempty : cleaned_of output = [] ->
                   sanitizeModelHtml output canonicalUrl = PLACEHOLDER).
  { intros H. unfold sanitizeModelHtml. rewrite H. reflexivity. }
  split; [apply trim_all | split; [exact Hempty | split; [exact Hplace|]]].
  split.
  - intros Hno. destruct (cleaned_of output) as [|c t] eqn:E; [reflexivity|].
    exfalso. apply Hno. apply sanitize_contains_url. rewrite E. discriminate.
  - intros H. rewrite (Hempty H). exact Hplace.
Qed.

Lemma sanitizeModelHtml_empty_output_witness :
  In COLON example_tracked
  /\ sanitizeModelHtml (js "```html" ++ nl ++ [8203%N] ++ js " ```")
                       example_tracked
     = js "<p>We weren't able to generate this output. Please try again.</p>".
Proof.
  assert (Hcolon : In COLON example_tracked)
    by (vm_compute; do 5 right; left; reflexivity).
  split; [exact Hcolon|].
  destruct (sanitizeModelHtml_empty_output
              (js "```html" ++ nl ++ [8203%N] ++ js " ```")
              example_tracked Hcolon) as (_ & Hempty & _).
  apply Hempty. vm_compute. reflexivity.
Defined.

End SanitizeEmpty.

(** ** The search parameters *)

Section SearchParams.

Lemma has_name_true (name : jsstring) (kv : jsstring * jsstring) :
  has_name name kv = true <-> fst kv = name.
Proof. unfold has_name. apply eqb_eq. Qed.

Lemma has_name_false (name : jsstring) (kv : jsstring * jsstring) :
  has_name name kv = false <-> fst kv <> name.
Proof. unfold has_name. apply eqb_neq. Qed.

(** After [set], the name is there once, with the new value. *)
Lemma getAll_params_set_same (name value : jsstring)
  (l : list (jsstring * jsstring)) :
  getAll name (params_set name value l) = [value].
Proof.
  unfold getAll. induction l as [|kv l IH]; simpl.
  - unfold has_name at 1. simpl. rewrite eqb_refl. reflexivity.
  - destruct (has_name name kv) eqn:E; simpl.
    + unfold has_name at 1. simpl. rewrite eqb_refl. simpl. f_equal.
      unfold remove_name. clear. induction l as [|kv l IH]; simpl;
        [reflexivity|].
      destruct (has_name name kv) eqn:E; simpl; [exact IH|].
      rewrite E. exact IH.
    + rewrite E. exact IH.
Qed.

(** A filter that rejects the pairs named [name] does not see [set]. *)
Lemma filter_remove_name (f : jsstring * jsstring -> bool) (name : jsstring)
  (l : list (jsstring * jsstring)) :
  (forall kv, fst kv = name -> f kv = false) ->
  filter f (remove_name name l) = filter f l.
Proof.
  intros Hf. unfold remove_name. induction l as [|kv l IH]; simpl;
    [reflexivity|].
  destruct (has_name name kv) eqn:E; simpl.
  - apply has_name_true in E. rewrite (Hf kv E). exact IH.
  - rewrite IH. reflexivity.
Qed.

Lemma filter_params_set (f : jsstring * jsstring -> bool)
  (name value : jsstring) (l : list (jsstring * jsstring)) :
  (forall kv, fst kv = name -> f kv = false) ->
  filter f (params_set name value l) = filter f l.
Proof.
  intros Hf. induction l as [|kv l IH]; simpl.
  - rewrite (Hf (name, value) eq_refl). reflexivity.
  - destruct (has_name name kv) eqn:E; simpl.
    + apply has_name_true in E.
      rewrite (Hf (name, value) eq_refl), (Hf kv E).
      apply filter_remove_name. exact Hf.
    + rewrite IH. reflexivity.
Qed.

Lemma getAll_params_set_other (name other value : jsstring)
  (l : list (jsstring * jsstring)) :
  other <> name ->
  getAll other (params_set name value l) = getAll other l.
Proof.
  intros Hne. unfold getAll. f_equal. apply filter_params_set.
  intros kv Hkv. apply has_name_false. congruence.
Qed.

(** Setting a name that is there once, to the value it has, changes
    nothing. *)
Lemma params_set_same (name value : jsstring)
  (l : list (jsstring * jsstring)) :
  getAll name l = [value] -> params_set name value l = l.
Proof.
  unfold getAll. induction l as [|kv l IH]; simpl; [discriminate|].
  destruct (has_name name kv) eqn:E; simpl; intros H.
  - injection H as Hv Hrest. destruct kv as [k v]. simpl in Hv. subst v.
    apply has_name_true in E. simpl in E. subst k. f_equal.
    unfold remove_name. clear IH. induction l as [|kv l IH]; simpl;
      [reflexivity|].
    simpl in Hrest. destruct (has_name name kv) eqn:E; simpl in *;
      [discriminate|].
    f_equal. exact (IH Hrest).
  - f_equal. exact (IH H).
Qed.

End SearchParams.

(** ** The link tracker *)

Section Tracker.

Context {api : UrlApi}.

Lemma untouched_rejects (keys : list jsstring) (name : jsstring) :
  In name keys -> forall kv, fst kv = name -> untouched keys kv = false.
Proof.
  intros Hin kv <-. unfold untouched. apply negb_false_iff.
  apply existsb_exists. exists (fst kv). split; [exact Hin | apply eqb_refl].
Qed.

Lemma searchParams_set_frame (keys : list jsstring) (u : URL)
  (name value : jsstring) :
  In name keys ->
  filter (untouched keys) (searchParams (searchParams_set u name value))
  = filter (untouched keys) (searchParams u).
Proof.
  intros Hin. simpl. apply filter_params_set.
  apply untouched_rejects. exact Hin.
Qed.

Lemma apply_overrides_frame (keys : list jsstring)
  (entries : list (jsstring * jsstring)) :
  (forall kv, In kv entries -> In (fst kv) keys) ->
  forall u,
  let u' := apply_overrides u entries in
  scheme u' = scheme u /\ username u' = username u
  /\ password u' = password u /\ host u' = host u /\ port u' = port u
  /\ path u' = path u /\ fragment u' = fragment u
  /\ filter (untouched keys) (searchParams u')
     = filter (untouched keys) (searchParams u).
Proof.
  unfold apply_overrides.
  induction entries as [|kv entries IH]; intros Hk u; simpl.
  - repeat split; reflexivity.
  - destruct (IH (fun kv' H' => Hk kv' (or_intror H'))
                 (searchParams_set u (fst kv) (snd kv)))
      as (H1 & H2 & H3 & H4 & H5 & H6 & H7 & H8).
    rewrite H1, H2, H3, H4, H5, H6, H7, H8. repeat split.
    apply searchParams_set_frame. apply Hk. left. reflexivity.
Qed.

Lemma tracked_frame (u : URL) (medium : OutputType)
  (overrideParams : option (list (jsstring * jsstring))) :
  let u' := tracked u medium overrideParams in
  scheme u' = scheme u /\ username u' = username u
  /\ password u' = password u /\ host u' = host u /\ port u' = port u
  /\ path u' = path u /\ fragment u' = fragment u
  /\ filter (untouched (touched_keys overrideParams)) (searchParams u')
     = filter (untouched (touched_keys overrideParams)) (searchParams u).
Proof.
  set (keys := touched_keys overrideParams).
  assert (Hs : In utm_source keys) by (left; reflexivity).
  assert (Hm : In utm_medium keys) by (right; left; reflexivity).
  assert (Hc : In utm_campaign keys) by (right; right; left; reflexivity).
  assert (Hbase :
    filter (untouched keys)
      (searchParams
         (searchParams_set
            (searchParams_set (searchParams_set u utm_source UTM_SOURCE)
               utm_medium (OutputType_str medium))
            utm_campaign UTM_CAMPAIGN))
    = filter (untouched keys) (searchParams u)).
  { rewrite (searchParams_set_frame keys _ _ _ Hc).
    rewrite (searchParams_set_frame keys _ _ _ Hm).
    apply (searchParams_set_frame keys _ _ _ Hs). }
  unfold tracked. destruct overrideParams as [entries|].
  - match goal with |- context [apply_overrides ?b entries] =>
      destruct (apply_overrides_frame keys entries
                  (fun kv H => in_or_app _ _ _
                     (or_intror (in_map fst entries kv H))) b)
        as (H1 & H2 & H3 & H4 & H5 & H6 & H7 & H8)
    end.
    cbv zeta. rewrite H1, H2, H3, H4, H5, H6, H7, H8.
    repeat split. exact Hbase.
  - cbv zeta. repeat split. exact Hbase.
Qed.

(** C10.  For every href that parses as an absolute URL, [buildTrackedUrl]
    returns the serialisation of a URL whose scheme, credentials, host,
    port, path and fragment are those of the input; the query parameters whose name is not
    [utm_source], [utm_medium], [utm_campaign] or an override key are the
    same pairs in the same order, so each such name keeps its values. *)
Theorem buildTrackedUrl_frame (href : jsstring) (medium : OutputType)
  (overrideParams : option (list (jsstring * jsstring))) (u : URL) :
  URL_parse href None = Some u ->
  exists u',
    buildTrackedUrl href medium overrideParams = Ok (URL_toString u')
    /\ scheme u' = scheme u /\ username u' = username u
    /\ password u' = password u /\ host u' = host u /\ port u' = port u
    /\ path u' = path u /\ fragment u' = fragment u
    /\ filter (untouched (touched_keys overrideParams)) (searchParams u')
       = filter (untouched (touched_keys overrideParams)) (searchParams u)
    /\ (forall name, ~ In name (touched_keys overrideParams) ->
        getAll name (searchParams u') = getAll name (searchParams u)).
Proof.
  intros Hparse. exists (tracked u medium overrideParams).
  unfold buildTrackedUrl, new_URL. rewrite Hparse.
  destruct (tracked_frame u medium overrideParams)
    as (H1 & H2 & H3 & H4 & H5 & H7 & H8 & H6).
  repeat (split; [first [reflexivity | assumption]|]).
  intros name Hname. unfold getAll. f_equal.
  set (keys := touched_keys overrideParams) in *.
  assert (Hsplit : forall l : list (jsstring * jsstring),
             filter (has_name name) l
             = filter (has_name name) (filter (untouched keys) l)).
  { intros l. induction l as [|kv l IH]; simpl; [reflexivity|].
    destruct (has_name name kv) eqn:E.
    - assert (Hu : untouched keys kv = true).
      { unfold untouched. apply negb_true_iff.
        destruct (existsb (JsString.eqb (fst kv)) keys) eqn:Ex;
          [|reflexivity].
        apply existsb_exists in Ex as (k & Hk & Hkv).
        apply eqb_eq in Hkv. apply has_name_true in E.
        exfalso. apply Hname. congruence. }
      rewrite Hu. simpl. rewrite E. f_equal. exact IH.
    - destruct (untouched keys kv); simpl; [rewrite E|]; exact IH. }
  rewrite (Hsplit (searchParams (tracked u medium overrideParams))).
  rewrite (Hsplit (searchParams u)). rewrite H6. reflexivity.
Qed.

End Tracker.

Section TrackerTwice.

Context {api : UrlApi}.

Lemma getAll_tracked (u : URL) (medium : OutputType) :
  getAll utm_source (searchParams (tracked u medium None)) = [UTM_SOURCE]
  /\ getAll utm_medium (searchParams (tracked u medium None))
     = [OutputType_str medium]
  /\ getAll utm_campaign (searchParams (tracked u medium None))
     = [UTM_CAMPAIGN].
Proof.
  unfold tracked. cbv zeta. cbn [searchParams searchParams_set].
  split; [|split].
  - rewrite getAll_params_set_other by (vm_compute; discriminate).
    rewrite getAll_params_set_other by (vm_compute; discriminate).
    apply getAll_params_set_same.
  - rewrite getAll_params_set_other by (vm_compute; discriminate).
    apply getAll_params_set_same.
  - apply getAll_params_set_same.
Qed.

(** Tracking a URL object that is already tracked for the same channel
    leaves it as it is. *)
Lemma tracked_idempotent (u : URL) (medium : OutputType) :
  tracked (tracked u medium None) medium None = tracked u medium None.
Proof.
  destruct (getAll_tracked u medium) as (Hs & Hm & Hc).
  set (t := tracked u medium None) in *.
  unfold tracked at 1. cbv zeta. unfold searchParams_set.
  cbn [scheme username password host port path fragment searchParams].
  fold utm_source utm_medium utm_campaign.
  rewrite (params_set_same utm_source UTM_SOURCE _ Hs).
  rewrite (params_set_same utm_medium (OutputType_str medium) _ Hm).
  rewrite (params_set_same utm_campaign UTM_CAMPAIGN _ Hc).
  destruct t; reflexivity.
Qed.

(** C2.  For every href that parses as an absolute URL and every channel,
    when the tracked URL parses again, tracking it a second time for the
    same channel yields a URL in which [utm_source], [utm_medium] and
    [utm_campaign] each occur exactly once, with the values of a single
    application; and when the tracked URL parses back to the URL object it
    was written from, the second application returns the very string of the
    first. *)
Theorem buildTrackedUrl_idempotent_keys (href : jsstring) (medium : OutputType)
  (u u2 : URL) :
  URL_parse href None = Some u ->
  URL_parse (URL_toString (tracked u medium None)) None = Some u2 ->
  exists once twice u3,
    buildTrackedUrl href medium None = Ok once
    /\ buildTrackedUrl once medium None = Ok twice
    /\ twice = URL_toString u3
    /\ getAll utm_source (searchParams u3) = [UTM_SOURCE]
    /\ getAll utm_medium (searchParams u3) = [OutputType_str medium]
    /\ getAll utm_campaign (searchParams u3) = [UTM_CAMPAIGN]
    /\ (forall name, In name [utm_source; utm_medium; utm_campaign] ->
        getAll name (searchParams u3)
        = getAll name (searchParams (tracked u medium None)))
    /\ (u2 = tracked u medium None -> twice = once).
Proof.
  intros H1 H2.
  exists (URL_toString (tracked u medium None)),
         (URL_toString (tracked u2 medium None)),
         (tracked u2 medium None).
  destruct (getAll_tracked u2 medium) as (Hs & Hm & Hc).
  destruct (getAll_tracked u medium) as (Hs1 & Hm1 & Hc1).
  unfold buildTrackedUrl, new_URL. rewrite H1, H2.
  repeat (split; [first [reflexivity | assumption]|]).
  split.
  - intros name [<- | [<- | [<- | []]]]; congruence.
  - intros ->. rewrite tracked_idempotent. reflexivity.
Qed.

End TrackerTwice.

Section TrackerExamples.

Import ReferenceUrl.

(** What the reference serialiser writes holds the colon after the scheme,
    and so does every tracked URL it yields. *)
Lemma reference_tracked_has_colon (href out : jsstring) (medium : OutputType)
  (overrideParams : option (list (jsstring * jsstring))) :
  @buildTrackedUrl api href medium overrideParams = Ok out -> In COLON out.
Proof.
  unfold buildTrackedUrl, new_URL.
  destruct (URL_parse href None) as [u|]; [|discriminate].
  intros H. injection H as <-. cbn [URL_toString api]. unfold toString.
  apply in_or_app. right. left. reflexivity.
Qed.

Lemma buildTrackedUrl_frame_witness :
  @URL_parse api example_href None = Some example_url
  /\ exists u',
       @buildTrackedUrl api example_href social (Some [(js "ref", js "r")])
       = Ok (@URL_toString api u')
       /\ scheme u' = js "https" /\ host u' = js "example.com"
       /\ port u' = Some (js "8080") /\ path u' = js "/a/b"
       /\ fragment u' = Some (js "frag")
       /\ getAll (js "x") (searchParams u') = [js "1"]
       /\ getAll (js "y") (searchParams u') = [js "2"].
Proof.
  assert (Hparse : @URL_parse api example_href None = Some example_url)
    by (vm_compute; reflexivity).
  split; [exact Hparse|].
  destruct (@buildTrackedUrl_frame api example_href social
              (Some [(js "ref", js "r")]) example_url Hparse)
    as (u' & Hb & H1 & _ & _ & H2 & H3 & H4 & H5 & _ & Hget).
  exists u'. rewrite Hb, H1, H2, H3, H4, H5.
  repeat (split; [reflexivity|]).
  split; (rewrite Hget; [reflexivity|]); vm_compute;
    intros H; repeat destruct H as [H|H]; try discriminate H; exact H.
Defined.

Lemma buildTrackedUrl_idempotent_keys_witness :
  @URL_parse api example_href None = Some example_url
  /\ @URL_parse api (@URL_toString api (tracked example_url email None)) None
     = Some (tracked example_url email None)
  /\ @buildTrackedUrl api example_href email None
     = Ok (js "https://example.com:8080/a/b?x=1&utm_source=blog2buzz&y=2&utm_medium=email&utm_campaign=content-repurpose#frag")
  /\ @buildTrackedUrl api
       (js "https://example.com:8080/a/b?x=1&utm_source=blog2buzz&y=2&utm_medium=email&utm_campaign=content-repurpose#frag")
       email None
     = Ok (js "https://example.com:8080/a/b?x=1&utm_source=blog2buzz&y=2&utm_medium=email&utm_campaign=content-repurpose#frag").
Proof.
  assert (H1 : @URL_parse api example_href None = Some example_url)
    by (vm_compute; reflexivity).
  assert (H2 : @URL_parse api
                 (@URL_toString api (tracked example_url email None)) None
               = Some (tracked example_url email None))
    by (vm_compute; reflexivity).
  split; [exact H1 | split; [exact H2|]].
  destruct (@buildTrackedUrl_idempotent_keys api example_href email
              example_url _ H1 H2)
    as (once & twice & u3 & Honce & Htwice & _ & _ & _ & _ & _ & Hsame).
  assert (Hval : once = js "https://example.com:8080/a/b?x=1&utm_source=blog2buzz&y=2&utm_medium=email&utm_campaign=content-repurpose#frag").
  { assert (Hc : @buildTrackedUrl api example_href email None
                 = Ok (js "https://example.com:8080/a/b?x=1&utm_source=blog2buzz&y=2&utm_medium=email&utm_campaign=content-repurpose#frag"))
      by (vm_compute; reflexivity).
    congruence. }
  rewrite <- Hval. split; [exact Honce|].
  rewrite Htwice. rewrite (Hsame eq_refl). reflexivity.
Defined.

End TrackerExamples.

(** ** Canonical URL resolution *)

Section Canonical.

Import Extract.

Context {api : UrlApi}.

Lemma resolveCanonical_present (url h : jsstring) :
  truthy h = true ->
  resolveCanonical url (Some h) = resolve_or_fallback url h.
Proof.
  intros Hh. unfold resolveCanonical, resolve_or_fallback, new_URL.
  rewrite Hh. simpl. destruct (URL_parse h (Some url)); reflexivity.
Qed.

(** What the resolver reads from the document, and what the
    specification's candidates are, agree. *)
Lemma candidates_read (doc : Document) :
  option_map href (querySelector doc sel_link)
  = link_candidate doc (js "link[rel='canonical']")
  /\ content_of (querySelector doc sel_og)
     = meta_candidate doc (js "meta[property='og:url']")
  /\ content_of (querySelector doc sel_twitter)
     = meta_candidate doc (js "meta[name='twitter:url']").
Proof.
  unfold link_candidate, meta_candidate, content_of, sel_link, sel_og,
    sel_twitter.
  repeat split;
    match goal with |- context [querySelector doc ?s] =>
      destruct (querySelector doc s); reflexivity end.
Qed.

Lemma truthy_opt_present (o : option jsstring) : truthy_opt o = present o.
Proof. destruct o as [[|c s]|]; reflexivity. Qed.

(** C1.  [getCanonical] follows the priority order: the [href] of the
    element found by [link[rel='canonical']] when it is present (whatever
    the meta tags hold), else the [content] attribute of the element found
    by [meta[property='og:url']], else the [content] attribute of the
    element found by [meta[name='twitter:url']], else the fetch URL
    unchanged; the candidate taken is resolved against the fetch URL, and
    the fetch URL is returned when the resolution fails.  Present means:
    there and not the empty string. *)
Theorem getCanonical_priority (doc : Document) (url : jsstring) :
  let link := link_candidate doc (js "link[rel='canonical']") in
  let og := meta_candidate doc (js "meta[property='og:url']") in
  let tw := meta_candidate doc (js "meta[name='twitter:url']") in
  getCanonical doc url = canonical_by_priority doc url
  /\ (forall h, link = Some h -> h <> [] ->
      getCanonical doc url = mkCanonical (resolve_or_fallback url h) from_link)
  /\ (forall h, present link = false -> og = Some h -> h <> [] ->
      getCanonical doc url = mkCanonical (resolve_or_fallback url h) from_og)
  /\ (forall h, present link = false -> present og = false ->
      tw = Some h -> h <> [] ->
      getCanonical doc url
      = mkCanonical (resolve_or_fallback url h) from_twitter)
  /\ (present link = false -> present og = false ->
      present tw = false ->
      getCanonical doc url = mkCanonical url from_input)
  /\ (forall h u, URL_parse h (Some url) = Some u ->
      resolve_or_fallback url h = URL_toString u)
  /\ (forall h, URL_parse h (Some url) = None ->
      resolve_or_fallback url h = url).
Proof.
  intros link og tw.
  destruct (candidates_read doc) as (Rl & Ro & Rt).
  fold link in Rl. fold og in Ro. fold tw in Rt.
  assert (Hget : getCanonical doc url
                 = if present link then
                     mkCanonical (resolveCanonical url link) from_link
                   else if present og then
                     mkCanonical (resolveCanonical url og) from_og
                   else if present tw then
                     mkCanonical (resolveCanonical url tw) from_twitter
                   else mkCanonical url from_input).
  { unfold getCanonical. cbv zeta. rewrite Rl, Ro, Rt.
    rewrite !truthy_opt_present. reflexivity. }
  assert (Hspec : canonical_by_priority doc url
                  = match find (fun c => present (snd c))
                            [(from_link, link); (from_og, og);
                             (from_twitter, tw)] with
                    | Some (source, Some candidate) =>
                        mkCanonical (resolve_or_fallback url candidate) source
                    | _ => mkCanonical url from_input
                    end) by reflexivity.
  clearbody link og tw. clear Rl Ro Rt.
  assert (Hpresent : forall h : jsstring, h <> [] -> present (Some h) = true).
  { intros [|c s] Hh; [congruence | reflexivity]. }
  assert (Hlink : forall h, link = Some h -> h <> [] ->
            getCanonical doc url
            = mkCanonical (resolve_or_fallback url h) from_link).
  { intros h Hl Hh. rewrite Hget, Hl, (Hpresent h Hh).
    rewrite resolveCanonical_present by (apply truthy_true; exact Hh).
    reflexivity. }
  assert (Hog : forall h, present link = false -> og = Some h -> h <> [] ->
            getCanonical doc url
            = mkCanonical (resolve_or_fallback url h) from_og).
  { intros h Hl Ho Hh. rewrite Hget, Hl, Ho, (Hpresent h Hh).
    rewrite resolveCanonical_present by (apply truthy_true; exact Hh).
    reflexivity. }
  assert (Htw : forall h, present link = false -> present og = false ->
            tw = Some h -> h <> [] ->
            getCanonical doc url
            = mkCanonical (resolve_or_fallback url h) from_twitter).
  { intros h Hl Ho Ht Hh. rewrite Hget, Hl, Ho, Ht, (Hpresent h Hh).
    rewrite resolveCanonical_present by (apply truthy_true; exact Hh).
    reflexivity. }
  assert (Hnone : present link = false -> present og = false ->
            present tw = false ->
            getCanonical doc url = mkCanonical url from_input).
  { intros Hl Ho Ht. rewrite Hget, Hl, Ho, Ht. reflexivity. }
  split; [|split; [exact Hlink | split; [exact Hog | split; [exact Htw |
          split; [exact Hnone | split]]]]].
  - rewrite Hget, Hspec.
    destruct link as [[|c1 s1]|], og as [[|c2 s2]|], tw as [[|c3 s3]|];
      cbn [find snd present]; try reflexivity;
      rewrite resolveCanonical_present by reflexivity; reflexivity.
  - intros h u Hp. unfold resolve_or_fallback. rewrite Hp. reflexivity.
  - intros h Hp. unfold resolve_or_fallback. rewrite Hp. reflexivity.
Qed.

End Canonical.

Section CanonicalExample.

Import Extract.

Lemma getCanonical_priority_witness :
  let fetched := js "https://example.com/fetched?from=feed" in
  @getCanonical ReferenceUrl.api example_document fetched
  = mkCanonical (js "https://example.com/canonical") from_link
  /\ @getCanonical ReferenceUrl.api og_document fetched
     = mkCanonical (js "https://example.com/from-og") from_og
  /\ @getCanonical ReferenceUrl.api twitter_document fetched
     = mkCanonical (js "https://example.com/from-twitter") from_twitter
  /\ @getCanonical ReferenceUrl.api unresolvable_document fetched
     = mkCanonical fetched from_twitter
  /\ @getCanonical ReferenceUrl.api bare_document fetched
     = mkCanonical fetched from_input.
Proof.
  intros fetched.
  split; [|split; [|split; [|split]]].
  - destruct (@getCanonical_priority ReferenceUrl.api example_document
                fetched) as (_ & Hlink & _).
    rewrite (Hlink (js "https://example.com/canonical"));
      [vm_compute; reflexivity | vm_compute; reflexivity | discriminate].
  - destruct (@getCanonical_priority ReferenceUrl.api og_document
                fetched) as (_ & _ & Hog & _).
    rewrite (Hog (js "/from-og"));
      [vm_compute; reflexivity | vm_compute; reflexivity
      | vm_compute; reflexivity | discriminate].
  - destruct (@getCanonical_priority ReferenceUrl.api twitter_document
                fetched) as (_ & _ & _ & Htw & _).
    rewrite (Htw (js "https://example.com/from-twitter"));
      [vm_compute; reflexivity | vm_compute; reflexivity
      | vm_compute; reflexivity | vm_compute; reflexivity | discriminate].
  - destruct (@getCanonical_priority ReferenceUrl.api unresolvable_document
                fetched) as (_ & _ & _ & Htw & _ & _ & Hfail).
    rewrite (Htw (js "http://exa mple.com/"));
      [| vm_compute; reflexivity | vm_compute; reflexivity
       | vm_compute; reflexivity | discriminate].
    rewrite Hfail; [reflexivity | vm_compute; reflexivity].
  - destruct (@getCanonical_priority ReferenceUrl.api bare_document
                fetched) as (_ & _ & _ & _ & Hnone & _).
    apply Hnone; vm_compute; reflexivity.
Defined.

End CanonicalExample.

(** ** The prompt builder *)

Section PromptTone.

Import Prompts.

Lemma In_join_Substring (sep x : jsstring) (l : list jsstring) :
  In x l -> Substring x (join sep l).
Proof.
  induction l as [|y l IH]; [intros []|].
  intros [-> | Hin].
  - destruct l as [|z l].
    + exists [], []. simpl. rewrite app_nil_r. reflexivity.
    + exists [], (sep ++ join sep (z :: l)). reflexivity.
  - destruct (IH Hin) as (pre & post & Heq).
    destruct l as [|z l]; [destruct Hin|].
    exists (y ++ sep ++ pre), post.
    change (join sep (y :: z :: l)) with (y ++ sep ++ join sep (z :: l)).
    rewrite Heq. repeat rewrite <- app_assoc. reflexivity.
Qed.

Lemma toneLine_guidance (t : Tone) : toneLine t = toneGuidance t.
Proof. destruct t; reflexivity. Qed.

Ltac differ_at_head H :=
  apply (f_equal (@hd N 0%N)) in H; vm_compute in H; discriminate H.

Lemma fallback_not_a_line (metadata : BlogMetadata) (t : Tone)
  (anchor : jsstring) :
  ~ In outputToneFallback (sharedContextLines metadata t anchor).
Proof.
  unfold sharedContextLines. intros H.
  repeat destruct H as [H|H]; try exact H.
  - differ_at_head H.
  - differ_at_head H.
  - differ_at_head H.
  - destruct (author metadata) as [a|]; [destruct (truthy a)|];
      differ_at_head H.
  - destruct (excerpt metadata) as [e|]; [destruct (truthy e)|];
      differ_at_head H.
  - differ_at_head H.
  - destruct t; vm_compute in H; discriminate H.
  - differ_at_head H.
  - vm_compute in H. discriminate H.
Qed.

(** C3, as stated, fails: with the tone absent the prompt holds the
    conversational sentence of the table and not the fallback sentence. *)
Lemma buildPrompt_absent_tone_counterexample :
  tone example_options = None
  /\ includes (buildPrompt example_options) outputToneFallback = false
  /\ includes (buildPrompt example_options) (toneGuidance conversational)
     = true.
Proof. vm_compute. repeat split. Qed.

End PromptTone.

(** ** Validation of the request *)

Section Validation.

Import Route.

Context {api : UrlApi}.

(** With an empty [outputTypes] the schema raises the issue of the
    [min(1)] check, whatever the other fields hold. *)
Lemma REQUEST_SCHEMA_empty_outputTypes (members : list (jsstring * json)) :
  member (js "outputTypes") members = Some (JArray []) ->
  exists issues,
    REQUEST_SCHEMA (JObject members) = inl issues
    /\ In (Text (js "Select at least one output format.")) issues.
Proof.
  intros H. unfold REQUEST_SCHEMA. rewrite H.
  change (z_array _ (Some (js "Select at least one output format."))
                  (Some (JArray [])))
    with (@inl (list message) (list OutputType)
               [Text (js "Select at least one output format.")]).
  cbv zeta.
  repeat match goal with
  | |- context [match ?x with inl _ => _ | inr _ => _ end] =>
      is_var x; fail 1
  | |- context [match ?x with inl _ => _ | inr _ => _ end] =>
      let i := fresh "i" in
      let v := fresh "v" in
      destruct x as [i|v]
  end.
  all: eexists; split; [reflexivity|].
  all: cbn [issues_of].
  all: repeat (apply in_or_app; first [left; left; reflexivity | right]).
  all: try (left; reflexivity).
Qed.

(** C8.  For every request whose body is an object with the empty array as
    [outputTypes], [POST] answers with status 400 and the error
    [Invalid input.], and the details cite the message of the schema,
    [Select at least one output format.] (which, case set aside, is the
    sentence quoted in scenario C); nothing is logged. *)
Theorem POST_empty_outputTypes (w : World) (request : Request)
  (members : list (jsstring * json)) (st : State) :
  request_json request = Ok (JObject members) ->
  member (js "outputTypes") members = Some (JArray []) ->
  exists details,
    POST w request st
    = (Ok (mkResponse 400%N
             (ErrorBody (js "Invalid input.") (Some details))), st)
    /\ In (Text (js "Select at least one output format.")) details
    /\ (exists cited, In (Text cited) details
        /\ toLowerCase cited = js "select at least one output format.").
Proof.
  intros Hbody Hout.
  destruct (REQUEST_SCHEMA_empty_outputTypes members Hout)
    as (issues & Hschema & Hin).
  exists issues. split; [|split].
  - unfold POST, try_catch, bind, lift. rewrite Hbody, Hschema. reflexivity.
  - exact Hin.
  - exists (js "Select at least one output format."). split; [exact Hin|].
    vm_compute. reflexivity.
Qed.

End Validation.

(** ** The handler on concrete worlds *)

Section Worlds.

Import Route Extract.

Lemma POST_empty_outputTypes_witness :
  exists details,
    @POST ReferenceUrl.api (plain_world (js "<p>ok</p>")) scenario_C
          initial_state
    = (Ok (mkResponse 400%N
             (ErrorBody (js "Invalid input.") (Some details))),
       initial_state)
    /\ In (Text (js "Select at least one output format.")) details.
Proof.
  destruct (@POST_empty_outputTypes ReferenceUrl.api
              (plain_world (js "<p>ok</p>")) scenario_C
              [ (js "sourceType", JString (js "text"));
                (js "source", JString (js "Some article body."));
                (js "outputTypes", JArray []);
                (js "canonicalUrl", JString (js "https://example.com/post")) ]
              initial_state eq_refl eq_refl)
    as (details & Hpost & Hin & _).
  exists details. split; [exact Hpost | exact Hin].
Defined.

(** X15.  What [persistConversion] does once the store client is at hand:
    an error that the insert reports is logged and the step ends normally;
    an exception that the insert raises leaves the step. *)
Lemma persistConversion_outcomes (w : World) (args : PersistConversionArgs)
  (st : State) (url key : jsstring) (client : SupabaseClient) :
  SUPABASE_URL (env w) = Some url -> url <> [] ->
  SUPABASE_SERVICE_ROLE_KEY (env w) = Some key -> key <> [] ->
  supabaseAdminClient st = Some client ->
  persistConversion w args st
  = match insert client (js "conversions")
            (mkRow (p_sourceType args) (p_tone args) (p_outputTypes args)
               (p_platforms args) (canonicalUrl (p_metadata args))
               (title (p_metadata args)) (author (p_metadata args))
               (p_outputs args) (p_content args) (p_metadata args)) with
    | Ok None => (Ok tt, st)
    | Ok (Some error) =>
        (Ok tt,
         mkState (console st
                  ++ [mkLog (js "[convert] Failed to persist conversion")
                            (StoreError error)])
                 (supabaseAdminClient st) (generateCalls st))
    | Throw e => (Throw e, st)
    end.
Proof.
  intros Hurl Hu Hkey Hk Hclient.
  apply truthy_true in Hu. apply truthy_true in Hk.
  unfold persistConversion, Supabase.getSupabaseAdminClient,
    Supabase.createSupabaseAdminClient.
  rewrite Hurl, Hkey, Hu, Hk. cbn [negb orb].
  unfold bind, get_client, lift, ret, console_error. rewrite Hclient.
  destruct (insert client _ _) as [[error|]|e]; rewrite ?Hclient;
    reflexivity.
Qed.

(** The sibling path of C5: an error that the insert reports is logged and
    the conversion succeeds. *)
Lemma POST_reported_store_error_is_swallowed :
  exists payload,
    @POST ReferenceUrl.api
      (world_with (js "<p>ok</p>") (Some (js "https://store.example.com"))
                  (Some (js "service-role")) (Ok reporting_client))
      scenario_A initial_state
    = (Ok (mkResponse 200%N (PayloadBody payload)),
       mkState
         [mkLog (js "[convert] Failed to persist conversion")
                (StoreError (js "permission denied for table conversions"))]
         (Some reporting_client) 1).
Proof. eexists. vm_compute. reflexivity. Qed.

(** C5 fails on the code.  The request of scenario A is converted (the
    model is called and answers), and then the persistence step raises:
    once because the constructor of the store client throws, once because
    the insert rejects.  In both cases [POST] answers with status 500 and
    the message of the exception instead of the conversion result. *)
Theorem POST_persistence_exception_fails_conversion :
  @POST ReferenceUrl.api
    (world_with (js "<p>ok</p>") (Some (js "not a url"))
                (Some (js "service-role"))
                (Throw (ErrorObject (js "Invalid supabaseUrl"))))
    scenario_A initial_state
  = (Ok (mkResponse 500%N (ErrorBody (js "Invalid supabaseUrl") None)),
     mkState
       [mkLog (js "[convert] Error")
              (Thrown (ErrorObject (js "Invalid supabaseUrl")))]
       None 1)
  /\ @POST ReferenceUrl.api
       (world_with (js "<p>ok</p>") (Some (js "https://store.example.com"))
                   (Some (js "service-role")) (Ok rejecting_client))
       scenario_A initial_state
     = (Ok (mkResponse 500%N (ErrorBody (js "fetch failed") None)),
        mkState
          [mkLog (js "[convert] Error")
                 (Thrown (ErrorObject (js "fetch failed")))]
          (Some rejecting_client) 1).
Proof. split; vm_compute; reflexivity. Qed.

End Worlds.

(** ** Scenario A *)

Section ScenarioA.

Import Route Extract.


Lemma Substring_trans (a b c : jsstring) :
  Substring a b -> Substring b c -> Substring a c.
Proof.
  intros (p1 & q1 & ->) (p2 & q2 & ->).
  exists (p2 ++ p1), (q1 ++ q2). repeat rewrite <- app_assoc. reflexivity.
Qed.





End ScenarioA.

(** ** More on the prompt builder *)

Section PromptLayout.

Import Prompts.

Lemma Substring_refl (s : jsstring) : Substring s s.
Proof. exists [], []. rewrite app_nil_r. reflexivity. Qed.

Lemma Substring_app_l (p a b : jsstring) :
  Substring p a -> Substring p (a ++ b).
Proof.
  intros (x & y & ->). exists x, (y ++ b).
  repeat rewrite <- app_assoc. reflexivity.
Qed.

Lemma Substring_app_r (p a b : jsstring) :
  Substring p b -> Substring p (a ++ b).
Proof.
  intros (x & y & ->). exists (a ++ x), y.
  repeat rewrite <- app_assoc. reflexivity.
Qed.

Lemma join_app (sep : jsstring) (l l' : list jsstring) :
  l <> [] -> l' <> [] ->
  join sep (l ++ l') = join sep l ++ sep ++ join sep l'.
Proof.
  intros Hl Hl'. induction l as [|x l IH]; [congruence|].
  destruct l as [|y l].
  - destruct l' as [|z l']; [congruence|]. reflexivity.
  - change (join sep ((x :: y :: l) ++ l'))
      with (x ++ sep ++ join sep ((y :: l) ++ l')).
    rewrite IH by discriminate.
    change (join sep (x :: y :: l)) with (x ++ sep ++ join sep (y :: l)).
    repeat rewrite <- app_assoc. reflexivity.
Qed.

(** X1.  Whatever the output type, the prompt starts with the shared
    context followed by an empty line, and ends with the backlink anchor,
    an empty line, the line [Source article content:] and the article text
    verbatim. *)
Theorem buildPrompt_layout (options : PromptBuilderOptions) :
  let t := match tone options with Some t => t | None => conversational end in
  let anchor := buildBacklinkInstruction (metadata options) in
  (exists rest,
     buildPrompt options
     = sharedContextOf (metadata options) t anchor ++ nl ++ nl ++ rest)
  /\ (exists before,
        buildPrompt options
        = before ++ anchor ++ nl ++ nl ++ js "Source article content:" ++ nl
          ++ blogText options).
Proof.
  intros t anchor. unfold buildPrompt. cbv zeta. fold t. fold anchor.
  destruct (outputType options); split.
  all: try match goal with
  | |- exists rest, lines (?s :: [] :: ?l) = _ =>
      exists (lines l); reflexivity
  end.
  all: match goal with
  | |- exists before, lines ?l = _ =>
      let n := eval cbv in (length l - 4) in
      let l0 := eval cbv [firstn] in (firstn n l) in
      let label :=
        match eval cbv [nth skipn] in (skipn n l) with
        | (?lab ++ _) :: _ => lab
        end in
      exists (lines l0 ++ nl ++ label);
      change l with (l0 ++ [label ++ anchor; []; js "Source article content:";
                            blogText options]);
      unfold lines; rewrite join_app by discriminate;
      cbn [join]; repeat rewrite <- app_assoc; reflexivity
  end.
Qed.

End PromptLayout.

Section PromptAnchor.

Import Prompts.

Lemma replace_first_here (pat rep rest : jsstring) :
  replace_first pat rep (pat ++ rest) = rep ++ rest.
Proof.
  assert (H : match_prefix N.eqb pat (pat ++ rest) = Some rest)
    by (apply match_prefix_eq; reflexivity).
  destruct pat as [|p pat]; destruct rest as [|r rest];
    simpl in *; rewrite ?H; reflexivity.
Qed.

(** A pattern of two code units is not found in a stretch that lacks the
    second one, nor across its end when what follows starts otherwise. *)
Lemma replace_first_skip (p1 p2 : code_unit) (rep a b : jsstring) :
  ~ In p2 a -> (forall r, b <> p2 :: r) ->
  replace_first [p1; p2] rep (a ++ b) = a ++ replace_first [p1; p2] rep b.
Proof.
  intros Ha Hb. induction a as [|c a IH]; [reflexivity|].
  assert (Hnone : match_prefix N.eqb [p1; p2] ((c :: a) ++ b) = None).
  { simpl. destruct (N.eqb p1 c); [|reflexivity].
    destruct a as [|d a]; simpl.
    - destruct b as [|d b]; [reflexivity|].
      destruct (N.eqb_spec p2 d) as [->|]; [|reflexivity].
      exfalso. exact (Hb b eq_refl).
    - destruct (N.eqb_spec p2 d) as [->|]; [|reflexivity].
      exfalso. apply Ha. right. left. reflexivity. }
  change (replace_first [p1; p2] rep ((c :: a) ++ b))
    with (match match_prefix N.eqb [p1; p2] ((c :: a) ++ b) with
          | Some rest => rep ++ rest
          | None => c :: replace_first [p1; p2] rep (a ++ b)
          end).
  rewrite Hnone. simpl. f_equal. apply IH.
  intros Hin. apply Ha. right. exact Hin.
Qed.

(** X2.  When the canonical URL holds no [>], the backlink anchor is the
    anchor to that URL with [rel="noopener noreferrer"], the marker
    [data-utm="true"] as its last attribute and the text
    [Read the full article]. *)
Theorem buildBacklinkInstruction_marked (metadata : BlogMetadata) :
  ~ In GT (canonicalUrl metadata) ->
  buildBacklinkInstruction metadata = marked_anchor (canonicalUrl metadata)
  /\ Substring (canonicalUrl metadata) (buildBacklinkInstruction metadata).
Proof.
  intros Hgt.
  assert (Heq : buildBacklinkInstruction metadata
                = marked_anchor (canonicalUrl metadata)).
  { unfold buildBacklinkInstruction, marked_anchor.
    set (url := canonicalUrl metadata) in *.
    replace (js "<a href=" ++ dq ++ url ++ dq ++ js " rel=" ++ dq
             ++ js "noopener noreferrer" ++ dq
             ++ js ">Read the full article</a>")
      with ((js "<a href=" ++ dq ++ url ++ dq ++ js " rel=" ++ dq
             ++ js "noopener noreferrer")
            ++ (dq ++ js ">") ++ js "Read the full article</a>")
      by (repeat rewrite <- app_assoc; reflexivity).
    change (dq ++ js ">") with [34%N; GT].
    rewrite replace_first_skip.
    - rewrite replace_first_here. repeat rewrite <- app_assoc. reflexivity.
    - intros Hin.
      repeat (apply in_app_or in Hin as [Hin | Hin]); try tauto;
        revert Hin; apply closed_In_false; reflexivity.
    - intros r H. discriminate H. }
  split; [exact Heq|]. rewrite Heq. unfold marked_anchor.
  exists (js "<a href=" ++ dq),
         (dq ++ js " rel=" ++ dq ++ js "noopener noreferrer" ++ dq
          ++ js " data-utm=" ++ dq ++ js "true" ++ dq
          ++ js ">Read the full article</a>").
  repeat rewrite <- app_assoc. reflexivity.
Qed.

Lemma buildBacklinkInstruction_marked_witness :
  ~ In GT example_tracked
  /\ buildBacklinkInstruction
       (mkBlogMetadata None None example_tracked None None)
     = marked_anchor example_tracked.
Proof.
  assert (H : ~ In GT example_tracked)
    by (apply closed_In_false; vm_compute; reflexivity).
  split; [exact H|].
  exact (proj1 (buildBacklinkInstruction_marked
                  (mkBlogMetadata None None example_tracked None None) H)).
Defined.

(** X3.  When the canonical URL itself holds a double quote followed by
    [>], the marker is put at that place, inside the value of [href], and
    the end of the tag is left without it: only the first occurrence is
    replaced. *)
Theorem buildBacklinkInstruction_marker_inside_url
  (metadata : BlogMetadata) (a b : jsstring) :
  canonicalUrl metadata = a ++ dq ++ [GT] ++ b ->
  ~ In GT a ->
  buildBacklinkInstruction metadata
  = js "<a href=" ++ dq ++ a ++ dq ++ js " data-utm=" ++ dq ++ js "true"
    ++ dq ++ js ">" ++ b ++ dq ++ js " rel=" ++ dq
    ++ js "noopener noreferrer" ++ dq ++ js ">Read the full article</a>".
Proof.
  intros Hurl Ha. unfold buildBacklinkInstruction. rewrite Hurl.
  replace (js "<a href=" ++ dq ++ (a ++ dq ++ [GT] ++ b) ++ dq ++ js " rel="
           ++ dq ++ js "noopener noreferrer" ++ dq
           ++ js ">Read the full article</a>")
    with ((js "<a href=" ++ dq ++ a)
          ++ (dq ++ js ">")
          ++ (b ++ dq ++ js " rel=" ++ dq ++ js "noopener noreferrer" ++ dq
              ++ js ">Read the full article</a>"))
    by (repeat rewrite <- app_assoc; reflexivity).
  change (dq ++ js ">") with [34%N; GT].
  rewrite replace_first_skip.
  - rewrite replace_first_here. repeat rewrite <- app_assoc. reflexivity.
  - intros Hin.
    repeat (apply in_app_or in Hin as [Hin | Hin]); try tauto;
      revert Hin; apply closed_In_false; reflexivity.
  - intros r H. discriminate H.
Qed.

Lemma buildBacklinkInstruction_marker_inside_url_witness :
  buildBacklinkInstruction
    (mkBlogMetadata None None
       (js "https://example.com/a" ++ dq ++ [GT] ++ js "b") None None)
  = js "<a href=" ++ dq ++ js "https://example.com/a" ++ dq
    ++ js " data-utm=" ++ dq ++ js "true" ++ dq ++ js ">" ++ js "b" ++ dq
    ++ js " rel=" ++ dq ++ js "noopener noreferrer" ++ dq
    ++ js ">Read the full article</a>".
Proof.
  apply (buildBacklinkInstruction_marker_inside_url
           (mkBlogMetadata None None
              (js "https://example.com/a" ++ dq ++ [GT] ++ js "b") None None)
           (js "https://example.com/a") (js "b")).
  - reflexivity.
  - apply closed_In_false. vm_compute. reflexivity.
Defined.

End PromptAnchor.

Section PromptParts.

Import Prompts.

(** X4.  In the prompt for social posts every requested platform has its
    guidance block, the heading [For PLATFORM:] followed by the description
    of the table; when the platforms are left out, the three of the default
    have theirs. *)
Theorem buildPrompt_social_platforms (options : PromptBuilderOptions)
  (platform : SocialPlatform) :
  outputType options = social ->
  In platform
     (match platforms options with
      | Some l => l
      | None => [twitter; linkedin; instagram]
      end) ->
  Substring (platform_block platform) (buildPrompt options).
Proof.
  intros Hsocial Hin. unfold buildPrompt. rewrite Hsocial. cbv zeta.
  match goal with
  | |- Substring _ (lines ?l) =>
      match l with
      | context [join (nl ++ nl) ?blocks] =>
          apply (Substring_trans _ (join (nl ++ nl) blocks))
      end
  end.
  - apply In_join_Substring.
    apply (in_map (fun p => js "For " ++ toUpperCase (SocialPlatform_str p)
                            ++ js ":" ++ nl ++ SOCIAL_PLATFORM_DESCRIPTIONS p)
                  _ platform Hin).
  - unfold lines. apply In_join_Substring. do 9 right. left. reflexivity.
Qed.

Lemma buildPrompt_social_platforms_witness :
  Substring (platform_block linkedin)
    (buildPrompt
       (mkOptions social (js "Some article body.")
          (mkBlogMetadata None None example_tracked None None)
          (Some [linkedin]) None)).
Proof.
  apply (buildPrompt_social_platforms
           (mkOptions social (js "Some article body.")
              (mkBlogMetadata None None example_tracked None None)
              (Some [linkedin]) None)
           linkedin eq_refl).
  left. reflexivity.
Defined.

Lemma truthy_app_l (a b : jsstring) : truthy a = true -> truthy (a ++ b) = true.
Proof. destruct a; [discriminate | reflexivity]. Qed.

(** X5.  The shared context has seven lines that are always there, plus
    the author line when the author is present and the excerpt line when
    the excerpt is present (present: there and not empty); no other line
    is ever dropped. *)
Theorem sharedContext_line_count (metadata : BlogMetadata) (t : Tone)
  (anchor : jsstring) :
  length (filter truthy (sharedContextLines metadata t anchor))
  = 7 + present_count (author metadata) + present_count (excerpt metadata).
Proof.
  unfold sharedContextLines, present_count, Extract.truthy_opt.
  cbn [filter].
  rewrite !(truthy_app_l (js _)) by reflexivity.
  change (truthy (js "You are Blog2Buzz, an AI writing assistant that repurposes blog posts into channel-ready formats.")) with true.
  change (truthy (js "The generated content must stand alone, read naturally, and entice readers to click back to the source article.")) with true.
  change (truthy (js "Do not invent facts. If a detail is missing in the source text, skip it.")) with true.
  assert (Ht : truthy (toneLine t) = true) by (destruct t; reflexivity).
  rewrite Ht. cbv iota.
  destruct (author metadata) as [a|]; [destruct (truthy a) eqn:Ea|];
    (destruct (excerpt metadata) as [e|]; [destruct (truthy e) eqn:Ee|]);
    rewrite ?truthy_app_l by reflexivity; reflexivity.
Qed.

End PromptParts.

(** ** More on the link tracker *)

Section TrackerOverrides.

Context {api : UrlApi}.

Lemma getAll_params_set (name value other : jsstring)
  (l : list (jsstring * jsstring)) :
  getAll other (params_set name value l)
  = if JsString.eqb name other then [value] else getAll other l.
Proof.
  destruct (JsString.eqb name other) eqn:E.
  - apply eqb_eq in E. subst other. apply getAll_params_set_same.
  - apply eqb_neq in E. apply getAll_params_set_other. congruence.
Qed.

(** After the overrides, a name has the value of its last entry, or what
    it had before when no entry names it. *)
Lemma getAll_apply_overrides (name : jsstring)
  (entries : list (jsstring * jsstring)) (u : URL) :
  getAll name (searchParams (apply_overrides u entries))
  = match last_value name entries with
    | Some v => [v]
    | None => getAll name (searchParams u)
    end.
Proof.
  unfold apply_overrides. revert u.
  induction entries as [|e entries IH]; intros u; [reflexivity|].
  cbn [fold_left last_value]. rewrite IH.
  destruct (last_value name entries); [reflexivity|].
  cbn [searchParams searchParams_set]. rewrite getAll_params_set.
  destruct (JsString.eqb (fst e) name); reflexivity.
Qed.

Lemma last_value_None (name : jsstring)
  (entries : list (jsstring * jsstring)) :
  ~ In name (map fst entries) -> last_value name entries = None.
Proof.
  induction entries as [|e entries IH]; intros H; [reflexivity|].
  cbn [last_value]. rewrite IH by (intros Hin; apply H; right; exact Hin).
  destruct (JsString.eqb (fst e) name) eqn:E; [|reflexivity].
  apply eqb_eq in E. exfalso. apply H. left. exact E.
Qed.

(** X6.  The overrides are applied on top of the tracking parameters, the
    last write winning: in the URL that [buildTrackedUrl] serialises, a
    name given among the overrides occurs exactly once, with the value of
    its last entry, also when it is one of the three UTM names. *)
Theorem buildTrackedUrl_override_wins (href name value : jsstring)
  (medium : OutputType) (entries : list (jsstring * jsstring)) (u : URL) :
  URL_parse href None = Some u ->
  last_value name entries = Some value ->
  exists u',
    buildTrackedUrl href medium (Some entries) = Ok (URL_toString u')
    /\ getAll name (searchParams u') = [value].
Proof.
  intros Hparse Hlast. exists (tracked u medium (Some entries)). split.
  - unfold buildTrackedUrl, new_URL. rewrite Hparse. reflexivity.
  - unfold tracked. cbv zeta. rewrite getAll_apply_overrides, Hlast.
    reflexivity.
Qed.

(** X7.  Whatever the query of the input holds, also the tracking
    parameters themselves and more than once, in the URL that
    [buildTrackedUrl] serialises each UTM name that no override names
    occurs exactly once: [utm_source] with [blog2buzz], [utm_medium] with
    the channel, [utm_campaign] with [content-repurpose]. *)
Theorem buildTrackedUrl_utm_values (href : jsstring) (medium : OutputType)
  (overrideParams : option (list (jsstring * jsstring))) (u : URL) :
  URL_parse href None = Some u ->
  let overridden :=
    match overrideParams with Some entries => map fst entries | None => [] end in
  exists u',
    buildTrackedUrl href medium overrideParams = Ok (URL_toString u')
    /\ (~ In utm_source overridden ->
        getAll utm_source (searchParams u') = [js "blog2buzz"])
    /\ (~ In utm_medium overridden ->
        getAll utm_medium (searchParams u') = [OutputType_str medium])
    /\ (~ In utm_campaign overridden ->
        getAll utm_campaign (searchParams u') = [js "content-repurpose"]).
Proof.
  intros Hparse overridden. exists (tracked u medium overrideParams).
  destruct (getAll_tracked u medium) as (Hs & Hm & Hc).
  split.
  - unfold buildTrackedUrl, new_URL. rewrite Hparse. reflexivity.
  - destruct overrideParams as [entries|].
    + unfold tracked. cbv zeta. rewrite !getAll_apply_overrides.
      unfold tracked in Hs, Hm, Hc. cbv zeta in Hs, Hm, Hc.
      repeat split; intros Hno; rewrite (last_value_None _ _ Hno);
        assumption.
    + repeat split; intros _; assumption.
Qed.

End TrackerOverrides.

Section TrackerOverridesExamples.

Lemma buildTrackedUrl_override_wins_witness :
  exists u',
    @buildTrackedUrl ReferenceUrl.api example_href social
      (Some [(js "utm_source", js "partner"); (js "ref", js "a");
             (js "utm_source", js "campaign-x")])
    = Ok (@URL_toString ReferenceUrl.api u')
    /\ getAll utm_source (searchParams u') = [js "campaign-x"].
Proof.
  apply (@buildTrackedUrl_override_wins ReferenceUrl.api example_href
           utm_source (js "campaign-x") social
           [(js "utm_source", js "partner"); (js "ref", js "a");
            (js "utm_source", js "campaign-x")]
           example_url).
  - vm_compute. reflexivity.
  - vm_compute. reflexivity.
Defined.

Lemma buildTrackedUrl_utm_values_witness :
  @URL_parse ReferenceUrl.api
    (js "https://example.com/post?utm_medium=rss&utm_source=feed&utm_medium=web&utm_source=old")
    None
  = Some example_url_tagged
  /\ exists u',
       @buildTrackedUrl ReferenceUrl.api
         (js "https://example.com/post?utm_medium=rss&utm_source=feed&utm_medium=web&utm_source=old")
         email None
       = Ok (@URL_toString ReferenceUrl.api u')
       /\ getAll utm_source (searchParams u') = [js "blog2buzz"]
       /\ getAll utm_medium (searchParams u') = [js "email"]
       /\ getAll utm_campaign (searchParams u') = [js "content-repurpose"].
Proof.
  assert (Hparse : @URL_parse ReferenceUrl.api
            (js "https://example.com/post?utm_medium=rss&utm_source=feed&utm_medium=web&utm_source=old")
            None = Some example_url_tagged)
    by (vm_compute; reflexivity).
  split; [exact Hparse|].
  destruct (@buildTrackedUrl_utm_values ReferenceUrl.api _ email None
              example_url_tagged Hparse)
    as (u' & Hb & Hs & Hm & Hc).
  exists u'. split; [exact Hb|].
  split; [apply Hs | split; [apply Hm | apply Hc]]; intros [].
Defined.

End TrackerOverridesExamples.

(** ** More on the cleaned model output *)

Section Cleaned.

Import Route.

Lemma trimStart_head (s r : jsstring) (c : code_unit) :
  trimStart s = c :: r -> isWhiteSpace c = false.
Proof.
  induction s as [|d s IH]; simpl; [discriminate|].
  destruct (isWhiteSpace d) eqn:E; [exact IH|].
  intros H. injection H as <- _. exact E.
Qed.

Lemma trimStart_app (a b : jsstring) :
  trimStart (a ++ b)
  = if forallb isWhiteSpace a then trimStart b else trimStart a ++ b.
Proof.
  induction a as [|c a IH]; simpl; [reflexivity|].
  destruct (isWhiteSpace c); simpl; [exact IH | reflexivity].
Qed.

Lemma trimEnd_last (s front : jsstring) (c : code_unit) :
  trimEnd s = front ++ [c] -> isWhiteSpace c = false.
Proof.
  unfold trimEnd. intros H.
  apply (f_equal (@rev N)) in H. rewrite rev_involutive, rev_app_distr in H.
  simpl in H. exact (trimStart_head _ _ _ H).
Qed.

Lemma trimEnd_keeps_head (c : code_unit) (t : jsstring) :
  isWhiteSpace c = false -> exists r, trimEnd (c :: t) = c :: r.
Proof.
  intros Hc. unfold trimEnd. simpl. rewrite trimStart_app.
  destruct (forallb isWhiteSpace (rev t)).
  - exists []. simpl. rewrite Hc. reflexivity.
  - exists (rev (trimStart (rev t))). rewrite rev_app_distr. reflexivity.
Qed.

Lemma trim_head (s r : jsstring) (c : code_unit) :
  trim s = c :: r -> isWhiteSpace c = false.
Proof.
  unfold trim. destruct (trimStart s) as [|d t] eqn:E; [discriminate|].
  pose proof (trimStart_head _ _ _ E) as Hd.
  destruct (trimEnd_keeps_head d t Hd) as (r' & Hr). rewrite Hr.
  intros H. injection H as <- _. exact Hd.
Qed.

Lemma trim_idempotent (s : jsstring) : trim (trim s) = trim s.
Proof.
  set (t := trim s).
  assert (Hhead : forall c r, t = c :: r -> isWhiteSpace c = false)
    by (intros c r H; exact (trim_head _ _ _ H)).
  assert (Hlast : forall c front, t = front ++ [c] -> isWhiteSpace c = false)
    by (intros c front H; unfold t, trim in H; exact (trimEnd_last _ _ _ H)).
  unfold trim.
  assert (H1 : trimStart t = t).
  { destruct t as [|c r]; [reflexivity|].
    simpl. rewrite (Hhead c r eq_refl). reflexivity. }
  rewrite H1. unfold trimEnd.
  assert (H2 : trimStart (rev t) = rev t).
  { destruct (rev t) as [|d q] eqn:E; [reflexivity|].
    simpl. rewrite (Hlast d (rev q)); [reflexivity|].
    apply (f_equal (@rev N)) in E. rewrite rev_involutive in E. exact E. }
  rewrite H2. apply rev_involutive.
Qed.

(** X8.  The cleaned model output holds no zero-width space and neither
    starts nor ends with white space. *)
Theorem cleaned_of_is_clean (output : jsstring) :
  ~ In 8203%N (cleaned_of output)
  /\ (forall c rest, cleaned_of output = c :: rest -> isWhiteSpace c = false)
  /\ (forall c front,
        cleaned_of output = front ++ [c] -> isWhiteSpace c = false).
Proof.
  unfold cleaned_of. split; [|split].
  - intros Hin. apply In_trim in Hin. unfold ZERO_WIDTH_SPACE in Hin.
    rewrite remove_all_single in Hin. apply filter_In in Hin as [_ Hin].
    rewrite N.eqb_refl in Hin. discriminate Hin.
  - intros c rest H. exact (trim_head _ _ _ H).
  - intros c front H. unfold trim in H. exact (trimEnd_last _ _ _ H).
Qed.

End Cleaned.

Section FenceFree.

Import Route.

Lemma In_match_prefix (eqc : code_unit -> code_unit -> bool)
  (pat s rest : jsstring) (c : code_unit) :
  match_prefix eqc pat s = Some rest -> In c rest -> In c s.
Proof.
  revert s. induction pat as [|p pat IH]; intros s H Hin; simpl in H.
  - injection H as <-. exact Hin.
  - destruct s as [|d s]; [discriminate|].
    destruct (eqc p d); [|discriminate]. right. exact (IH s H Hin).
Qed.

(** What a global removal leaves was in the subject. *)
Lemma In_remove_all (eqc : code_unit -> code_unit -> bool)
  (pat s : jsstring) (c : code_unit) :
  pat <> [] -> In c (remove_all eqc pat s) -> In c s.
Proof.
  intros Hpat. remember (length s) as n eqn:Hn. revert s Hn.
  induction n as [n IH] using lt_wf_ind. intros s Hn Hin.
  destruct s as [|d s]; [exact Hin|].
  destruct (match_prefix eqc pat (d :: s)) as [rest|] eqn:E.
  - rewrite (remove_all_match eqc pat (d :: s) rest Hpat E) in Hin.
    pose proof (match_prefix_shorter eqc pat (d :: s) rest Hpat E) as Hlt.
    apply (In_match_prefix eqc pat (d :: s) rest c E).
    apply (IH (length rest)); [subst n; exact Hlt | reflexivity | exact Hin].
  - rewrite (remove_all_skip eqc pat s d E) in Hin.
    destruct Hin as [-> | Hin]; [left; reflexivity|].
    right. apply (IH (length s)); [subst n; simpl; lia | reflexivity | exact Hin].
Qed.

Lemma startsWith_fence (s : jsstring) :
  startsWith s FENCE = true -> 3 <= ticks s.
Proof.
  unfold startsWith. destruct (match_prefix N.eqb FENCE s) as [rest|] eqn:E;
    [|discriminate].
  apply match_prefix_eq in E. subst s. intros _. simpl. lia.
Qed.

Lemma no_match_few_ticks (s : jsstring) :
  match_prefix N.eqb FENCE s = None -> ticks s <= 2.
Proof.
  intros H.
  destruct s as [|a [|b [|c s]]]; simpl; try lia;
    repeat match goal with
    | |- context [(?x =? BACKTICK)%N] =>
        destruct (N.eqb_spec x BACKTICK); try lia
    end.
  subst. simpl in H. discriminate H.
Qed.

(** After the removal of the fence markers, none is left, and the string
    does not start with more backticks than before. *)
Lemma remove_fence_invariant (s : jsstring) :
  ticks (remove_all N.eqb FENCE s) <= ticks s
  /\ includes (remove_all N.eqb FENCE s) FENCE = false.
Proof.
  remember (length s) as n eqn:Hn. revert s Hn.
  induction n as [n IH] using lt_wf_ind. intros s Hn.
  destruct s as [|c s]; [split; reflexivity|].
  destruct (match_prefix N.eqb FENCE (c :: s)) as [rest|] eqn:E.
  - rewrite (remove_all_match N.eqb FENCE (c :: s) rest ltac:(discriminate) E).
    pose proof (match_prefix_shorter N.eqb FENCE (c :: s) rest
                  ltac:(discriminate) E) as Hlt.
    destruct (IH (length rest) ltac:(subst n; exact Hlt) rest eq_refl)
      as [Ht Hf].
    split; [|exact Hf].
    apply match_prefix_eq in E. rewrite E. simpl. lia.
  - rewrite (remove_all_skip N.eqb FENCE s c E).
    destruct (IH (length s) ltac:(subst n; simpl; lia) s eq_refl) as [Ht Hf].
    pose proof (no_match_few_ticks _ E) as Hfew.
    assert (Hticks : ticks (c :: remove_all N.eqb FENCE s) <= ticks (c :: s)).
    { simpl. destruct (c =? BACKTICK)%N; lia. }
    split; [exact Hticks|].
    cbn [includes]. rewrite Hf, orb_false_r.
    destruct (startsWith (c :: remove_all N.eqb FENCE s) FENCE) eqn:Es;
      [|reflexivity].
    apply startsWith_fence in Es. lia.
Qed.

Lemma trimStart_suffix (s : jsstring) : exists pre, s = pre ++ trimStart s.
Proof.
  induction s as [|c s (pre & IH)]; [exists []; reflexivity|].
  simpl. destruct (isWhiteSpace c).
  - exists (c :: pre). simpl. rewrite <- IH. reflexivity.
  - exists []. reflexivity.
Qed.

Lemma trim_Substring (s : jsstring) : Substring (trim s) s.
Proof.
  unfold trim, trimEnd.
  destruct (trimStart_suffix s) as (pre & Hpre).
  destruct (trimStart_suffix (rev (trimStart s))) as (post & Hpost).
  exists pre, (rev post). rewrite <- rev_app_distr, <- Hpost.
  rewrite rev_involutive. exact Hpre.
Qed.

Lemma filter_all (f : code_unit -> bool) (s : jsstring) :
  (forall c, In c s -> f c = true) -> filter f s = s.
Proof.
  induction s as [|c s IH]; intros H; [reflexivity|].
  simpl. rewrite (H c (or_introl eq_refl)). f_equal.
  apply IH. intros d Hd. apply H. right. exact Hd.
Qed.

(** A fence marker in [a ++ b] lies in [a] when [b] holds no backtick. *)
Lemma fence_before (a b : jsstring) :
  ~ In BACKTICK b -> Substring FENCE (a ++ b) -> Substring FENCE a.
Proof.
  intros Hb H. apply includes_spec in H. apply includes_spec.
  induction a as [|c a IH].
  - exfalso. apply Hb. apply includes_spec in H.
    apply (Substring_In BACKTICK FENCE); [left; reflexivity | exact H].
  - simpl app in H. cbn [includes] in H. cbn [includes].
    apply orb_true_iff in H as [H | H];
      [|rewrite (IH H); apply orb_true_r].
    apply orb_true_iff. left. unfold startsWith in *.
    destruct (match_prefix N.eqb FENCE (c :: a ++ b)) as [rest|] eqn:E;
      [|discriminate].
    apply match_prefix_eq in E.
    destruct a as [|d [|e a]]; simpl in E.
    + injection E as _ E. exfalso. apply Hb. rewrite E. left. reflexivity.
    + injection E as _ _ E. exfalso. apply Hb. rewrite E. left. reflexivity.
    + injection E as -> -> -> _. reflexivity.
Qed.

(** X9.  When the model output holds no zero-width space, no code-fence
    marker is left in the cleaned output, and none in the result of
    [sanitizeModelHtml] when the URL holds no backtick.  (A zero-width space
    between backticks is removed after the markers are, and can leave a
    marker behind.) *)
Theorem sanitizeModelHtml_fence_free (output canonicalUrl : jsstring) :
  ~ In 8203%N output ->
  ~ Substring FENCE (cleaned_of output)
  /\ (~ In BACKTICK canonicalUrl ->
      ~ Substring FENCE (sanitizeModelHtml output canonicalUrl)).
Proof.
  intros Hz.
  set (stage2 := remove_all N.eqb FENCE
                   (remove_all eq_ignore_case FENCE_HTML output)).
  assert (Hz2 : ~ In 8203%N stage2).
  { intros Hin. apply Hz.
    apply (In_remove_all eq_ignore_case FENCE_HTML); [discriminate|].
    apply (In_remove_all N.eqb FENCE); [discriminate | exact Hin]. }
  assert (Hclean : cleaned_of output = trim stage2).
  { unfold cleaned_of. fold stage2. unfold ZERO_WIDTH_SPACE.
    rewrite remove_all_single. rewrite filter_all; [reflexivity|].
    intros c Hc. apply negb_true_iff. apply N.eqb_neq. intros <-.
    exact (Hz2 Hc). }
  assert (Hfree : ~ Substring FENCE (cleaned_of output)).
  { rewrite Hclean. intros Hsub.
    pose proof (Substring_trans _ _ _ Hsub (trim_Substring stage2)) as H.
    apply includes_spec in H. unfold stage2 in H.
    rewrite (proj2 (remove_fence_invariant _)) in H. discriminate H. }
  split; [exact Hfree|].
  intros Hu Hsub. unfold sanitizeModelHtml in Hsub.
  destruct (truthy (cleaned_of output)); cbn [negb] in Hsub.
  - destruct (includes (cleaned_of output) canonicalUrl); cbn [negb] in Hsub;
      [exact (Hfree Hsub)|].
    apply Hfree. apply (fence_before _ (backlink_paragraph canonicalUrl));
      [|exact Hsub].
    unfold backlink_paragraph. intros Hin.
    repeat (apply in_app_or in Hin as [Hin | Hin]); try tauto;
      revert Hin; apply closed_In_false; reflexivity.
  - apply includes_spec in Hsub. vm_compute in Hsub. discriminate Hsub.
Qed.

Lemma sanitizeModelHtml_fence_free_witness :
  ~ In 8203%N (js "````html``<p>hi</p>`` ```")
  /\ ~ Substring FENCE (cleaned_of (js "````html``<p>hi</p>`` ```")).
Proof.
  assert (H : ~ In 8203%N (js "````html``<p>hi</p>`` ```"))
    by (apply closed_In_false; vm_compute; reflexivity).
  split; [exact H|].
  exact (proj1 (sanitizeModelHtml_fence_free
                  (js "````html``<p>hi</p>`` ```") example_tracked H)).
Defined.

End FenceFree.

(** ** The article extractor *)

Section Extractor.

Import Extract.

Context {api : UrlApi}.

(** What a successful extraction went through. *)
Lemma extractArticleFromUrl_inversion (web : Web) (url : jsstring)
  (extracted : ExtractedArticle) :
  extractArticleFromUrl web url = Ok extracted ->
  exists response doc article,
    fetch web url = Ok response
    /\ ok response = true
    /\ text response = Ok (html extracted)
    /\ JSDOM web (html extracted) url = Ok doc
    /\ Readability_parse web doc = Ok article
    /\ content extracted = readable_text article doc
    /\ content extracted <> []
    /\ canonicalUrl (ext_metadata extracted) = c_href (getCanonical doc url)
    /\ wordCount (ext_metadata extracted)
       = match article with
         | Some a =>
             if (art_length a =? 0)%N then None
             else Some (round_div5 (art_length a))
         | None => None
         end
    /\ title (ext_metadata extracted)
       = match article with
         | Some (mkArticle (Some t) _ _ _ _) => Some t
         | _ => Some (doc_title doc)
         end.
Proof.
  unfold extractArticleFromUrl, bind_result.
  destruct (fetch web url) as [response|e] eqn:Ef; [|discriminate].
  destruct (ok response) eqn:Eok; cbn [negb]; [|discriminate].
  destruct (text response) as [h|e] eqn:Et; [|discriminate].
  destruct (JSDOM web h url) as [doc|e] eqn:Ed; [|discriminate].
  destruct (Readability_parse web doc) as [article|e] eqn:Er; [|discriminate].
  match goal with
  | |- (if negb (truthy ?tc) then _ else _) = _ -> _ =>
      assert (Htc : tc = readable_text article doc)
        by (unfold readable_text;
            destruct article as [[? ? ? ? [t|]]|];
            destruct (body_textContent doc); reflexivity);
      rewrite Htc
  end.
  destruct (truthy (readable_text article doc)) eqn:Etr; cbn [negb];
    [|discriminate].
  intros H. injection H as <-. cbn [html content ext_metadata canonicalUrl
                                    wordCount title].
  exists response, doc, article.
  repeat (split; [first [assumption | reflexivity]|]).
  split; [apply truthy_true; exact Etr|].
  repeat (split; [reflexivity|]).
  destruct article as [[[t|] ? ? ? ?]|]; reflexivity.
Qed.

(** X10.  A successful extraction never yields empty content: the content
    is the trimmed text of the article, or, when the readability parser
    gives no text, the body text with its white space collapsed and
    trimmed; it is not empty and neither starts nor ends with white space;
    the canonical URL of the metadata is the one [getCanonical] resolves
    for the parsed document. *)
Theorem extractArticleFromUrl_content (web : Web) (url : jsstring)
  (extracted : ExtractedArticle) :
  extractArticleFromUrl web url = Ok extracted ->
  content extracted <> []
  /\ trim (content extracted) = content extracted
  /\ exists doc article,
       JSDOM web (html extracted) url = Ok doc
       /\ Readability_parse web doc = Ok article
       /\ content extracted = readable_text article doc
       /\ canonicalUrl (ext_metadata extracted)
          = c_href (getCanonical doc url).
Proof.
  intros H.
  destruct (extractArticleFromUrl_inversion web url extracted H)
    as (response & doc & article & _ & _ & _ & Hd & Hr & Hc & Hne & Hcan & _).
  split; [exact Hne | split].
  - rewrite Hc. unfold readable_text.
    destruct article as [[? ? ? ? [t|]]|];
      try (destruct (body_textContent doc)); try apply trim_idempotent;
      reflexivity.
  - exists doc, article. repeat split; assumption.
Qed.

End Extractor.

Section ExtractorEdges.

Import Extract.

Context {api : UrlApi}.

(** X11.  When the readability parser gives an article whose text is white
    space only, the extraction fails with the message that no readable
    content was found; the text of the body is not consulted, whatever it
    holds: the fallback is taken only when the parser gives no text at
    all. *)
Theorem extractArticleFromUrl_blank_article (web : Web) (url h t : jsstring)
  (response : FetchResponse) (doc : Document) (a : Article) :
  fetch web url = Ok response ->
  ok response = true ->
  text response = Ok h ->
  JSDOM web h url = Ok doc ->
  Readability_parse web doc = Ok (Some a) ->
  textContent a = Some t ->
  forallb isWhiteSpace t = true ->
  extractArticleFromUrl web url
  = Throw (ErrorObject
             (js "We couldn't extract readable content from this URL.")).
Proof.
  intros Hf Hok Ht Hd Hr Ha Hws.
  unfold extractArticleFromUrl, bind_result.
  rewrite Hf, Hok. cbn [negb]. rewrite Ht, Hd, Hr, Ha.
  cbn [option_map]. apply trim_all in Hws. rewrite Hws. reflexivity.
Qed.

(** X12.  The word count of the metadata is absent when the parser gives
    no article or an article of length zero; otherwise it is the length
    divided by five and rounded to the nearest integer, so that five times
    the count differs from the length by two at most. *)
Theorem extractArticleFromUrl_wordCount (web : Web) (url : jsstring)
  (extracted : ExtractedArticle) :
  extractArticleFromUrl web url = Ok extracted ->
  exists doc article,
    JSDOM web (html extracted) url = Ok doc
    /\ Readability_parse web doc = Ok article
    /\ match wordCount (ext_metadata extracted) with
       | Some w =>
           exists a, article = Some a /\ art_length a <> 0%N
                     /\ (5 * w <= art_length a + 2)%N
                     /\ (art_length a <= 5 * w + 2)%N
       | None =>
           article = None
           \/ exists a, article = Some a /\ art_length a = 0%N
       end.
Proof.
  intros H.
  destruct (extractArticleFromUrl_inversion web url extracted H)
    as (response & doc & article & _ & _ & _ & Hd & Hr & _ & _ & _ & Hw & _).
  exists doc, article. split; [exact Hd | split; [exact Hr|]].
  rewrite Hw. destruct article as [a|]; [|left; reflexivity].
  destruct (N.eqb_spec (art_length a) 0) as [E | E].
  - right. exists a. split; [reflexivity | exact E].
  - exists a. split; [reflexivity | split; [exact E|]].
    unfold round_div5.
    pose proof (N.Div0.div_mod (2 * art_length a + 5) 10) as Hdiv.
    pose proof (N.mod_lt (2 * art_length a + 5) 10 ltac:(discriminate))
      as Hmod.
    set (q := ((2 * art_length a + 5) / 10)%N) in *.
    set (r := ((2 * art_length a + 5) mod 10)%N) in *.
    clearbody q r. split; lia.
Qed.

End ExtractorEdges.

Section ExtractorExamples.

Import Extract.

Lemma extractArticleFromUrl_blank_article_witness :
  @extractArticleFromUrl ReferenceUrl.api blank_article_web
    (js "https://example.com/post")
  = Throw (ErrorObject
             (js "We couldn't extract readable content from this URL.")).
Proof.
  apply (@extractArticleFromUrl_blank_article ReferenceUrl.api
           blank_article_web (js "https://example.com/post") (js "<html>")
           (js "   ")
           (mkFetchResponse true 200 (js "OK") (Ok (js "<html>")))
           (mkDocument (fun _ => None) (js "A page")
              (Some (js "Menu Home About")))
           (mkArticle (Some (js "A page")) None 3 None (Some (js "   "))));
    reflexivity.
Defined.

Lemma extractArticleFromUrl_content_witness :
  exists extracted,
    @extractArticleFromUrl ReferenceUrl.api article_web
      (js "https://example.com/post?ref=feed")
    = Ok extracted
    /\ content extracted = js "Body of the post."
    /\ canonicalUrl (ext_metadata extracted)
       = js "https://example.com/canonical".
Proof.
  eexists. split; [vm_compute; reflexivity|].
  match goal with
  | |- content ?e = _ /\ _ =>
      destruct (@extractArticleFromUrl_content ReferenceUrl.api article_web
                  (js "https://example.com/post?ref=feed") e
                  ltac:(vm_compute; reflexivity))
        as (_ & _ & doc & article & Hd & Hr & Hc & Hcan)
  end.
  split; [rewrite Hc | rewrite Hcan].
  - vm_compute in Hd, Hr. injection Hd as <-. injection Hr as <-.
    vm_compute. reflexivity.
  - vm_compute in Hd. injection Hd as <-. vm_compute. reflexivity.
Defined.

Lemma extractArticleFromUrl_wordCount_witness :
  exists extracted,
    @extractArticleFromUrl ReferenceUrl.api article_web
      (js "https://example.com/post?ref=feed")
    = Ok extracted
    /\ wordCount (ext_metadata extracted) = Some 241%N
    /\ exists doc article,
         JSDOM article_web (html extracted)
               (js "https://example.com/post?ref=feed") = Ok doc
         /\ Readability_parse article_web doc = Ok article
         /\ match wordCount (ext_metadata extracted) with
            | Some w =>
                exists a, article = Some a /\ art_length a <> 0%N
                          /\ (5 * w <= art_length a + 2)%N
                          /\ (art_length a <= 5 * w + 2)%N
            | None =>
                article = None
                \/ exists a, article = Some a /\ art_length a = 0%N
            end.
Proof.
  eexists. split; [vm_compute; reflexivity|].
  split; [vm_compute; reflexivity|].
  apply (@extractArticleFromUrl_wordCount ReferenceUrl.api article_web
           (js "https://example.com/post?ref=feed")).
  vm_compute. reflexivity.
Defined.

End ExtractorExamples.

(** ** The store client *)

Section Store.

Import Route Supabase.

(** X13.  The store client is built once: after a call of
    [getSupabaseAdminClient] that yields a client, the client is kept, and
    every later call in the same environment yields that client without
    calling the constructor again (also when the constructor would throw);
    nothing is logged. *)
Theorem getSupabaseAdminClient_cached (w : World) (st st' : State)
  (client : SupabaseClient) :
  getSupabaseAdminClient w st = (Ok (Some client), st') ->
  supabaseAdminClient st' = Some client
  /\ console st' = console st
  /\ generateCalls st' = generateCalls st
  /\ forall w', env w' = env w ->
       getSupabaseAdminClient w' st' = (Ok (Some client), st').
Proof.
  unfold getSupabaseAdminClient, createSupabaseAdminClient.
  destruct (SUPABASE_URL (env w)) as [url|] eqn:Eu; [|discriminate].
  destruct (SUPABASE_SERVICE_ROLE_KEY (env w)) as [key|] eqn:Ek;
    [|discriminate].
  destruct (negb (truthy url) || negb (truthy key)) eqn:Et; [discriminate|].
  unfold bind, get_client, lift, set_client, ret.
  destruct (supabaseAdminClient st) as [cached|] eqn:Ec.
  - intros H. injection H as <- <-.
    repeat (split; [first [assumption | reflexivity]|]).
    intros w' Hw. rewrite Hw, Eu, Ek, Et, Ec. reflexivity.
  - destruct (createClient w url key) as [c|e]; [|discriminate].
    intros H. injection H as <- <-. cbn [supabaseAdminClient console
                                        generateCalls].
    repeat (split; [reflexivity|]).
    intros w' Hw. rewrite Hw, Eu, Ek, Et. reflexivity.
Qed.

Lemma getSupabaseAdminClient_cached_witness :
  getSupabaseAdminClient
    (world_with [] (Some (js "https://store.example.com"))
                (Some (js "service-role")) (Ok quiet_client))
    initial_state
  = (Ok (Some quiet_client), mkState [] (Some quiet_client) 0)
  /\ getSupabaseAdminClient
       (world_with [] (Some (js "https://store.example.com"))
                   (Some (js "service-role")) (Throw NonError))
       (mkState [] (Some quiet_client) 0)
     = (Ok (Some quiet_client), mkState [] (Some quiet_client) 0).
Proof.
  assert (H : getSupabaseAdminClient
                (world_with [] (Some (js "https://store.example.com"))
                            (Some (js "service-role")) (Ok quiet_client))
                initial_state
              = (Ok (Some quiet_client), mkState [] (Some quiet_client) 0))
    by reflexivity.
  split; [exact H|].
  destruct (getSupabaseAdminClient_cached _ _ _ _ H) as (_ & _ & _ & Hlater).
  apply Hlater. reflexivity.
Defined.

(** X14.  Without the URL of the store or without its key (absent or
    empty), [persistConversion] does nothing: it ends normally, leaves the
    state as it is and never calls the constructor of the client. *)
Theorem persistConversion_unconfigured (w : World)
  (args : PersistConversionArgs) (st : State) :
  Extract.truthy_opt (SUPABASE_URL (env w)) = false
  \/ Extract.truthy_opt (SUPABASE_SERVICE_ROLE_KEY (env w)) = false ->
  persistConversion w args st = (Ok tt, st).
Proof.
  intros H. unfold persistConversion, getSupabaseAdminClient,
    createSupabaseAdminClient, bind, ret.
  destruct (SUPABASE_URL (env w)) as [url|];
    destruct (SUPABASE_SERVICE_ROLE_KEY (env w)) as [key|];
    try reflexivity.
  simpl in H.
  destruct H as [H | H]; rewrite H; cbn [negb orb];
    rewrite ?orb_true_r; reflexivity.
Qed.

Lemma persistConversion_unconfigured_witness :
  persistConversion
    (world_with [] (Some (js "https://store.example.com")) (Some [])
                (Throw (ErrorObject (js "Invalid supabaseUrl"))))
    example_persist_args initial_state
  = (Ok tt, initial_state).
Proof.
  apply persistConversion_unconfigured. right. reflexivity.
Defined.

Lemma persistConversion_outcomes_witness :
  persistConversion
    (world_with [] (Some (js "https://store.example.com"))
                (Some (js "service-role")) (Throw NonError))
    example_persist_args (mkState [] (Some reporting_client) 0)
  = (Ok tt,
     mkState
       [mkLog (js "[convert] Failed to persist conversion")
              (StoreError (js "permission denied for table conversions"))]
       (Some reporting_client) 0).
Proof.
  rewrite (persistConversion_outcomes
             (world_with [] (Some (js "https://store.example.com"))
                         (Some (js "service-role")) (Throw NonError))
             example_persist_args (mkState [] (Some reporting_client) 0)
             (js "https://store.example.com") (js "service-role")
             reporting_client eq_refl ltac:(discriminate) eq_refl
             ltac:(discriminate) eq_refl).
  reflexivity.
Defined.

End Store.

(** ** The request schema *)

Section Schema.

Import Route.

Context {api : UrlApi}.

Lemma z_string_min1_inr (msg s : jsstring) (v : option json) :
  z_string_min1 msg v = inr s -> v = Some (JString s) /\ s <> [].
Proof.
  unfold z_string_min1, z_string.
  destruct v as [[| | |s'| |]|]; try discriminate.
  destruct s' as [|c s']; simpl; [discriminate|].
  intros H. injection H as <-. split; [reflexivity | discriminate].
Qed.

(** When no item raises an issue, every item has its value. *)
Lemma z_items_no_issue (A : Type) (item : schema A) (l : list json)
  (values : list A) :
  (forall v i, item v = inl i -> i <> []) ->
  z_items item l = ([], values) ->
  Forall2 (fun x a => item (Some x) = inr a) l values.
Proof.
  intros Hitem. revert values.
  induction l as [|x l IH]; intros values H; simpl in H.
  - injection H as <-. constructor.
  - destruct (z_items item l) as [issues vs].
    destruct (item (Some x)) as [i|a] eqn:E.
    + injection H as Hi _. apply app_eq_nil in Hi as [Hi _].
      exfalso. exact (Hitem _ _ E Hi).
    + injection H as -> <-. constructor; [exact E | apply IH; reflexivity].
Qed.

Lemma z_enum_issue (A : Type) (values : list (jsstring * A))
  (v : option json) (i : list message) :
  z_enum values v = inl i -> i <> [].
Proof.
  unfold z_enum. destruct v as [[| | |s| |]|];
    try (intros H; injection H as <-; discriminate).
  destruct (find _ values); [discriminate|].
  intros H; injection H as <-; discriminate.
Qed.

Lemma z_enum_inr (A : Type) (values : list (jsstring * A))
  (v : option json) (a : A) :
  z_enum values v = inr a ->
  exists s, v = Some (JString s) /\ In (s, a) values.
Proof.
  unfold z_enum. destruct v as [[| | |s| |]|]; try discriminate.
  destruct (find (fun kv => JsString.eqb (fst kv) s) values) as [kv|] eqn:E;
    [|discriminate].
  intros H. injection H as <-. apply find_some in E as [Hin Heq].
  apply eqb_eq in Heq. exists s. split; [reflexivity|].
  destruct kv as [k a]. simpl in Heq. subst k. exact Hin.
Qed.

(** An accepted array of output types is the array of their names. *)
Lemma z_array_outputTypes_inr (msg : jsstring) (v : option json)
  (l : list OutputType) :
  z_array
    (z_enum [(js "newsletter", newsletter); (js "social", social);
             (js "email", email)])
    (Some msg) v = inr l ->
  l <> []
  /\ v = Some (JArray (map (fun t => JString (OutputType_str t)) l)).
Proof.
  unfold z_array. destruct v as [[| | | |items|]|]; try discriminate.
  destruct (z_items _ items) as [issues values] eqn:E.
  destruct items as [|x items].
  - simpl. discriminate.
  - cbn [length Nat.ltb Nat.leb app].
    destruct issues as [|i issues]; [|discriminate].
    intros H. injection H as <-.
    apply z_items_no_issue in E; [|intros v i; apply z_enum_issue].
    split.
    + inversion E. discriminate.
    + f_equal. f_equal.
      induction E as [|y t ys ts Hy _ IH]; [reflexivity|].
      simpl. f_equal; [|exact IH].
      apply z_enum_inr in Hy as (s & Hs & Hin). injection Hs as ->.
      f_equal. simpl in Hin.
      destruct Hin as [H | [H | [H | []]]]; injection H as <- <-;
        reflexivity.
Qed.

Lemma z_optional_url_inr (v : option json) (c : jsstring) :
  z_optional z_string_url v = inr (Some c) ->
  v = Some (JString c) /\ exists u, URL_parse c None = Some u.
Proof.
  unfold z_optional, z_string_url, z_string, new_URL.
  destruct v as [[| | |s| |]|]; try discriminate.
  destruct (URL_parse s None) as [u|] eqn:E; [|discriminate].
  intros H. injection H as <-. split; [reflexivity|]. exists u. exact E.
Qed.

(** The fields of an accepted body, one by one. *)
Lemma REQUEST_SCHEMA_inversion (body : json) (data : ConvertRequestPayload) :
  REQUEST_SCHEMA body = inr data ->
  exists members,
    body = JObject members
    /\ z_string_min1 (js "Provide a blog URL or the article text.")
         (member (js "source") members) = inr (source data)
    /\ z_array
         (z_enum [(js "newsletter", newsletter); (js "social", social);
                  (js "email", email)])
         (Some (js "Select at least one output format."))
         (member (js "outputTypes") members) = inr (outputTypes data)
    /\ z_optional z_string_url (member (js "canonicalUrl") members)
       = inr (req_canonicalUrl data).
Proof.
  unfold REQUEST_SCHEMA. destruct body as [| | | | |members]; try discriminate.
  cbv zeta.
  destruct (z_enum _ (member (js "sourceType") members)) as [?|f1];
  destruct (z_string_min1 _ (member (js "source") members)) as [?|f2] eqn:E2;
  destruct (z_array _ _ (member (js "outputTypes") members)) as [?|f3] eqn:E3;
  destruct (z_optional _ (member (js "socialPlatforms") members)) as [?|f4];
  destruct (z_optional _ (member (js "tone") members)) as [?|f5];
  destruct (z_optional z_string_url (member (js "canonicalUrl") members))
    as [?|f6] eqn:E6;
  destruct (z_optional z_string (member (js "articleTitle") members))
    as [?|f7];
  destruct (z_optional z_string (member (js "articleAuthor") members))
    as [?|f8];
  try discriminate.
  intros H. injection H as <-. exists members.
  repeat split; assumption.
Qed.

(** X16.  What the schema accepts is usable: the body is an object, its
    [source] is the accepted, non-empty source, its [outputTypes] is the
    non-empty array of the names of the accepted output types, and an
    accepted canonical URL is a string that the URL constructor parses. *)
Theorem REQUEST_SCHEMA_sound (body : json) (data : ConvertRequestPayload) :
  REQUEST_SCHEMA body = inr data ->
  source data <> []
  /\ outputTypes data <> []
  /\ (forall c, req_canonicalUrl data = Some c ->
      exists u, URL_parse c None = Some u)
  /\ exists members,
       body = JObject members
       /\ member (js "source") members = Some (JString (source data))
       /\ member (js "outputTypes") members
          = Some (JArray (map (fun t => JString (OutputType_str t))
                              (outputTypes data))).
Proof.
  intros H.
  destruct (REQUEST_SCHEMA_inversion body data H)
    as (members & -> & Hs & Ho & Hc).
  apply z_string_min1_inr in Hs as [Hs Hne].
  apply z_array_outputTypes_inr in Ho as [Hone Ho].
  repeat split; try assumption.
  - intros c Hcan. rewrite Hcan in Hc.
    apply z_optional_url_inr in Hc as [_ Hu]. exact Hu.
  - exists members. repeat split; assumption.
Qed.

End Schema.

Section SchemaExamples.

Import Route.

Lemma REQUEST_SCHEMA_sound_witness :
  @REQUEST_SCHEMA ReferenceUrl.api scenario_A_body = inr scenario_A_data
  /\ source scenario_A_data <> []
  /\ outputTypes scenario_A_data <> [].
Proof.
  assert (H : @REQUEST_SCHEMA ReferenceUrl.api scenario_A_body
              = inr scenario_A_data) by (vm_compute; reflexivity).
  split; [exact H|].
  destruct (@REQUEST_SCHEMA_sound ReferenceUrl.api _ _ H) as (H1 & H2 & _).
  split; assumption.
Defined.

End SchemaExamples.

(** ** The handler as a whole *)

Section Handler.

Import Route.

Context {api : UrlApi}.

(** When [convert] answers, it answers with the payload and status 200. *)
Lemma convert_answer (w : World) (data : ConvertRequestPayload)
  (content : jsstring) (metadata0 : BlogMetadata) (st st' : State)
  (r : Response) :
  convert w data content metadata0 st = (Ok r, st') ->
  exists payload, r = mkResponse 200%N (PayloadBody payload).
Proof.
  unfold convert, bind, lift, ret, NextResponse_json.
  destruct (ensureApiKey w); [|discriminate].
  destruct (generate_all _ _ _ _ _ _ _ _ st) as [[outs|e] st1];
    [|discriminate].
  destruct (persistConversion _ _ st1) as [[[]|e] st2]; [|discriminate].
  intros H. injection H as <- _. eexists. reflexivity.
Qed.

(** X17.  [POST] always answers: whatever the request and whatever the
    world does (a body that is not JSON, a failing fetch, a missing key, a
    failing model, a failing store), the handler returns a response and
    raises nothing; the response carries a payload with status 200, or an
    error with status 400 or 500, and details only with status 400. *)
Theorem POST_always_answers (w : World) (request : Request) (st : State) :
  exists r st',
    POST w request st = (Ok r, st') /\ well_formed_response r.
Proof.
  unfold POST, try_catch.
  match goal with
  | |- context [match ?m st with _ => _ end] =>
      destruct (m st) as [[r|e] st1] eqn:E
  end.
  - exists r, st1. split; [reflexivity|].
    unfold bind, lift, ret in E.
    destruct (request_json request) as [body|e]; [|discriminate].
    destruct (REQUEST_SCHEMA body) as [issues|data].
    + injection E as <- _. reflexivity.
    + destruct (sourceType data).
      * destruct (Extract.extractArticleFromUrl (web w) (source data))
          as [article|e]; [|discriminate].
        apply convert_answer in E as (payload & ->). reflexivity.
      * destruct (req_canonicalUrl data) as [c|].
        -- destruct (negb (truthy c)).
           ++ injection E as <- _. left. reflexivity.
           ++ apply convert_answer in E as (payload & ->). reflexivity.
        -- injection E as <- _. left. reflexivity.
  - unfold bind, console_error, ret. eexists. eexists.
    split; [reflexivity|]. right. reflexivity.
Qed.

End Handler.

(** ** The generation loop *)

Section Loop.

Import Route.

Context {api : UrlApi}.



(** One turn of the loop: the URL is tracked, the model is called once,
    and its answer, sanitised, is stored under the output type. *)
Lemma generate_one_run (w : World) (model content : jsstring)
  (metadata : BlogMetadata) (platforms : list SocialPlatform)
  (tone : option Tone) (outs : list (OutputType * jsstring))
  (t : OutputType) (st : State) (u : URL) :
  URL_parse (canonicalUrl metadata) None = Some u ->
  exists prompt,
    generate_one w model content metadata platforms tone outs t st
    = match generateContent w (generateCalls st) model prompt with
      | Ok text =>
          (Ok (outputs_set outs t
                 (sanitizeModelHtml text (URL_toString (tracked u t None)))),
           after_calls 1 st)
      | Throw e => (Throw e, after_calls 1 st)
      end.
Proof.
  intros Hu. unfold generate_one, buildTrackedUrl, new_URL. rewrite Hu.
  unfold generateOutput, next_call, bind, lift, ret, after_calls.
  rewrite Nat.add_1_r.
  match goal with
  | |- context [generateContent w (generateCalls st) model ?p] =>
      exists p; destruct (generateContent w (generateCalls st) model p)
  end; reflexivity.
Qed.

Lemma after_calls_after_calls (n m : nat) (st : State) :
  after_calls n (after_calls m st) = after_calls (m + n) st.
Proof. unfold after_calls. simpl. rewrite Nat.add_assoc. reflexivity. Qed.


(** When the model answers [k] calls and fails at the next, the loop stops
    there with the exception. *)
Lemma generate_all_fails (w : World) (model content : jsstring)
  (metadata : BlogMetadata) (platforms : list SocialPlatform)
  (tone : option Tone) (u : URL) (e : exn) :
  URL_parse (canonicalUrl metadata) None = Some u ->
  forall types k outs st,
  k < length types ->
  (forall i model prompt, i < k ->
     exists text, generateContent w (generateCalls st + i) model prompt
                  = Ok text) ->
  (forall model prompt,
     generateContent w (generateCalls st + k) model prompt = Throw e) ->
  generate_all w model content metadata platforms tone types outs st
  = (Throw e, after_calls (S k) st).
Proof.
  intros Hu types.
  induction types as [|t0 types IH]; intros k outs st Hk Hbefore Hat;
    [simpl in Hk; lia|].
  cbn [generate_all]. unfold bind at 1.
  destruct (generate_one_run w model content metadata platforms tone outs
              t0 st u Hu) as (prompt & Hone).
  rewrite Hone. destruct k as [|k].
  - rewrite Nat.add_0_r in Hat. rewrite Hat. reflexivity.
  - destruct (Hbefore 0 model prompt ltac:(lia)) as (text & Htext).
    rewrite Nat.add_0_r in Htext. rewrite Htext.
    rewrite (IH k _ (after_calls 1 st)).
    + rewrite after_calls_after_calls. reflexivity.
    + simpl in Hk. lia.
    + intros i m p Hi. unfold after_calls. cbn [generateCalls].
      destruct (Hbefore (S i) m p ltac:(lia)) as (tx & Htx).
      exists tx. rewrite <- Htx. f_equal. lia.
    + intros m p. unfold after_calls. cbn [generateCalls].
      rewrite <- (Hat m p). f_equal. lia.
Qed.




End Loop.

(** ** The paths of the handler *)

Section Paths.

Import Route.

Context {api : UrlApi}.


(** For a request that carries its text and a canonical URL, [POST] is the
    conversion of that text, with its exceptions caught. *)
Lemma POST_text_mode (w : World) (request : Request) (body : json)
  (data : ConvertRequestPayload) (c : jsstring) (st : State) :
  request_json request = Ok body ->
  REQUEST_SCHEMA body = inr data ->
  sourceType data = source_text ->
  req_canonicalUrl data = Some c ->
  c <> [] ->
  POST w request st
  = answer_of (convert w data (source data) (text_metadata data c) st).
Proof.
  intros Hb Hs Ht Hc Hne. apply truthy_true in Hne.
  unfold POST, try_catch, answer_of. unfold bind at 1. unfold lift at 1.
  rewrite Hb, Hs, Ht, Hc, Hne. cbn [negb]. fold (text_metadata data c).
  destruct (convert w data (source data) (text_metadata data c) st)
    as [[r|e] st1]; [reflexivity|].
  unfold bind, console_error, ret, NextResponse_json, after_error.
  destruct e; reflexivity.
Qed.

(** X18.  A valid request that carries its text but no canonical URL is
    answered with status 400 and the message that asks for the original
    blog URL; nothing is fetched, generated, stored or logged. *)
Theorem POST_text_without_canonicalUrl (w : World) (request : Request)
  (body : json) (data : ConvertRequestPayload) (st : State) :
  request_json request = Ok body ->
  REQUEST_SCHEMA body = inr data ->
  sourceType data = source_text ->
  req_canonicalUrl data = None ->
  POST w request st
  = (Ok (mkResponse 400%N
           (ErrorBody
              (js "Provide the original blog URL so we can add a backlink when pasting raw text.")
              None)), st).
Proof.
  intros Hb Hs Ht Hc. unfold POST, try_catch, bind, lift, ret.
  rewrite Hb, Hs, Ht, Hc. reflexivity.
Qed.

Lemma convert_missing_key (w : World) (data : ConvertRequestPayload)
  (content : jsstring) (metadata0 : BlogMetadata) (st : State) :
  Extract.truthy_opt (GEMINI_API_KEY (env w)) = false ->
  convert w data content metadata0 st
  = (Throw (ErrorObject
              (js "Gemini API key is missing. Add GEMINI_API_KEY to your environment.")),
     st).
Proof.
  intros Hk. unfold convert, ensureApiKey, bind, lift.
  destruct (GEMINI_API_KEY (env w)) as [k|]; [|reflexivity].
  simpl in Hk. rewrite Hk. reflexivity.
Qed.

(** X19.  Without the API key (absent or empty) a valid request that
    carries its text is answered with status 500 and the message that the
    key is missing; the exception is logged once and the model is not
    called. *)
Theorem POST_missing_api_key (w : World) (request : Request) (body : json)
  (data : ConvertRequestPayload) (c : jsstring) (st : State) :
  request_json request = Ok body ->
  REQUEST_SCHEMA body = inr data ->
  sourceType data = source_text ->
  req_canonicalUrl data = Some c ->
  c <> [] ->
  Extract.truthy_opt (GEMINI_API_KEY (env w)) = false ->
  POST w request st
  = (Ok (mkResponse 500%N
           (ErrorBody
              (js "Gemini API key is missing. Add GEMINI_API_KEY to your environment.")
              None)),
     after_error
       (ErrorObject
          (js "Gemini API key is missing. Add GEMINI_API_KEY to your environment."))
       st).
Proof.
  intros Hb Hs Ht Hc Hne Hk.
  rewrite (POST_text_mode w request body data c st Hb Hs Ht Hc Hne).
  rewrite convert_missing_key by exact Hk. reflexivity.
Qed.

(** X20.  When the source is a URL and the fetch answers with a status
    that is not a success, [POST] answers with status 500 and a message
    that names the status and its text; this happens before the API key is
    looked at, and the model is not called. *)
Theorem POST_fetch_failure (w : World) (request : Request) (body : json)
  (data : ConvertRequestPayload) (response : Extract.FetchResponse)
  (st : State) :
  request_json request = Ok body ->
  REQUEST_SCHEMA body = inr data ->
  sourceType data = source_url ->
  Extract.fetch (web w) (source data) = Ok response ->
  Extract.ok response = false ->
  let message :=
    js "Unable to fetch content. Received status "
    ++ of_N (Extract.status response) ++ js " ("
    ++ Extract.statusText response ++ js ")." in
  POST w request st
  = (Ok (mkResponse 500%N (ErrorBody message None)),
     after_error (ErrorObject message) st).
Proof.
  intros Hb Hs Ht Hf Hok message.
  unfold POST, try_catch. unfold bind at 1. unfold lift at 1.
  rewrite Hb, Hs, Ht. unfold bind at 1. unfold lift at 1.
  unfold Extract.extractArticleFromUrl, Extract.bind_result.
  rewrite Hf, Hok. reflexivity.
Qed.

(** X21.  The conversion is all or nothing: when the model answers the
    first [k] calls and fails at the next one, a valid request that
    carries its text is answered with status 500 and the message of that
    exception; no output generated so far is returned, the store is not
    touched, and the model has been called [k + 1] times. *)
Theorem POST_model_failure (w : World) (request : Request) (body : json)
  (data : ConvertRequestPayload) (c key : jsstring) (st : State)
  (k : nat) (e : exn) :
  request_json request = Ok body ->
  REQUEST_SCHEMA body = inr data ->
  sourceType data = source_text ->
  req_canonicalUrl data = Some c ->
  c <> [] ->
  GEMINI_API_KEY (env w) = Some key ->
  key <> [] ->
  k < length (outputTypes data) ->
  (forall i model prompt, i < k ->
     exists text, generateContent w (generateCalls st + i) model prompt
                  = Ok text) ->
  (forall model prompt,
     generateContent w (generateCalls st + k) model prompt = Throw e) ->
  POST w request st
  = (Ok (mkResponse 500%N (ErrorBody (message_of e) None)),
     after_error e (after_calls (S k) st)).
Proof.
  intros Hb Hs Ht Hc Hne Hkey Hkne Hk Hbefore Hat.
  rewrite (POST_text_mode w request body data c st Hb Hs Ht Hc Hne).
  destruct (REQUEST_SCHEMA_inversion body data Hs) as (members & _ & _ & _ & Hu).
  rewrite Hc in Hu. apply z_optional_url_inr in Hu as (_ & u & Hu).
  unfold convert, ensureApiKey. rewrite Hkey.
  apply truthy_true in Hkne. rewrite Hkne.
  unfold bind at 1. unfold lift at 1. unfold bind at 1.
  match goal with
  | |- context [generate_all w ?m ?ct ?md ?pl ?tn ?ts [] st] =>
      rewrite (generate_all_fails w m ct md pl tn u e Hu ts k [] st Hk
                 Hbefore Hat)
  end.
  reflexivity.
Qed.


End Paths.

Section PathExamples.

Import Route.

Lemma POST_text_without_canonicalUrl_witness :
  @POST ReferenceUrl.api (plain_world (js "<p>ok</p>"))
        (mkRequest (Ok scenario_B_body)) initial_state
  = (Ok (mkResponse 400%N
           (ErrorBody
              (js "Provide the original blog URL so we can add a backlink when pasting raw text.")
              None)), initial_state).
Proof.
  apply (@POST_text_without_canonicalUrl ReferenceUrl.api
           (plain_world (js "<p>ok</p>")) (mkRequest (Ok scenario_B_body))
           scenario_B_body scenario_B_data initial_state eq_refl);
    vm_compute; reflexivity.
Defined.

Lemma POST_missing_api_key_witness :
  @POST ReferenceUrl.api keyless_world (mkRequest (Ok scenario_A_body))
        initial_state
  = (Ok (mkResponse 500%N
           (ErrorBody
              (js "Gemini API key is missing. Add GEMINI_API_KEY to your environment.")
              None)),
     after_error
       (ErrorObject
          (js "Gemini API key is missing. Add GEMINI_API_KEY to your environment."))
       initial_state).
Proof.
  apply (@POST_missing_api_key ReferenceUrl.api keyless_world
           (mkRequest (Ok scenario_A_body)) scenario_A_body scenario_A_data
           (js "https://example.com/post") initial_state eq_refl).
  - vm_compute. reflexivity.
  - reflexivity.
  - reflexivity.
  - vm_compute. discriminate.
  - reflexivity.
Defined.

Lemma POST_fetch_failure_witness :
  @POST ReferenceUrl.api not_found_world (mkRequest (Ok scenario_D_body))
        initial_state
  = (Ok (mkResponse 500%N
           (ErrorBody
              (js "Unable to fetch content. Received status 404 (Not Found).")
              None)),
     after_error
       (ErrorObject
          (js "Unable to fetch content. Received status 404 (Not Found)."))
       initial_state).
Proof.
  rewrite (@POST_fetch_failure ReferenceUrl.api not_found_world
             (mkRequest (Ok scenario_D_body)) scenario_D_body scenario_D_data
             not_found_response initial_state eq_refl
             ltac:(vm_compute; reflexivity) eq_refl eq_refl eq_refl).
  vm_compute. reflexivity.
Defined.

Lemma POST_model_failure_witness :
  @POST ReferenceUrl.api failing_second_world
        (mkRequest (Ok two_outputs_body)) initial_state
  = (Ok (mkResponse 500%N (ErrorBody (js "quota exceeded") None)),
     after_error (ErrorObject (js "quota exceeded"))
                 (after_calls 2 initial_state)).
Proof.
  apply (@POST_model_failure ReferenceUrl.api failing_second_world
           (mkRequest (Ok two_outputs_body)) two_outputs_body
           two_outputs_data (js "https://example.com/post") (js "secret")
           initial_state 1 (ErrorObject (js "quota exceeded")) eq_refl).
  - vm_compute. reflexivity.
  - reflexivity.
  - reflexivity.
  - vm_compute. discriminate.
  - reflexivity.
  - vm_compute. discriminate.
  - simpl. lia.
  - intros i model prompt Hi. exists (js "<p>ok</p>").
    destruct i as [|i]; [reflexivity | lia].
  - intros model prompt. reflexivity.
Defined.


End PathExamples.

(** ** The form of the page and the schema of the route *)

Section Form.

Import Route HomePage.

Context {api : UrlApi}.

Lemma field_sourceType (t : SourceType) :
  z_enum [(js "url", source_url); (js "text", source_text)]
         (Some (JString (SourceType_str t))) = inr t.
Proof. destruct t; vm_compute; reflexivity. Qed.

Lemma field_tone (t : Tone) :
  z_optional
    (z_enum [(js "conversational", conversational);
             (js "professional", professional); (js "playful", playful)])
    (Some (JString (Tone_str t))) = inr (Some t).
Proof. destruct t; vm_compute; reflexivity. Qed.

Lemma field_source (msg s : jsstring) :
  s <> [] -> z_string_min1 msg (Some (JString s)) = inr s.
Proof. intros H. destruct s; [congruence | reflexivity]. Qed.

Lemma z_items_outputTypes (l : list OutputType) :
  z_items
    (z_enum [(js "newsletter", newsletter); (js "social", social);
             (js "email", email)])
    (map (fun t => JString (OutputType_str t)) l) = ([], l).
Proof.
  induction l as [|t l IH]; [reflexivity|].
  cbn [map z_items]. rewrite IH.
  destruct t; vm_compute; reflexivity.
Qed.

Lemma z_items_platforms (l : list SocialPlatform) :
  z_items
    (z_enum [(js "twitter", twitter); (js "linkedin", linkedin);
             (js "instagram", instagram)])
    (map (fun p => JString (SocialPlatform_str p)) l) = ([], l).
Proof.
  induction l as [|t l IH]; [reflexivity|].
  cbn [map z_items]. rewrite IH.
  destruct t; vm_compute; reflexivity.
Qed.

Lemma field_outputTypes (msg : jsstring) (l : list OutputType) :
  l <> [] ->
  z_array
    (z_enum [(js "newsletter", newsletter); (js "social", social);
             (js "email", email)])
    (Some msg)
    (Some (JArray (map (fun t => JString (OutputType_str t)) l))) = inr l.
Proof.
  intros H. unfold z_array. rewrite z_items_outputTypes.
  destruct l; [congruence | reflexivity].
Qed.

Lemma field_platforms (l : list SocialPlatform) :
  z_optional
    (z_array
       (z_enum [(js "twitter", twitter); (js "linkedin", linkedin);
                (js "instagram", instagram)])
       None)
    (Some (JArray (map (fun p => JString (SocialPlatform_str p)) l)))
  = inr (Some l).
Proof.
  unfold z_optional, z_array. rewrite z_items_platforms. reflexivity.
Qed.

Lemma field_optional_string (o : option jsstring) :
  z_optional z_string (option_map JString o) = inr o.
Proof. destruct o; reflexivity. Qed.

(** The schema on the body that the form posts: the canonical URL is the
    only field that can still be refused. *)
Lemma REQUEST_SCHEMA_payload_json (payload : Payload) :
  c_source payload <> [] ->
  c_outputTypes payload <> [] ->
  REQUEST_SCHEMA (payload_json payload)
  = match c_canonicalUrl payload with
    | Some c =>
        match URL_parse c None with
        | Some _ => inr (data_of payload)
        | None => inl [BuiltIn invalid_string]
        end
    | None => inr (data_of payload)
    end.
Proof.
  intros Hs Ho. destruct payload as [st src ots sps tn can ti au].
  cbn [c_source c_outputTypes c_canonicalUrl] in *.
  unfold REQUEST_SCHEMA, payload_json, data_of.
  cbn [c_sourceType c_source c_outputTypes c_socialPlatforms c_tone
       c_canonicalUrl c_articleTitle c_articleAuthor].
  set (ots_json := JArray (map (fun t => JString (OutputType_str t)) ots)).
  set (sps_json := JArray (map (fun p => JString (SocialPlatform_str p)) sps)).
  set (st_json := JString (SourceType_str st)).
  set (tn_json := JString (Tone_str tn)).
  match goal with
  | |- context [member (js "sourceType") ?l] => set (members := l)
  end.
  assert (M1 : member (js "sourceType") members = Some st_json)
    by reflexivity.
  assert (M2 : member (js "source") members = Some (JString src))
    by reflexivity.
  assert (M3 : member (js "outputTypes") members = Some ots_json)
    by reflexivity.
  assert (M4 : member (js "socialPlatforms") members = Some sps_json)
    by reflexivity.
  assert (M5 : member (js "tone") members = Some tn_json) by reflexivity.
  assert (M6 : member (js "canonicalUrl") members = option_map JString can)
    by (destruct can, ti, au; reflexivity).
  assert (M7 : member (js "articleTitle") members = option_map JString ti)
    by (destruct can, ti, au; reflexivity).
  assert (M8 : member (js "articleAuthor") members = option_map JString au)
    by (destruct can, ti, au; reflexivity).
  cbv zeta. rewrite M1, M2, M3, M4, M5, M6, M7, M8.
  unfold st_json, tn_json, ots_json, sps_json.
  rewrite field_sourceType, field_tone, field_platforms,
    (field_source _ src Hs), (field_outputTypes _ ots Ho),
    !field_optional_string.
  destruct can as [c|]; [|reflexivity].
  unfold z_optional, z_string_url, z_string, new_URL. cbn [option_map].
  destruct (URL_parse c None); reflexivity.
Qed.

(** X23.  A form that passes the checks of [handleSubmit] posts a body
    with a non-empty source and at least one output type, so that the
    server raises neither of its own messages for these fields.  For a URL
    source the schema of the route accepts the body as posted.  For pasted
    text the form only checks that the canonical URL is not blank: the
    schema accepts the body when the trimmed canonical URL parses as a URL
    and otherwise refuses it with the one issue for that field. *)
Theorem handleSubmit_payload_and_schema (form : FormState)
  (payload : Payload) :
  handleSubmit_payload form = inr payload ->
  c_source payload <> []
  /\ c_outputTypes payload <> []
  /\ match f_sourceType form with
     | source_url =>
         REQUEST_SCHEMA (payload_json payload) = inr (data_of payload)
     | source_text =>
         c_canonicalUrl payload = Some (trim (manualCanonical form))
         /\ REQUEST_SCHEMA (payload_json payload)
            = match URL_parse (trim (manualCanonical form)) None with
              | Some _ => inr (data_of payload)
              | None => inl [BuiltIn invalid_string]
              end
     end.
Proof.
  unfold handleSubmit_payload, collectSelected. cbv zeta.
  destruct (filter (outputSelection form) OUTPUT_KEYS) as [|t ts] eqn:Eo;
    [discriminate|].
  cbn [length Nat.eqb].
  destruct (f_sourceType form) eqn:Est.
  - destruct (truthy (trim (blogUrl form))) eqn:Eu; cbn [negb];
      [|discriminate].
    destruct (new_URL (trim (blogUrl form)) None); [|discriminate].
    intros H. injection H as <-.
    assert (Hs : trim (blogUrl form) <> []) by (apply truthy_true; exact Eu).
    split; [exact Hs | split; [discriminate|]].
    rewrite REQUEST_SCHEMA_payload_json; [reflexivity | exact Hs | discriminate].
  - destruct (truthy (trim (blogText form))) eqn:Et; cbn [negb];
      [|discriminate].
    destruct (truthy (trim (manualCanonical form))) eqn:Ec; cbn [negb];
      [|discriminate].
    intros H. injection H as <-.
    assert (Hs : trim (blogText form) <> []) by (apply truthy_true; exact Et).
    split; [exact Hs | split; [discriminate|]].
    split; [reflexivity|].
    rewrite REQUEST_SCHEMA_payload_json; [reflexivity | exact Hs | discriminate].
Qed.

End Form.

Section FormExamples.

Import Route HomePage.

Lemma handleSubmit_payload_and_schema_witness :
  exists payload,
    @handleSubmit_payload ReferenceUrl.api text_form = inr payload
    /\ @REQUEST_SCHEMA ReferenceUrl.api (payload_json payload)
       = inl [BuiltIn invalid_string]
    /\ exists payload',
         @handleSubmit_payload ReferenceUrl.api url_form = inr payload'
         /\ @REQUEST_SCHEMA ReferenceUrl.api (payload_json payload')
            = inr (data_of payload').
Proof.
  eexists. split; [vm_compute; reflexivity|]. split.
  - match goal with
    | |- REQUEST_SCHEMA (payload_json ?p) = _ =>
        destruct (@handleSubmit_payload_and_schema ReferenceUrl.api
                    text_form p ltac:(vm_compute; reflexivity))
          as (_ & _ & H)
    end.
    cbn [f_sourceType text_form] in H. destruct H as [_ H].
    rewrite H. vm_compute. reflexivity.
  - eexists. split; [vm_compute; reflexivity|].
    match goal with
    | |- REQUEST_SCHEMA (payload_json ?p) = _ =>
        destruct (@handleSubmit_payload_and_schema ReferenceUrl.api
                    url_form p ltac:(vm_compute; reflexivity))
          as (_ & _ & H)
    end.
    exact H.
Defined.

End FormExamples.

(** ** The conversion of a fetched article *)

Section UrlSource.

Import Route.

Context {api : UrlApi}.




End UrlSource.

Section UrlSourceExamples.

Import Route.



End UrlSourceExamples.

Section FenceExample.

Import Route.

(** A zero-width space between backticks is removed after the fence
    markers are, which can leave a marker in the cleaned output. *)
Lemma cleaned_of_joined_backticks :
  cleaned_of (js "``" ++ [8203%N] ++ js "`<p>hi</p>") = js "```<p>hi</p>".
Proof. vm_compute. reflexivity. Qed.

End FenceExample.

(** ** The tone line of the shared context *)

Section PromptToneBlock.

Import Prompts.

Lemma join_filter_tail (x : jsstring) (l : list jsstring)
  (a b c : jsstring) :
  truthy x = true -> truthy a = true -> truthy b = true ->
  truthy c = true ->
  join nl (filter truthy (x :: l ++ [a; b; c]))
  = (join nl (filter truthy (x :: l))) ++ nl ++ a ++ nl ++ b ++ nl ++ c.
Proof.
  intros Hx Ha Hb Hc.
  change (x :: l ++ [a; b; c]) with ((x :: l) ++ [a; b; c]).
  rewrite filter_app.
  assert (Ht : filter truthy [a; b; c] = [a; b; c]).
  { cbn [filter]. rewrite Ha, Hb, Hc. reflexivity. }
  rewrite Ht.
  rewrite join_app.
  - reflexivity.
  - cbn [filter]. rewrite Hx. discriminate.
  - discriminate.
Qed.

Lemma join_filter_nine (l1 l2 l3 l4 l5 l6 l7 l8 l9 : jsstring) :
  truthy l1 = true -> truthy l7 = true -> truthy l8 = true ->
  truthy l9 = true ->
  join nl (filter truthy [l1; l2; l3; l4; l5; l6; l7; l8; l9])
  = (join nl (filter truthy [l1; l2; l3; l4; l5; l6]))
    ++ nl ++ l7 ++ nl ++ l8 ++ nl ++ l9.
Proof. exact (join_filter_tail l1 [l2; l3; l4; l5; l6] l7 l8 l9). Qed.

Lemma shared_context_ends (metadata : BlogMetadata) (t : Tone)
  (anchor : jsstring) :
  exists before,
    sharedContextOf metadata t anchor
    = before ++ nl ++ toneLine t ++ shared_context_tail anchor.
Proof.
  unfold sharedContextOf, sharedContextLines, shared_context_tail.
  match goal with
  | |- context [filter truthy [?l1; ?l2; ?l3; ?l4; ?l5; ?l6; ?l7; ?l8; ?l9]] =>
      exists (join nl (filter truthy [l1; l2; l3; l4; l5; l6]));
      pose proof (join_filter_nine l1 l2 l3 l4 l5 l6 l7 l8 l9) as Hjoin
  end.
  assert (Htone : truthy (toneLine t) = true)
    by (rewrite toneLine_guidance; destruct t; reflexivity).
  specialize (Hjoin eq_refl Htone eq_refl eq_refl).
  etransitivity; [exact Hjoin|].
  repeat rewrite <- app_assoc. reflexivity.
Qed.

Lemma guidance_ends_unlike_fallback (t : Tone) (x y : jsstring) :
  x ++ toneGuidance t <> y ++ outputToneFallback.
Proof.
  intros H. apply (f_equal (@rev N)) in H.
  unfold jsstring, code_unit in *.
  rewrite !rev_app_distr in H.
  apply (f_equal (fun l => nth 1 l 0%N)) in H.
  destruct t; vm_compute in H; discriminate H.
Qed.

(** C3, as amended.  An absent tone takes the default of the parameter,
    [conversational]: for an absent tone and for each of the three tones,
    the shared context block, with which the prompt starts, ends with the
    guidance sentence of the table for that tone on a line of its own,
    followed by the backlink instruction and the instruction not to
    invent; the text before the backlink instruction never ends with the
    fallback sentence, and the fallback sentence is none of the entries
    that are joined into the block. *)
Theorem buildPrompt_tone_guidance (options : PromptBuilderOptions) :
  let t := match tone options with Some t => t | None => conversational end in
  let anchor := buildBacklinkInstruction (metadata options) in
  let shared := sharedContextOf (metadata options) t anchor in
  (exists rest, buildPrompt options = shared ++ rest)
  /\ (exists before,
        shared = before ++ nl ++ toneGuidance t ++ shared_context_tail anchor)
  /\ (forall before,
        shared <> before ++ outputToneFallback ++ shared_context_tail anchor)
  /\ In (toneGuidance t)
        (filter truthy (sharedContextLines (metadata options) t anchor))
  /\ Substring (toneGuidance t) shared
  /\ ~ In outputToneFallback
          (sharedContextLines (metadata options) t anchor).
Proof.
  intros t anchor shared.
  assert (Hends : exists before,
            shared = before ++ nl ++ toneGuidance t
                     ++ shared_context_tail anchor).
  { destruct (shared_context_ends (metadata options) t anchor) as (b & Hb).
    exists b. rewrite <- toneLine_guidance. exact Hb. }
  split; [|split; [exact Hends | split; [|split; [|split]]]].
  - unfold buildPrompt. cbv zeta.
    destruct (outputType options);
      match goal with
      | |- exists rest, lines (_ :: ?l) = _ =>
          exists (nl ++ lines l); reflexivity
      end.
  - intros before' Hfall. destruct Hends as (before & Hguide).
    rewrite Hguide in Hfall.
    rewrite !(app_assoc _ _ (shared_context_tail anchor)) in Hfall.
    apply app_inv_tail in Hfall.
    rewrite app_assoc in Hfall.
    exact (guidance_ends_unlike_fallback t _ _ Hfall).
  - apply filter_In. split.
    + unfold sharedContextLines. rewrite toneLine_guidance.
      do 6 right. left. reflexivity.
    + destruct t; reflexivity.
  - unfold shared, sharedContextOf. apply In_join_Substring.
    apply filter_In. split.
    + unfold sharedContextLines. rewrite toneLine_guidance.
      do 6 right. left. reflexivity.
    + destruct t; reflexivity.
  - apply fallback_not_a_line.
Qed.

End PromptToneBlock.

(** ** Model output wrapped in code-fence markers *)

Section Separator.

Variable eqc : code_unit -> code_unit -> bool.
Variable sep : code_unit.

(** A pattern none of whose code units matches the separator does not
    match across it. *)
Lemma match_prefix_sep (p : code_unit) (pat a b : jsstring) :
  forallb (fun q => negb (eqc q sep)) (p :: pat) = true ->
  match_prefix eqc (p :: pat) (a ++ sep :: b)
  = option_map (fun r => r ++ sep :: b) (match_prefix eqc (p :: pat) a).
Proof.
  revert p a. induction pat as [|q pat IH]; intros p a H;
    cbn [forallb] in H; apply andb_true_iff in H as [Hp H];
    apply negb_true_iff in Hp.
  - destruct a as [|c a]; cbn [app match_prefix].
    + rewrite Hp. reflexivity.
    + destruct (eqc p c); reflexivity.
  - destruct a as [|c a].
    + cbn [app]. cbn [match_prefix]. rewrite Hp. reflexivity.
    + change ((c :: a) ++ sep :: b) with (c :: (a ++ sep :: b)).
      change (match_prefix eqc (p :: q :: pat) (c :: (a ++ sep :: b)))
        with (if eqc p c then match_prefix eqc (q :: pat) (a ++ sep :: b)
              else None).
      change (match_prefix eqc (p :: q :: pat) (c :: a))
        with (if eqc p c then match_prefix eqc (q :: pat) a else None).
      destruct (eqc p c); [|reflexivity].
      apply IH. exact H.
Qed.

(** Global removal works on each side of such a separator by itself. *)
Lemma remove_all_sep (p : code_unit) (pat a b : jsstring) :
  forallb (fun q => negb (eqc q sep)) (p :: pat) = true ->
  remove_all eqc (p :: pat) (a ++ sep :: b)
  = remove_all eqc (p :: pat) a ++ sep :: remove_all eqc (p :: pat) b.
Proof.
  intros H. remember (length a) as n eqn:Hn. revert a Hn.
  induction n as [n IH] using lt_wf_ind. intros a Hn.
  destruct a as [|c a].
  - cbn [app]. rewrite remove_all_skip; [reflexivity|].
    cbn [forallb] in H. apply andb_true_iff in H as [Hp _].
    apply negb_true_iff in Hp. cbn [match_prefix]. rewrite Hp. reflexivity.
  - pose proof (match_prefix_sep p pat (c :: a) b H) as Hm.
    destruct (match_prefix eqc (p :: pat) (c :: a)) as [rest|] eqn:E.
    + cbn [option_map] in Hm.
      rewrite (remove_all_match eqc (p :: pat) _ _ ltac:(discriminate) Hm).
      rewrite (remove_all_match eqc (p :: pat) _ _ ltac:(discriminate) E).
      pose proof (match_prefix_shorter eqc (p :: pat) (c :: a) rest
                    ltac:(discriminate) E) as Hlt.
      apply (IH (length rest)); [subst n; exact Hlt | reflexivity].
    + cbn [option_map] in Hm.
      change ((c :: a) ++ sep :: b) with (c :: (a ++ sep :: b)) in *.
      rewrite (remove_all_skip eqc (p :: pat) _ c Hm).
      rewrite (remove_all_skip eqc (p :: pat) _ c E).
      cbn [app]. f_equal.
      apply (IH (length a)); [subst n; simpl; lia | reflexivity].
Qed.

End Separator.

Section Wrapped.

Import Route.

Lemma eq_ignore_case_lower (c : code_unit) :
  eq_ignore_case (asciiLower c) c = true.
Proof.
  unfold eq_ignore_case, asciiLower, asciiUpper. apply N.eqb_eq.
  destruct ((65 <=? c) && (c <=? 90))%N eqn:E.
  - apply andb_true_iff in E as [E1 E2].
    apply N.leb_le in E1. apply N.leb_le in E2.
    replace ((97 <=? c + 32) && (c + 32 <=? 122))%N with true
      by (symmetry; apply andb_true_iff; split; apply N.leb_le; lia).
    replace ((97 <=? c) && (c <=? 122))%N with false
      by (symmetry; apply andb_false_iff; left; apply N.leb_gt; lia).
    lia.
  - reflexivity.
Qed.

Lemma match_prefix_lower (o rest : jsstring) :
  match_prefix eq_ignore_case (toLowerCase o) (o ++ rest) = Some rest.
Proof.
  induction o as [|c o IH]; [reflexivity|].
  cbn [toLowerCase map app match_prefix]. rewrite eq_ignore_case_lower.
  exact IH.
Qed.

(** Both removals take an opening line away altogether. *)
Lemma opening_removed (opening : jsstring) :
  is_opening opening = true ->
  remove_all N.eqb FENCE (remove_all eq_ignore_case FENCE_HTML opening) = [].
Proof.
  unfold is_opening. intros H. apply orb_true_iff in H as [H | H];
    apply eqb_eq in H.
  - subst opening. vm_compute. reflexivity.
  - change (js "```html") with FENCE_HTML in H.
    rewrite (remove_all_match eq_ignore_case FENCE_HTML opening []);
      [reflexivity | discriminate |].
    rewrite <- H. rewrite <- (app_nil_r opening) at 2.
    apply match_prefix_lower.
Qed.

Lemma match_prefix_three (eqc : code_unit -> code_unit -> bool)
  (p1 p2 p3 : code_unit) (pat s rest : jsstring) :
  match_prefix eqc (p1 :: p2 :: p3 :: pat) s = Some rest ->
  exists a b c t,
    s = a :: b :: c :: t
    /\ eqc p1 a = true /\ eqc p2 b = true /\ eqc p3 c = true.
Proof.
  intros H.
  destruct s as [|a s]; [discriminate H|].
  cbn [match_prefix] in H. destruct (eqc p1 a) eqn:E1; [|discriminate H].
  destruct s as [|b s]; [discriminate H|].
  destruct (eqc p2 b) eqn:E2; [|discriminate H].
  destruct s as [|c s]; [discriminate H|].
  destruct (eqc p3 c) eqn:E3; [|discriminate H].
  exists a, b, c, s. repeat split; assumption.
Qed.

Lemma html_fence_starts_with_fence (s rest : jsstring) :
  match_prefix eq_ignore_case FENCE_HTML s = Some rest ->
  startsWith s FENCE = true.
Proof.
  change FENCE_HTML with (BACKTICK :: BACKTICK :: BACKTICK :: js "html").
  intros H. apply match_prefix_three in H
    as (a & b & c & t & -> & Ha & Hb & Hc).
  rewrite eq_ignore_case_backtick in Ha, Hb, Hc.
  apply N.eqb_eq in Ha, Hb, Hc. subst a b c. reflexivity.
Qed.

Lemma fence_starts_with_fence (s rest : jsstring) :
  match_prefix N.eqb FENCE s = Some rest -> startsWith s FENCE = true.
Proof. intros H. unfold startsWith. rewrite H. reflexivity. Qed.

(** A removal whose every match starts with a fence marker copies a
    string that holds no fence marker. *)
Lemma remove_all_without_fence (eqc : code_unit -> code_unit -> bool)
  (pat s : jsstring) :
  (forall t rest, match_prefix eqc pat t = Some rest ->
                  startsWith t FENCE = true) ->
  includes s FENCE = false ->
  remove_all eqc pat s = s.
Proof.
  intros Hstart. induction s as [|c s IH]; intros H; [reflexivity|].
  cbn [includes] in H. apply orb_false_iff in H as [H1 H2].
  rewrite remove_all_skip.
  - f_equal. exact (IH H2).
  - destruct (match_prefix eqc pat (c :: s)) as [rest|] eqn:E;
      [|reflexivity].
    rewrite (Hstart _ _ E) in H1. discriminate H1.
Qed.

(** The cleaned text of wrapped output is the cleaned text of what is
    wrapped. *)
Lemma cleaned_of_wrapped (opening inner : jsstring) :
  is_opening opening = true ->
  cleaned_of (wrapped opening inner) = cleaned_of inner.
Proof.
  intros Ho. unfold cleaned_of, wrapped.
  change (js "```") with FENCE.
  change (opening ++ nl ++ inner ++ nl ++ FENCE)
    with (opening ++ 10%N :: (inner ++ 10%N :: FENCE)).
  change FENCE_HTML with (96%N :: js "``html").
  rewrite !(remove_all_sep eq_ignore_case 10%N 96%N (js "``html"))
    by reflexivity.
  change (96%N :: js "``html") with FENCE_HTML.
  change (remove_all eq_ignore_case FENCE_HTML FENCE) with FENCE.
  change (remove_all N.eqb FENCE) with (remove_all N.eqb (96%N :: js "``")).
  rewrite !(remove_all_sep N.eqb 10%N 96%N (js "``")) by reflexivity.
  change (96%N :: js "``") with FENCE.
  rewrite (opening_removed opening Ho).
  change (remove_all N.eqb FENCE FENCE) with (@nil N).
  unfold ZERO_WIDTH_SPACE. rewrite !remove_all_single.
  cbn [app]. cbn [filter N.eqb Pos.eqb negb].
  rewrite filter_app. cbn [filter N.eqb Pos.eqb negb].
  apply (trim_wrapped 10%N 10%N); reflexivity.
Qed.

Lemma cleaned_of_without_fence (inner : jsstring) :
  ~ Substring FENCE inner ->
  cleaned_of inner = trim (filter (fun c => negb (8203 =? c)%N) inner).
Proof.
  intros H. apply includes_false in H. unfold cleaned_of.
  rewrite (remove_all_without_fence eq_ignore_case FENCE_HTML inner
             html_fence_starts_with_fence H).
  rewrite (remove_all_without_fence N.eqb FENCE inner
             fence_starts_with_fence H).
  unfold ZERO_WIDTH_SPACE. rewrite remove_all_single. reflexivity.
Qed.

Lemma cleaned_of_fence_free (output : jsstring) :
  ~ In 8203%N output -> ~ Substring FENCE (cleaned_of output).
Proof.
  intros Hz.
  set (stage2 := remove_all N.eqb FENCE
                   (remove_all eq_ignore_case FENCE_HTML output)).
  assert (Hz2 : ~ In 8203%N stage2).
  { intros Hin. apply Hz.
    apply (In_remove_all eq_ignore_case FENCE_HTML); [discriminate|].
    apply (In_remove_all N.eqb FENCE); [discriminate | exact Hin]. }
  assert (Hclean : cleaned_of output = trim stage2).
  { unfold cleaned_of. fold stage2. unfold ZERO_WIDTH_SPACE.
    rewrite remove_all_single. rewrite filter_all; [reflexivity|].
    intros c Hc. apply negb_true_iff. apply N.eqb_neq. intros <-.
    exact (Hz2 Hc). }
  rewrite Hclean. intros Hsub.
  pose proof (Substring_trans _ _ _ Hsub (trim_Substring stage2)) as H.
  apply includes_spec in H. unfold stage2 in H.
  rewrite (proj2 (remove_fence_invariant _)) in H. discriminate H.
Qed.

Lemma sanitized_fence_free (output canonicalUrl : jsstring) :
  ~ Substring FENCE (cleaned_of output) -> ~ In BACKTICK canonicalUrl ->
  ~ Substring FENCE (sanitizeModelHtml output canonicalUrl).
Proof.
  intros Hfree Hu Hsub. unfold sanitizeModelHtml in Hsub.
  destruct (truthy (cleaned_of output)); cbn [negb] in Hsub.
  - destruct (includes (cleaned_of output) canonicalUrl); cbn [negb] in Hsub;
      [exact (Hfree Hsub)|].
    apply Hfree. apply (fence_before _ (backlink_paragraph canonicalUrl));
      [|exact Hsub].
    unfold backlink_paragraph. intros Hin.
    repeat (apply in_app_or in Hin as [Hin | Hin]); try tauto;
      revert Hin; apply closed_In_false; reflexivity.
  - apply includes_spec in Hsub. vm_compute in Hsub. discriminate Hsub.
Qed.

(** C7, as amended.  Model output wrapped in code-fence markers -- an
    opening line of three backticks, alone or followed by [html] in any
    letter case, the text, and a closing line of three backticks -- is
    sanitised as the text alone is: the placeholder when the cleaned text is
    empty, else the cleaned text, followed by the backlink paragraph when
    the cleaned text does not contain the tracked URL.  When the text holds
    no fence marker, the cleaned text is the text without its zero-width
    spaces, trimmed.  When the text holds no zero-width space, no fence
    marker remains in the cleaned text, nor in the result when the URL holds
    no backtick. *)
Theorem sanitizeModelHtml_strips_fences
  (opening inner canonicalUrl : jsstring) :
  is_opening opening = true ->
  let output := wrapped opening inner in
  let cleaned := cleaned_of inner in
  cleaned_of output = cleaned
  /\ sanitizeModelHtml output canonicalUrl =
     (if truthy cleaned then
        if includes cleaned canonicalUrl then cleaned
        else cleaned ++ nl ++ js "<p><a href=" ++ dq ++ canonicalUrl ++ dq
             ++ js ">Read the full article</a></p>"
      else js "<p>We weren't able to generate this output. Please try again.</p>")
  /\ (~ Substring (js "```") inner ->
      cleaned = trim (filter (fun c => negb (8203 =? c)%N) inner))
  /\ (~ In 8203%N inner ->
      ~ Substring (js "```") cleaned
      /\ (~ In BACKTICK canonicalUrl ->
          ~ Substring (js "```") (sanitizeModelHtml output canonicalUrl))).
Proof.
  intros Ho output cleaned.
  pose proof (cleaned_of_wrapped opening inner Ho) as Hc.
  fold output cleaned in Hc.
  split; [exact Hc | split; [|split]].
  - unfold sanitizeModelHtml. rewrite Hc.
    destruct (truthy cleaned); [|reflexivity]. cbn [negb].
    destruct (includes cleaned canonicalUrl); reflexivity.
  - exact (cleaned_of_without_fence inner).
  - intros Hz.
    pose proof (cleaned_of_fence_free inner Hz) as Hfree.
    split; [exact Hfree|].
    intros Hu. apply sanitized_fence_free; [|exact Hu].
    rewrite Hc. exact Hfree.
Qed.

(** The example of the specification, in three wrappings: the cleaned text
    is [<p>hi</p>], and with the tracked URL of the newsletter the backlink
    paragraph follows. *)
Lemma sanitizeModelHtml_strips_fences_witness :
  let expected :=
    js "<p>hi</p>" ++ nl ++ js "<p><a href=" ++ dq ++ example_tracked ++ dq
    ++ js ">Read the full article</a></p>" in
  sanitizeModelHtml (js "```html" ++ nl ++ js "<p>hi</p>" ++ nl ++ js "```")
    example_tracked = expected
  /\ sanitizeModelHtml (js "```HTML" ++ nl ++ js "<p>hi</p>" ++ nl ++ js "```")
       example_tracked = expected
  /\ sanitizeModelHtml (js "```" ++ nl ++ js "<p>hi</p>" ++ nl ++ js "```")
       example_tracked = expected
  /\ ~ Substring (js "```")
         (sanitizeModelHtml
            (js "```Html" ++ nl ++ js "`<p>hi</p>`" ++ nl ++ js "```")
            example_tracked).
Proof.
  intros expected.
  split; [|split; [|split]].
  - destruct (sanitizeModelHtml_strips_fences (js "```html") (js "<p>hi</p>")
                example_tracked eq_refl) as (_ & Hs & _).
    etransitivity; [exact Hs|]. vm_compute. reflexivity.
  - destruct (sanitizeModelHtml_strips_fences (js "```HTML") (js "<p>hi</p>")
                example_tracked eq_refl) as (_ & Hs & _).
    etransitivity; [exact Hs|]. vm_compute. reflexivity.
  - destruct (sanitizeModelHtml_strips_fences (js "```") (js "<p>hi</p>")
                example_tracked eq_refl) as (_ & Hs & _).
    etransitivity; [exact Hs|]. vm_compute. reflexivity.
  - destruct (sanitizeModelHtml_strips_fences (js "```Html")
                (js "`<p>hi</p>`") example_tracked eq_refl)
      as (_ & _ & _ & Hfree).
    apply Hfree; apply closed_In_false; vm_compute; reflexivity.
Defined.

End Wrapped.
